(** * A shallow embedding of the proof kernel of mwe_proof_system

    The development follows the C++ sources:
    - [proof_system.cpp] / [proof_system.hpp]: terms, formulas, rendering,
      well-formedness and the two substitution engines;
    - [proof.cpp] / [proof.hpp]: the [Proof] class, its line rules and its
      goal tactics.

    Conventions of the embedding.
    - A [std::shared_ptr<T>] is an [option T]; [None] is [nullptr].  Nodes are
      immutable, so sharing is not observable and trees are enough.
    - [std::string] is a byte string ([string] of the standard library); a
      literal holding non-ASCII text is the sequence of its UTF-8 bytes, as in
      the C++ translation unit.
    - A computation that can throw or run into undefined behaviour returns a
      [result]; methods of [Proof] are state transformers that also return the
      state reached when the exception left the method.
    - [int] is [Z]; [size_t] indices are [nat] (the only arithmetic on them is
      a decrement guarded by [> 0]). *)

From Stdlib Require Import ZArith Ascii String List Bool Lia.
From stdpp Require Import base option list strings gmap.

#[local] Set Warnings "-register-all".

Local Open Scope string_scope.
Local Open Scope list_scope.

(** ** Outcomes *)

(** The exceptions the sources raise: [std::invalid_argument] and
    [std::logic_error] carry their message; [std::get] on the wrong
    alternative of a variant raises [std::bad_variant_access]. *)
Inductive exception : Type :=
| invalid_argument (what : string)
| logic_error (what : string)
| bad_variant_access.

(** [Undefined] stands for undefined behaviour: dereferencing a null
    [shared_ptr] or indexing a vector out of range. *)
Inductive failure : Type :=
| Throw (e : exception)
| Undefined.

Inductive result (A : Type) : Type :=
| Ok (a : A)
| Fail (f : failure).
Arguments Ok {A} a.
Arguments Fail {A} f.

Definition bindR {A B : Type} (m : result A) (k : A -> result B) : result B :=
  match m with
  | Ok a => k a
  | Fail f => Fail f
  end.

Notation "'let*' x ':=' m 'in' k" := (bindR m (fun x => k))
  (at level 10, x name, m at level 100, k at level 200).

Definition throw {A : Type} (e : exception) : result A := Fail (Throw e).

Definition is_Ok {A : Type} (r : result A) : bool :=
  match r with Ok _ => true | Fail _ => false end.

(** [mapR f l] is the loop [for (auto &x : l) out.push_back(f(x));]. *)
Fixpoint mapR {A B : Type} (f : A -> result B) (l : list A) : result (list B) :=
  match l with
  | [] => Ok []
  | x :: l' =>
      let* y := f x in
      let* ys := mapR f l' in
      Ok (y :: ys)
  end.

(** ** Terms *)

Inductive Term : Type :=
| VariableTerm (var : string)
| ConstantTerm (c : string)
| FunctionTerm (f : string) (args : list (option Term))
| TupleTerm (args : list (option Term)).

Abbreviation TermPtr := (option Term).

Definition make_variable (v : string) : TermPtr := Some (VariableTerm v).
Definition make_constant (c : string) : TermPtr := Some (ConstantTerm c).
Definition make_function (f : string) (args : list TermPtr) : TermPtr :=
  Some (FunctionTerm f args).
Definition make_tuple (args : list TermPtr) : TermPtr := Some (TupleTerm args).

(** ** Formulas *)

Inductive Formula : Type :=
| EqualityFormula (l r : TermPtr)
| RelationFormula (R : string) (args : list TermPtr)
| NotFormula (inner : option Formula)
| OrFormula (l r : option Formula)
| AndFormula (l r : option Formula)
| ImpliesFormula (l r : option Formula)
| ForallFormula (v : string) (domain : TermPtr) (inner : option Formula)
| ExistsFormula (v : string) (domain : TermPtr) (inner : option Formula).

Abbreviation FormulaPtr := (option Formula).

Definition make_eq (a b : TermPtr) : FormulaPtr := Some (EqualityFormula a b).
Definition make_rel (R : string) (args : list TermPtr) : FormulaPtr :=
  Some (RelationFormula R args).
Definition make_not (f : FormulaPtr) : FormulaPtr := Some (NotFormula f).
Definition make_or (a b : FormulaPtr) : FormulaPtr := Some (OrFormula a b).
Definition make_and (a b : FormulaPtr) : FormulaPtr := Some (AndFormula a b).
Definition make_implies (a b : FormulaPtr) : FormulaPtr := Some (ImpliesFormula a b).
Definition make_forall (v : string) (domain : TermPtr) (inner : FormulaPtr) : FormulaPtr :=
  Some (ForallFormula v domain inner).
Definition make_exists (v : string) (domain : TermPtr) (inner : FormulaPtr) : FormulaPtr :=
  Some (ExistsFormula v domain inner).

(** ** Rendering *)

(** [set.count(s)] for the small literal sets of operator names. *)
Definition count (set : list string) (s : string) : bool :=
  existsb (String.eqb s) set.

Definition infix_operators : list string := ["+"; "*"; "∈"].
Definition infix_relations : list string := ["="; "∈"; "<"; "≤"; ">"].

(** The loop
    [for (i = 0; i < n; ++i) { ss << args[i]; if (i + 1 < n) ss << ", "; }]
    over strings already rendered (the relation variant writes the separator
    before every element but the first, which prints the same text). *)
Fixpoint comma_separated (l : list string) : string :=
  match l with
  | [] => ""
  | [s] => s
  | s :: l' => s +:+ ", " +:+ comma_separated l'
  end.

Fixpoint Term_to_string (t : Term) : result string :=
  let deref (p : TermPtr) : result string :=
    match p with
    | Some u => Term_to_string u
    | None => Fail Undefined
    end in
  match t with
  | VariableTerm var => Ok var
  | ConstantTerm c => Ok c
  | FunctionTerm f args =>
      match args with
      | [a0; a1] =>
          if count infix_operators f then
            let* s0 := deref a0 in
            let* s1 := deref a1 in
            Ok ("(" +:+ s0 +:+ " " +:+ f +:+ " " +:+ s1 +:+ ")")
          else
            let* ss := mapR deref args in
            Ok (f +:+ "(" +:+ comma_separated ss +:+ ")")
      | _ =>
          let* ss := mapR deref args in
          Ok (f +:+ "(" +:+ comma_separated ss +:+ ")")
      end
  | TupleTerm args =>
      (* the text is built in a local stream that is never returned *)
      let* ss := mapR deref args in
      let _ := "(" +:+ comma_separated ss +:+ ")" in
      Ok "?"
  end.

(** [p->to_string()] through a pointer. *)
Definition TermPtr_to_string (p : TermPtr) : result string :=
  match p with
  | Some t => Term_to_string t
  | None => Fail Undefined
  end.

Fixpoint Formula_to_string (phi : Formula) : result string :=
  let deref (p : FormulaPtr) : result string :=
    match p with
    | Some psi => Formula_to_string psi
    | None => Fail Undefined
    end in
  match phi with
  | EqualityFormula l r =>
      let* sl := TermPtr_to_string l in
      let* sr := TermPtr_to_string r in
      Ok ("(" +:+ sl +:+ " = " +:+ sr +:+ ")")
  | RelationFormula R args =>
      match args with
      | [a0; a1] =>
          if count infix_relations R then
            let* s0 := TermPtr_to_string a0 in
            let* s1 := TermPtr_to_string a1 in
            Ok ("(" +:+ s0 +:+ " " +:+ R +:+ " " +:+ s1 +:+ ")")
          else
            let* ss := mapR TermPtr_to_string args in
            Ok (R +:+ "(" +:+ comma_separated ss +:+ ")")
      | _ =>
          let* ss := mapR TermPtr_to_string args in
          Ok (R +:+ "(" +:+ comma_separated ss +:+ ")")
      end
  | NotFormula inner =>
      let* s := deref inner in
      Ok ("(¬" +:+ s +:+ ")")
  | OrFormula l r =>
      let* sl := deref l in
      let* sr := deref r in
      Ok ("(" +:+ sl +:+ " ∨ " +:+ sr +:+ ")")
  | AndFormula l r =>
      let* sl := deref l in
      let* sr := deref r in
      Ok ("(" +:+ sl +:+ " ∧ " +:+ sr +:+ ")")
  | ImpliesFormula l r =>
      let* sl := deref l in
      let* sr := deref r in
      Ok ("(" +:+ sl +:+ " → " +:+ sr +:+ ")")
  | ForallFormula v domain inner =>
      let* sd := TermPtr_to_string domain in
      let* si := deref inner in
      Ok ("(∀" +:+ v +:+ " ∈ " +:+ sd +:+ ")(" +:+ si +:+ ")")
  | ExistsFormula v domain inner =>
      let* sd := TermPtr_to_string domain in
      let* si := deref inner in
      Ok ("(∃" +:+ v +:+ " ∈ " +:+ sd +:+ ")(" +:+ si +:+ ")")
  end.

Definition FormulaPtr_to_string (p : FormulaPtr) : result string :=
  match p with
  | Some phi => Formula_to_string phi
  | None => Fail Undefined
  end.

(** The comparison [a->to_string() == b->to_string()] the engine uses
    wherever it compares two terms or two formulas. *)
Definition same_text (a b : result string) : result bool :=
  let* sa := a in
  let* sb := b in
  Ok (String.eqb sa sb).

(** ** The fixed mathematical language and well-formedness *)

(** [std::isdigit] in the "C" locale. *)
Definition isdigit (c : ascii) : bool :=
  let n := nat_of_ascii c in (48 <=? n)%nat && (n <=? 57)%nat.

(** Variables: v1, v2, ... *)
Definition is_variable (s : string) : bool :=
  match s with
  | EmptyString => false
  | String c rest =>
      if negb (Ascii.eqb c "v") then false
      else if negb (forallb isdigit (list_ascii_of_string rest)) then false
      else (1 <? String.length s)%nat
  end.

(** Constants: "0", "1" *)
Definition is_constant (s : string) : bool := String.eqb s "0" || String.eqb s "1".

(** Function symbols: succ (1-ary), + (2-ary), * (2-ary) *)
Definition is_function (s : string) (arity : Z) : bool :=
  (String.eqb s "succ" && (arity =? 1)%Z)
  || (String.eqb s "+" && (arity =? 2)%Z)
  || (String.eqb s "*" && (arity =? 2)%Z).

(** Relation symbols: < (2-ary) *)
Definition is_relation (s : string) (arity : Z) : bool :=
  String.eqb s "<" && (arity =? 2)%Z.

(** [Term::is_well_formed(std::string *err)].  The out-parameter is an
    [option string]: [None] is a null [err], [Some s] an [err] that points to
    a string holding [s]; the function returns its verdict together with the
    contents of [*err] on return. *)
Definition set_err (err : option string) (msg : string) : option string :=
  match err with
  | Some _ => Some msg
  | None => None
  end.

Fixpoint Term_is_well_formed (t : Term) (err : option string)
  : result (bool * option string) :=
  match t with
  | VariableTerm var =>
      if negb (is_variable var) then Ok (false, set_err err "bad var")
      else Ok (true, err)
  | ConstantTerm c =>
      if negb (is_constant c) then Ok (false, set_err err "bad const")
      else Ok (true, err)
  | FunctionTerm f args =>
      if negb (is_function f (Z.of_nat (length args)))
      then Ok (false, set_err err "bad function/arity")
      else
        (fix loop (l : list TermPtr) (err : option string)
           : result (bool * option string) :=
           match l with
           | [] => Ok (true, err)
           | a :: l' =>
               match a with
               | None => Fail Undefined
               | Some u =>
                   let* r := Term_is_well_formed u err in
                   if negb (fst r) then Ok (false, snd r) else loop l' (snd r)
               end
           end) args err
  | TupleTerm _ => Ok (false, err)
  end.

(** ** Substitution *)

(** *** Term-pattern substitution *)

(** [substitute_term_in_term(u, pattern, replacement)] on a non-null [u]. *)
Fixpoint substitute_term_in_term_at (u : Term) (pattern replacement : TermPtr)
  : result TermPtr :=
  let recur (arg : TermPtr) : result TermPtr :=
    match arg with
    | Some a => substitute_term_in_term_at a pattern replacement
    | None => Ok None
    end in
  let* matched := same_text (Term_to_string u) (TermPtr_to_string pattern) in
  if matched then Ok replacement
  else
    match u with
    | FunctionTerm f args =>
        let* new_args := mapR recur args in
        Ok (make_function f new_args)
    | TupleTerm args =>
        let* new_args := mapR recur args in
        Ok (make_tuple new_args)
    | VariableTerm var => Ok (make_variable var)
    | ConstantTerm c => Ok (make_constant c)
    end.

Definition substitute_term_in_term (u pattern replacement : TermPtr) : result TermPtr :=
  match u with
  | None => Ok None
  | Some a => substitute_term_in_term_at a pattern replacement
  end.

Fixpoint substitute_term_in_formula_at (phi : Formula) (pattern replacement : TermPtr)
  : result FormulaPtr :=
  let recur (psi : FormulaPtr) : result FormulaPtr :=
    match psi with
    | Some chi => substitute_term_in_formula_at chi pattern replacement
    | None => Ok None
    end in
  match phi with
  | EqualityFormula l r =>
      let* new_l := substitute_term_in_term l pattern replacement in
      let* new_r := substitute_term_in_term r pattern replacement in
      Ok (make_eq new_l new_r)
  | RelationFormula R args =>
      let* new_args :=
        mapR (fun arg => substitute_term_in_term arg pattern replacement) args in
      Ok (make_rel R new_args)
  | NotFormula inner =>
      let* new_inner := recur inner in
      Ok (make_not new_inner)
  | OrFormula l r =>
      let* new_l := recur l in
      let* new_r := recur r in
      Ok (make_or new_l new_r)
  | AndFormula l r =>
      let* new_l := recur l in
      let* new_r := recur r in
      Ok (make_and new_l new_r)
  | ImpliesFormula l r =>
      let* new_l := recur l in
      let* new_r := recur r in
      Ok (make_implies new_l new_r)
  | ForallFormula v domain inner =>
      let* new_inner := recur inner in
      Ok (make_forall v domain new_inner)
  | ExistsFormula v domain inner =>
      let* new_inner := recur inner in
      Ok (make_exists v domain new_inner)
  end.

Definition substitute_term_in_formula (phi : FormulaPtr) (pattern replacement : TermPtr)
  : result FormulaPtr :=
  match phi with
  | None => Ok None
  | Some psi => substitute_term_in_formula_at psi pattern replacement
  end.

(** *** Variable substitution *)

(** The test [var && name == std::get<VariableTerm>(var->data).var]:
    a null [var] never matches, and [std::get] throws when [var] is not a
    variable. *)
Definition names_variable (name : string) (var : TermPtr) : result bool :=
  match var with
  | None => Ok false
  | Some (VariableTerm x) => Ok (String.eqb name x)
  | Some _ => throw bad_variant_access
  end.

(** [substitute_in_term(u, var, t)] on a non-null [u].  There is no branch
    for [TupleTerm]: control falls through to the final [return nullptr]. *)
Fixpoint substitute_in_term_at (u : Term) (var t : TermPtr) : result TermPtr :=
  let recur (arg : TermPtr) : result TermPtr :=
    match arg with
    | Some a => substitute_in_term_at a var t
    | None => Ok None
    end in
  match u with
  | VariableTerm x =>
      let* hit := names_variable x var in
      if hit then Ok t else Ok (make_variable x)
  | ConstantTerm c => Ok (make_constant c)
  | FunctionTerm f args =>
      let* new_args := mapR recur args in
      Ok (make_function f new_args)
  | TupleTerm _ => Ok None
  end.

Definition substitute_in_term (u var t : TermPtr) : result TermPtr :=
  match u with
  | None => Ok None
  | Some a => substitute_in_term_at a var t
  end.

Fixpoint substitute_in_formula_at (phi : Formula) (var t : TermPtr) : result FormulaPtr :=
  let recur (psi : FormulaPtr) : result FormulaPtr :=
    match psi with
    | Some chi => substitute_in_formula_at chi var t
    | None => Ok None
    end in
  match phi with
  | EqualityFormula l r =>
      let* new_l := substitute_in_term l var t in
      let* new_r := substitute_in_term r var t in
      Ok (make_eq new_l new_r)
  | RelationFormula R args =>
      let* new_args := mapR (fun arg => substitute_in_term arg var t) args in
      Ok (make_rel R new_args)
  | NotFormula inner =>
      let* new_inner := recur inner in
      Ok (make_not new_inner)
  | OrFormula l r =>
      let* new_l := recur l in
      let* new_r := recur r in
      Ok (make_or new_l new_r)
  | AndFormula l r =>
      let* new_l := recur l in
      let* new_r := recur r in
      Ok (make_and new_l new_r)
  | ImpliesFormula l r =>
      let* new_l := recur l in
      let* new_r := recur r in
      Ok (make_implies new_l new_r)
  | ForallFormula v domain inner =>
      let* bound := names_variable v var in
      if bound then Ok (Some phi)
      else
        let* new_inner := recur inner in
        Ok (make_forall v domain new_inner)
  | ExistsFormula v domain inner =>
      let* bound := names_variable v var in
      if bound then Ok (Some phi)
      else
        let* new_inner := recur inner in
        Ok (make_exists v domain new_inner)
  end.

Definition substitute_in_formula (phi : FormulaPtr) (var t : TermPtr) : result FormulaPtr :=
  match phi with
  | None => Ok None
  | Some psi => substitute_in_formula_at psi var t
  end.

(** ** Line rules *)

(** [inputs[i]] on a [std::vector]: out of range is undefined behaviour. *)
Definition vec_at {A : Type} (v : list A) (i : nat) : result A :=
  match v !! i with
  | Some x => Ok x
  | None => Fail Undefined
  end.

(** [&p->data] through a possibly null pointer. *)
Definition data {A : Type} (p : option A) : result A :=
  match p with
  | Some x => Ok x
  | None => Fail Undefined
  end.

Definition and_rule (inputs : list FormulaPtr) (claimed : FormulaPtr) : result FormulaPtr :=
  if negb (length inputs =? 2)%nat then
    throw (invalid_argument "AND rule needs 2 inputs")
  else
    let* i0 := vec_at inputs 0 in
    let* i1 := vec_at inputs 1 in
    let expected := make_and i0 i1 in
    let* same := same_text (FormulaPtr_to_string expected) (FormulaPtr_to_string claimed) in
    if negb same then throw (invalid_argument "Claimed does not match AND result")
    else Ok claimed.

Definition eq_rule (inputs : list FormulaPtr) (claimed : FormulaPtr) : result FormulaPtr :=
  if negb (length inputs =? 0)%nat then
    throw (invalid_argument "EQ_SIMPLIFY rule takes no inputs")
  else
    let* c := data claimed in
    match c with
    | EqualityFormula l r =>
        let* same := same_text (TermPtr_to_string l) (TermPtr_to_string r) in
        if negb same then
          throw (invalid_argument "Left and right sides of equality are not equal")
        else Ok claimed
    | _ => throw (invalid_argument "Claimed formula is not an equality")
    end.

Definition forall_rule (inputs : list FormulaPtr) (claimed : FormulaPtr) : result FormulaPtr :=
  if negb (length inputs =? 2)%nat then
    throw (invalid_argument
             "FORALL rule requires 2 inputs: a forall and a term membership fact")
  else
    let* i0 := vec_at inputs 0 in
    let* d0 := data i0 in
    match d0 with
    | ForallFormula v domain inner =>
        let* i1 := vec_at inputs 1 in
        let* d1 := data i1 in
        match d1 with
        | RelationFormula R [elem; fact_domain] =>
            if negb (String.eqb R "∈") then
              throw (invalid_argument
                       "Second input must be a membership relation (element ∈ domain)")
            else
              let* same_domain :=
                same_text (TermPtr_to_string domain) (TermPtr_to_string fact_domain) in
              if negb same_domain then
                throw (invalid_argument "Element's domain does not match forall domain")
              else
                let var_term := make_variable v in
                let* instantiated := substitute_in_formula inner var_term elem in
                let* si := FormulaPtr_to_string instantiated in
                let* sc := FormulaPtr_to_string claimed in
                if negb (String.eqb si sc) then
                  throw (invalid_argument
                           ("Claimed formula " +:+ sc +:+
                            " does not match derived formula " +:+ si))
                else Ok claimed
        | _ =>
            throw (invalid_argument
                     "Second input must be a membership relation (element ∈ domain)")
        end
    | _ => throw (invalid_argument "First input must be a forall formula")
    end.

Definition excluded_middle_rule (inputs : list FormulaPtr) (claimed : FormulaPtr)
  : result FormulaPtr :=
  if negb (length inputs =? 0)%nat then
    throw (invalid_argument "LEM requires no inputs")
  else
    let* c := data claimed in
    match c with
    | OrFormula l r =>
        let* dr := data r in
        match dr with
        | NotFormula inner =>
            let* same := same_text (FormulaPtr_to_string l) (FormulaPtr_to_string inner) in
            if negb same then
              throw (invalid_argument "LEM: must be of the form (P ∨ ¬P)")
            else Ok claimed
        | _ => throw (invalid_argument "LEM: right-hand side is not a NOT")
        end
    | _ => throw (invalid_argument "LEM: claimed formula is not an OR")
    end.

Definition cases_rule (inputs : list FormulaPtr) (claimed : FormulaPtr) : result FormulaPtr :=
  if negb (length inputs =? 2)%nat then
    throw (invalid_argument "CASES requires 2 inputs: (f -> t) and (¬f -> t)")
  else
    let* i0 := vec_at inputs 0 in
    let* d0 := data i0 in
    match d0 with
    | ImpliesFormula f t1 =>
        let* i1 := vec_at inputs 1 in
        let* d1 := data i1 in
        match d1 with
        | ImpliesFormula left2 t2 =>
            let both_derive_claimed : result bool :=
              let* same1 := same_text (FormulaPtr_to_string t1) (FormulaPtr_to_string claimed) in
              if negb same1 then Ok false
              else same_text (FormulaPtr_to_string t2) (FormulaPtr_to_string claimed) in
            let* both := both_derive_claimed in
            if negb both then
              throw (invalid_argument
                       "CASES: both implications must derive the claimed formula")
            else
              let* dl := data left2 in
              match dl with
              | NotFormula inner =>
                  let* same :=
                    same_text (FormulaPtr_to_string inner) (FormulaPtr_to_string f) in
                  if negb same then
                    throw (invalid_argument "CASES: mismatched f and ¬f assumptions")
                  else Ok claimed
              | _ =>
                  throw (invalid_argument
                           "CASES: second implication must have ¬f on the left side")
              end
        | _ => throw (invalid_argument "CASES: second input must be an implication")
        end
    | _ => throw (invalid_argument "CASES: first input must be an implication")
    end.

Definition newline : string := String (ascii_of_nat 10) EmptyString.

Definition induction_rule (inputs : list FormulaPtr) (claimed : FormulaPtr)
  : result FormulaPtr :=
  if negb (length inputs =? 2)%nat then
    throw (invalid_argument
             "INDUCTION requires 2 inputs: base P(0) and step ∀k(P(k) → P(k+1))")
  else
    (* Base: should be some P(0) *)
    let* base := vec_at inputs 0 in
    (* Step: must be forall k ( P(k) → P(k+1) ) *)
    let* i1 := vec_at inputs 1 in
    let* d1 := data i1 in
    match d1 with
    | ForallFormula var _ inner =>
        let* di := data inner in
        match di with
        | ImpliesFormula Pk r =>
            let var_term := make_variable var in
            let succ_term := make_function "+" [var_term; make_constant "1"] in
            let zero_term := make_constant "0" in
            (* Verify base matches: P(k)[k := 0] == base *)
            let* P0 := substitute_in_formula Pk var_term zero_term in
            let* s0 := FormulaPtr_to_string P0 in
            let* sb := FormulaPtr_to_string base in
            if negb (String.eqb s0 sb) then
              let* sk := FormulaPtr_to_string Pk in
              throw (invalid_argument
                       ("Base mismatch: expected " +:+ sb +:+ " but got " +:+ s0 +:+
                        " when substituting " +:+ var +:+ " := 0 in " +:+ sk))
            else
              (* Verify step matches: RHS == P(k+1) *)
              let* Psucc := substitute_in_formula Pk var_term succ_term in
              let* sr := FormulaPtr_to_string r in
              let* ss := FormulaPtr_to_string Psucc in
              if negb (String.eqb sr ss) then
                throw (invalid_argument
                         ("Step conclusion mismatch:" +:+ newline +:+
                          "  Expected: " +:+ ss +:+ newline +:+
                          "  Got:      " +:+ sr))
              else
                (* Construct final ∀n P(n) *)
                let n_term := make_variable "n" in
                let* Pn := substitute_in_formula Pk var_term n_term in
                let natural_numbers := make_constant "ℕ" in
                let result := make_forall "n" natural_numbers Pn in
                let* sc := FormulaPtr_to_string claimed in
                let* sres := FormulaPtr_to_string result in
                if negb (String.eqb sc sres) then
                  throw (invalid_argument
                           ("Claimed " +:+ sc +:+ " does not match derived " +:+ sres))
                else Ok claimed
        | _ => throw (invalid_argument "Step must be an implication (P(k) → P(k+1))")
        end
    | _ => throw (invalid_argument "Step must be a forall formula")
    end.

(** The lambda registered as "ASSUMPTION" captures [this] and reads the
    assumption vector of the proof at the time of the call. *)
Fixpoint assumption_lookup (assumptions : list FormulaPtr) (claimed : FormulaPtr)
  : result FormulaPtr :=
  match assumptions with
  | [] =>
      let* sc := FormulaPtr_to_string claimed in
      throw (invalid_argument ("Invalid assumption: " +:+ sc))
  | a :: rest =>
      let* same := same_text (FormulaPtr_to_string a) (FormulaPtr_to_string claimed) in
      if same then Ok claimed else assumption_lookup rest claimed
  end.

(** A [LineRule] is a [std::function] over the dependency formulas and the
    claim.  The only state a rule of the sources captures is the assumption
    vector of the proof it is registered in, so the embedding passes that
    vector as a first argument. *)
Definition LineRule : Type :=
  list FormulaPtr -> list FormulaPtr -> FormulaPtr -> result FormulaPtr.

Definition free_rule (r : list FormulaPtr -> FormulaPtr -> result FormulaPtr) : LineRule :=
  fun _ inputs claimed => r inputs claimed.

Definition assumption_closure : LineRule :=
  fun assumptions _ claimed => assumption_lookup assumptions claimed.

(** ** The [Proof] class *)

Record ProofLine : Type := mkProofLine {
  statement : FormulaPtr;
  justification : string;
  dependencies : list Z
}.

(** The data members of [Proof].  [target_rules] is declared in the header
    but no member function of the sources reads or writes it, so it is left
    out. *)
Record Proof : Type := mkProof {
  lines : list ProofLine;
  assumptions : list FormulaPtr;
  targets : list FormulaPtr;
  active_target_idx : nat;
  target_history : list (list FormulaPtr);
  rules : gmap string LineRule
}.

Definition set_lines (x : list ProofLine) (p : Proof) : Proof :=
  mkProof x (assumptions p) (targets p) (active_target_idx p) (target_history p) (rules p).
Definition set_assumptions (x : list FormulaPtr) (p : Proof) : Proof :=
  mkProof (lines p) x (targets p) (active_target_idx p) (target_history p) (rules p).
Definition set_targets (x : list FormulaPtr) (p : Proof) : Proof :=
  mkProof (lines p) (assumptions p) x (active_target_idx p) (target_history p) (rules p).
Definition set_active_target_idx (x : nat) (p : Proof) : Proof :=
  mkProof (lines p) (assumptions p) (targets p) x (target_history p) (rules p).
Definition set_target_history (x : list (list FormulaPtr)) (p : Proof) : Proof :=
  mkProof (lines p) (assumptions p) (targets p) (active_target_idx p) x (rules p).
Definition set_rules (x : gmap string LineRule) (p : Proof) : Proof :=
  mkProof (lines p) (assumptions p) (targets p) (active_target_idx p) (target_history p) x.

(** A member function: it runs on the object's state and hands back the
    state it leaves behind, whether it returns or fails. *)
Definition method (A : Type) : Type := Proof -> result A * Proof.

Definition retM {A : Type} (a : A) : method A := fun p => (Ok a, p).
Definition bindM {A B : Type} (m : method A) (k : A -> method B) : method B :=
  fun p =>
    match m p with
    | (Ok a, p') => k a p'
    | (Fail f, p') => (Fail f, p')
    end.
Definition liftM {A : Type} (r : result A) : method A := fun p => (r, p).
Definition this : method Proof := fun p => (Ok p, p).
Definition update (f : Proof -> Proof) : method unit := fun p => (Ok tt, f p).

Notation "'do' x '<-' m ';' k" := (bindM m (fun x => k))
  (at level 10, x name, m at level 100, k at level 200).
Notation "'run' m ';' k" := (bindM m (fun _ => k))
  (at level 10, m at level 100, k at level 200).

Definition push_back {A : Type} (v : list A) (x : A) : list A := v ++ [x].

(** [register_rule]: [rules[name] = rule]. *)
Definition register_rule (name : string) (rule : LineRule) : method unit :=
  update (fun p => set_rules (<[name := rule]> (rules p)) p).

(** The constructor [Proof(assumptions, target)]. *)
Definition Proof_new (assumptions : list FormulaPtr) (target : FormulaPtr) : Proof :=
  let p0 := mkProof [] assumptions [target] 0 [] ∅ in
  let p1 := snd (register_rule "ASSUMPTION" assumption_closure p0) in
  let p2 := snd (register_rule "FORALL" (free_rule forall_rule) p1) in
  let p3 := snd (register_rule "EQ" (free_rule eq_rule) p2) in
  snd (register_rule "AND" (free_rule and_rule) p3).

(** The loop that gathers the dependency statements. *)
Definition dependency_statement (lines : list ProofLine) (idx : Z) : result FormulaPtr :=
  if (idx <? 0)%Z || (idx >=? Z.of_nat (length lines))%Z then
    throw (invalid_argument "Invalid dependency index")
  else
    let* line := vec_at lines (Z.to_nat idx) in
    Ok (statement line).

(** The scan [for (i = 0; i < targets.size(); ++i)] for the first target
    whose text is the text of the claim; [i] is the index of the head of
    [ts] in the target vector. *)
Fixpoint find_completed_target (ts : list FormulaPtr) (claimed : FormulaPtr) (i : nat)
  : result (option nat) :=
  match ts with
  | [] => Ok None
  | t :: rest =>
      let* same := same_text (FormulaPtr_to_string t) (FormulaPtr_to_string claimed) in
      if same then Ok (Some i) else find_completed_target rest claimed (S i)
  end.

(** [rules.count(rule_name)] followed by [rules[rule_name]]. *)
Definition find_rule (rules : gmap string LineRule) (rule_name : string) : result LineRule :=
  match rules !! rule_name with
  | Some r => Ok r
  | None => throw (invalid_argument ("Unknown rule: " +:+ rule_name))
  end.

Definition add_line_to_proof (claimed : FormulaPtr) (rule_name : string) (deps : list Z)
  : method unit :=
  do p <- this;
  (* Check the rule exists *)
  do rule <- liftM (find_rule (rules p) rule_name);
  (* Gather dependency statements *)
  do dep_statements <- liftM (mapR (dependency_statement (lines p)) deps);
  (* Apply the rule to derive the formula *)
  do derived <- liftM (rule (assumptions p) dep_statements claimed);
  (* Check claimed formula matches derived *)
  do sd <- liftM (FormulaPtr_to_string derived);
  do sc <- liftM (FormulaPtr_to_string claimed);
  if negb (String.eqb sd sc) then
    liftM (throw (invalid_argument
                    ("Claimed statement " +:+ sc +:+ " does not match derived " +:+ sd)))
  else
    (* Add the line to the proof *)
    run update (fun p => set_lines (push_back (lines p) (mkProofLine claimed rule_name deps)) p);
    (* Check if this line completes any targets *)
    do p <- this;
    do found <- liftM (find_completed_target (targets p) claimed 0);
    match found with
    | Some i =>
        run update (fun p => set_targets (delete i (targets p)) p);
        do p <- this;
        if (i <=? active_target_idx p)%nat && (0 <? active_target_idx p)%nat then
          update (set_active_target_idx (active_target_idx p - 1))
        else retM tt
    | None => retM tt
    end.

Definition instantiate_forall (requested_variable : option TermPtr) : method unit :=
  do p <- this;
  (* Ensure there is an active goal *)
  if (length (targets p) =? 0)%nat then
    liftM (throw (invalid_argument "No active goals to instantiate"))
  else
    do current_goal <- liftM (vec_at (targets p) (active_target_idx p));
    do goal <- liftM (data current_goal);
    match goal with
    | ForallFormula v domain inner =>
        (* Determine which variable to instantiate *)
        let arbitrary_variable :=
          match requested_variable with
          | Some w => w
          | None => make_variable v
          end in
        (* Add assumption that variable belongs to ℕ *)
        let N := make_constant "ℕ" in
        let membership_assumption := make_rel "∈" [arbitrary_variable; N] in
        run update (fun p => set_assumptions (push_back (assumptions p) membership_assumption) p);
        (* Substitute var → chosen variable in the forall body *)
        let bound_var := make_variable v in
        do new_goal <- liftM (substitute_in_formula inner bound_var arbitrary_variable);
        (* Push old targets to history *)
        run update (fun p => set_target_history (push_back (target_history p) (targets p)) p);
        (* Update active goal with instantiated formula *)
        update (fun p => set_targets (<[active_target_idx p := new_goal]> (targets p)) p)
    | _ =>
        liftM (throw (invalid_argument
                        "instantiate_forall: active goal is not a forall formula"))
    end.

Definition instantiate_implication : method unit :=
  do p <- this;
  if (length (targets p) =? 0)%nat then
    liftM (throw (invalid_argument "No active goals to instantiate"))
  else
    do current_goal <- liftM (vec_at (targets p) (active_target_idx p));
    do goal <- liftM (data current_goal);
    match goal with
    | ImpliesFormula l r =>
        (* Add the antecedent A to assumptions *)
        run update (fun p => set_assumptions (push_back (assumptions p) l) p);
        (* Save old targets to history for backtracking *)
        run update (fun p => set_target_history (push_back (target_history p) (targets p)) p);
        (* Update active goal to the consequent B *)
        update (fun p => set_targets (<[active_target_idx p := r]> (targets p)) p)
    | _ =>
        liftM (throw (invalid_argument
                        "instantiate_implication: active goal is not an implication formula"))
    end.

Definition get_active_target : method FormulaPtr :=
  do p <- this;
  if (length (targets p) <=? active_target_idx p)%nat then
    liftM (throw (logic_error "Active goal index out of range"))
  else liftM (vec_at (targets p) (active_target_idx p)).

Definition instantiate_induction : method unit :=
  do current_goal <- get_active_target;
  do goal <- liftM (data current_goal);
  match goal with
  | ForallFormula var domain Pn =>
      (* Base case: P(0) *)
      let zero_term := make_constant "0" in
      let var_term := make_variable var in
      do P0 <- liftM (substitute_in_formula Pn var_term zero_term);
      (* Step case: ∀k (P(k) → P(k+1)) *)
      let k_term := make_variable "k" in
      let succ_term := make_function "+" [k_term; make_constant "1"] in
      do Pk <- liftM (substitute_in_formula Pn var_term k_term);
      do Psucc <- liftM (substitute_in_formula Pn var_term succ_term);
      let step_impl := make_implies Pk Psucc in
      let natural_numbers := make_constant "ℕ" in
      let step_forall := make_forall "k" natural_numbers step_impl in
      (* Update goal history and replace active goal *)
      run update (fun p => set_target_history (push_back (target_history p) (targets p)) p);
      run update (fun p => set_targets (<[active_target_idx p := P0]> (targets p)) p);
      (* Add the step case as a new goal *)
      update (fun p => set_targets (push_back (targets p) step_forall) p)
  | _ =>
      liftM (throw (invalid_argument
                      "instantiate_induction: active goal is not a forall formula"))
  end.

Definition rewrite_target_using_equality (equality_proof_line : Z) : method unit :=
  do p <- this;
  if (length (targets p) =? 0)%nat then
    liftM (throw (invalid_argument "No active goals to rewrite"))
  else if (equality_proof_line <? 0)%Z
          || (equality_proof_line >=? Z.of_nat (length (lines p)))%Z then
    liftM (throw (invalid_argument "Invalid equality line index"))
  else
    do line <- liftM (vec_at (lines p) (Z.to_nat equality_proof_line));
    do equality_formula <- liftM (data (statement line));
    match equality_formula with
    | EqualityFormula lhs rhs =>
        let term_to_substitute := lhs in
        do current_goal <- liftM (vec_at (targets p) (active_target_idx p));
        do new_goal <- liftM (substitute_term_in_formula current_goal term_to_substitute rhs);
        (* Save old targets to history for backtracking *)
        run update (fun p => set_target_history (push_back (target_history p) (targets p)) p);
        update (fun p => set_targets (<[active_target_idx p := new_goal]> (targets p)) p)
    | _ => liftM (throw (invalid_argument "Selected line is not an equality"))
    end.

Definition is_valid (p : Proof) : bool := (length (targets p) =? 0)%nat.

(** ** Sessions: sequences of calls on one [Proof] object *)

(** The member functions a client can call.  [is_valid] and [print] are
    [const] and only read the object; [register_modification_rule] is
    declared but has no definition in the sources. *)
Inductive call : Type :=
| call_register_rule (name : string) (rule : LineRule)
| call_get_active_target
| call_add_line_to_proof (claimed : FormulaPtr) (rule_name : string) (deps : list Z)
| call_instantiate_forall (requested_variable : option TermPtr)
| call_instantiate_implication
| call_instantiate_induction
| call_rewrite_target_using_equality (equality_proof_line : Z).

Definition perform (c : call) : method unit :=
  match c with
  | call_register_rule name rule => register_rule name rule
  | call_get_active_target => run get_active_target; retM tt
  | call_add_line_to_proof claimed rule_name deps => add_line_to_proof claimed rule_name deps
  | call_instantiate_forall w => instantiate_forall w
  | call_instantiate_implication => instantiate_implication
  | call_instantiate_induction => instantiate_induction
  | call_rewrite_target_using_equality i => rewrite_target_using_equality i
  end.

Definition is_tactic (c : call) : bool :=
  match c with
  | call_instantiate_forall _
  | call_instantiate_implication
  | call_instantiate_induction
  | call_rewrite_target_using_equality _ => true
  | _ => false
  end.

(** The caller catches exceptions and goes on with the object as the failed
    call left it; undefined behaviour ends the session. *)
Fixpoint session (cs : list call) (p : Proof) : Proof :=
  match cs with
  | [] => p
  | c :: rest =>
      match perform c p with
      | (Ok _, p') => session rest p'
      | (Fail (Throw _), p') => session rest p'
      | (Fail Undefined, p') => p'
      end
  end.

(** The number of tactic calls of a session that returned normally. *)
Fixpoint successful_tactics (cs : list call) (p : Proof) : nat :=
  match cs with
  | [] => 0
  | c :: rest =>
      match perform c p with
      | (Ok _, p') => (if is_tactic c then 1 else 0) + successful_tactics rest p'
      | (Fail (Throw _), p') => successful_tactics rest p'
      | (Fail Undefined, _) => 0
      end
  end.

(** What one call does to the history: a tactic that returns pushes the
    target vector it started from; every other call, and every call that
    fails, leaves the stack alone. *)
Definition pushed (c : call) (p : Proof) : list (list FormulaPtr) :=
  if is_tactic c && is_Ok (fst (perform c p)) then [targets p] else [].

(** The snapshots a session must leave on the history stack: for every tactic
    call that returned normally, the target vector of the object the call
    was made on. *)
Fixpoint snapshots (cs : list call) (p : Proof) : list (list FormulaPtr) :=
  match cs with
  | [] => []
  | c :: rest =>
      match perform c p with
      | (Ok _, p') => (if is_tactic c then [targets p] else []) ++ snapshots rest p'
      | (Fail (Throw _), p') => snapshots rest p'
      | (Fail Undefined, _) => []
      end
  end.

(** ** Trees without null pointers

    Every tree built with the [make_*] functions from non-null children has
    no null pointer inside; these are the trees the rendering function is
    defined on. *)

Fixpoint Term_no_null (t : Term) : bool :=
  let ptr (p : TermPtr) : bool :=
    match p with
    | Some u => Term_no_null u
    | None => false
    end in
  match t with
  | VariableTerm _ | ConstantTerm _ => true
  | FunctionTerm _ args | TupleTerm args => forallb ptr args
  end.

Definition TermPtr_no_null (p : TermPtr) : bool :=
  match p with
  | Some t => Term_no_null t
  | None => false
  end.

Fixpoint Formula_no_null (phi : Formula) : bool :=
  let ptr (p : FormulaPtr) : bool :=
    match p with
    | Some psi => Formula_no_null psi
    | None => false
    end in
  match phi with
  | EqualityFormula l r => TermPtr_no_null l && TermPtr_no_null r
  | RelationFormula _ args => forallb TermPtr_no_null args
  | NotFormula inner => ptr inner
  | OrFormula l r | AndFormula l r | ImpliesFormula l r => ptr l && ptr r
  | ForallFormula _ domain inner | ExistsFormula _ domain inner =>
      TermPtr_no_null domain && ptr inner
  end.

Definition FormulaPtr_no_null (p : FormulaPtr) : bool :=
  match p with
  | Some phi => Formula_no_null phi
  | None => false
  end.

(** ** Formulas of the demonstration driver *)

Module Demo.

Definition x : TermPtr := make_variable "x".
Definition y : TermPtr := make_variable "y".
Definition two : TermPtr := make_constant "2".
Definition five : TermPtr := make_constant "5".
Definition X : TermPtr := make_constant "X".
Definition v1 : TermPtr := make_variable "v1".
Definition zero : TermPtr := make_constant "0".

(** [x = 2] as an equality and as a relation named "=". *)
Definition x_eq_2 : FormulaPtr := make_eq x two.
Definition x_rel_2 : FormulaPtr := make_rel "=" [x; two].

(** [forall x in X, x = 5], and [y in X] with the constant [X] and with a
    variable that is only spelled the same. *)
Definition x_eq_5 : FormulaPtr := make_eq x five.
Definition y_eq_5 : FormulaPtr := make_eq y five.
Definition forall_x_eq_5 : FormulaPtr := make_forall "x" X x_eq_5.
Definition y_in_X : FormulaPtr := make_rel "∈" [y; X].
Definition y_in_var_X : FormulaPtr := make_rel "∈" [y; make_variable "X"].

(** [P(x) -> Q(x)] and [not P(x) -> Q(x)]. *)
Definition Px : FormulaPtr := make_rel "P" [x].
Definition not_Px : FormulaPtr := make_not Px.
Definition Qx : FormulaPtr := make_rel "Q" [x].
Definition imp1 : FormulaPtr := make_implies Px Qx.
Definition imp2 : FormulaPtr := make_implies not_Px Qx.

(** The driver's inductive proof of [forall n, sum(n) = n] by goal tactics. *)
Definition natural_numbers : TermPtr := make_constant "ℕ".
Definition n : TermPtr := make_variable "n".
Definition k : TermPtr := make_variable "k".
Definition one : TermPtr := make_constant "1".
Definition sum_fn (t : TermPtr) : TermPtr := make_function "sum" [t].
Definition k_plus_1 : TermPtr := make_function "+" [k; one].
Definition sum_axiom_base : FormulaPtr := make_eq (sum_fn zero) zero.
Definition recursive_axiom_inner : FormulaPtr :=
  make_eq (sum_fn k_plus_1) (make_function "+" [sum_fn k; one]).
Definition sum_axiom_recursive : FormulaPtr := make_forall "k" natural_numbers recursive_axiom_inner.
Definition step : FormulaPtr :=
  make_forall "k" natural_numbers
    (make_implies (make_eq (sum_fn k) k) (make_eq (sum_fn k_plus_1) k_plus_1)).
Definition sum_target : FormulaPtr := make_forall "n" natural_numbers (make_eq (sum_fn n) n).

Definition induction_by_tactics : list call :=
  [ call_instantiate_induction;
    call_add_line_to_proof sum_axiom_base "ASSUMPTION" [];
    call_add_line_to_proof sum_axiom_recursive "ASSUMPTION" [];
    call_instantiate_forall None;
    call_add_line_to_proof (make_rel "∈" [k; natural_numbers]) "ASSUMPTION" [];
    call_instantiate_implication;
    call_add_line_to_proof recursive_axiom_inner "FORALL" [1%Z; 2%Z];
    call_rewrite_target_using_equality 3;
    call_add_line_to_proof (make_eq (sum_fn k) k) "ASSUMPTION" [];
    call_rewrite_target_using_equality 4;
    call_add_line_to_proof (make_eq k_plus_1 k_plus_1) "EQ" [] ].

Definition induction_by_rule : list call :=
  [ call_register_rule "INDUCTION" (free_rule induction_rule);
    call_add_line_to_proof sum_axiom_base "ASSUMPTION" [];
    call_add_line_to_proof sum_axiom_recursive "ASSUMPTION" [];
    call_add_line_to_proof step "ASSUMPTION" [];
    call_add_line_to_proof sum_target "INDUCTION" [0%Z; 2%Z] ].

Definition cases_proof : list call :=
  [ call_register_rule "CASES" (free_rule cases_rule);
    call_add_line_to_proof imp1 "ASSUMPTION" [];
    call_add_line_to_proof imp2 "ASSUMPTION" [];
    call_add_line_to_proof Qx "CASES" [0%Z; 1%Z] ].

Definition excluded_middle_proof : list call :=
  [ call_register_rule "LEM" (free_rule excluded_middle_rule);
    call_add_line_to_proof (make_or Px not_Px) "LEM" [] ].

End Demo.

(** ** Variable analysis *)

(** [occurs_in_term(v, t)]. *)
Fixpoint occurs_in_term_at (v : string) (t : Term) : bool :=
  let ptr (p : TermPtr) : bool :=
    match p with
    | Some u => occurs_in_term_at v u
    | None => false
    end in
  match t with
  | VariableTerm var => String.eqb var v
  | ConstantTerm _ => false
  | FunctionTerm _ args => existsb ptr args
  | TupleTerm args => existsb ptr args
  end.

Definition occurs_in_term (v : string) (t : TermPtr) : bool :=
  match t with
  | Some u => occurs_in_term_at v u
  | None => false
  end.

(** [is_free_in(v, f)]: the domain of a quantifier is not inspected. *)
Fixpoint is_free_in_at (v : string) (f : Formula) : bool :=
  let ptr (p : FormulaPtr) : bool :=
    match p with
    | Some g => is_free_in_at v g
    | None => false
    end in
  match f with
  | EqualityFormula l r => occurs_in_term v l || occurs_in_term v r
  | RelationFormula _ args => existsb (occurs_in_term v) args
  | NotFormula inner => ptr inner
  | OrFormula l r | AndFormula l r | ImpliesFormula l r => ptr l || ptr r
  | ForallFormula w _ inner | ExistsFormula w _ inner =>
      if String.eqb w v then false else ptr inner
  end.

Definition is_free_in (v : string) (f : FormulaPtr) : bool :=
  match f with
  | Some g => is_free_in_at v g
  | None => false
  end.

(** [collect_vars_in_term(t, vars)]: the [std::set] passed by reference is
    threaded through as a [gset]. *)
Fixpoint collect_vars_in_term_at (t : Term) (vars : gset string) : gset string :=
  let ptr (acc : gset string) (p : TermPtr) : gset string :=
    match p with
    | Some u => collect_vars_in_term_at u acc
    | None => acc
    end in
  match t with
  | VariableTerm var => {[var]} ∪ vars
  | ConstantTerm _ => vars
  | FunctionTerm _ args => foldl ptr vars args
  | TupleTerm args => foldl ptr vars args
  end.

Definition collect_vars_in_term (t : TermPtr) (vars : gset string) : gset string :=
  match t with
  | Some u => collect_vars_in_term_at u vars
  | None => vars
  end.

Fixpoint collect_vars_in_formula_at (f : Formula) (vars : gset string) : gset string :=
  let ptr (p : FormulaPtr) (acc : gset string) : gset string :=
    match p with
    | Some g => collect_vars_in_formula_at g acc
    | None => acc
    end in
  match f with
  | EqualityFormula l r => collect_vars_in_term r (collect_vars_in_term l vars)
  | RelationFormula _ args => foldl (fun acc arg => collect_vars_in_term arg acc) vars args
  | NotFormula inner => ptr inner vars
  | OrFormula l r | AndFormula l r | ImpliesFormula l r => ptr r (ptr l vars)
  | ForallFormula _ _ inner | ExistsFormula _ _ inner => ptr inner vars
  end.

Definition collect_vars_in_formula (f : FormulaPtr) (vars : gset string) : gset string :=
  match f with
  | Some g => collect_vars_in_formula_at g vars
  | None => vars
  end.

(** [is_sentence(f)]: no collected variable is free. *)
Definition is_sentence (f : FormulaPtr) : bool :=
  let vars := collect_vars_in_formula f ∅ in
  forallb (fun v => negb (is_free_in v f)) (elements vars).

(** [is_substitutable(phi, var, t)] on a non-null [phi].  The test
    [!var || !t] is repeated at every level; [std::get] is reached only at a
    quantifier. *)
Fixpoint is_substitutable_at (phi : Formula) (var t : TermPtr) : result bool :=
  let recur (p : FormulaPtr) : result bool :=
    match p with
    | Some psi => is_substitutable_at psi var t
    | None => Ok false
    end in
  let both (l r : FormulaPtr) : result bool :=
    let* safe_l := recur l in
    if safe_l then recur r else Ok false in
  let quantifier (y_name : string) (inner : FormulaPtr) (var_node : Term) : result bool :=
    match var_node with
    | VariableTerm x_name =>
        if negb (is_free_in_at x_name phi) then Ok true
        else if negb (occurs_in_term y_name t) then recur inner
        else Ok false
    | _ => throw bad_variant_access
    end in
  match var, t with
  | Some var_node, Some _ =>
      match phi with
      | EqualityFormula _ _ | RelationFormula _ _ => Ok true
      | NotFormula inner => recur inner
      | OrFormula l r | AndFormula l r | ImpliesFormula l r => both l r
      | ForallFormula y_name _ inner | ExistsFormula y_name _ inner =>
          quantifier y_name inner var_node
      end
  | _, _ => Ok false
  end.

Definition is_substitutable (phi : FormulaPtr) (var t : TermPtr) : result bool :=
  match phi with
  | Some psi => is_substitutable_at psi var t
  | None => Ok false
  end.

(** ** Well-formedness of formulas *)

Definition TermPtr_is_well_formed (p : TermPtr) (err : option string)
  : result (bool * option string) :=
  match p with
  | Some t => Term_is_well_formed t err
  | None => Fail Undefined
  end.

(** The loop [for (auto &a : args) if (!a->is_well_formed(err)) return false;]
    followed by [return true]. *)
Fixpoint args_are_well_formed (args : list TermPtr) (err : option string)
  : result (bool * option string) :=
  match args with
  | [] => Ok (true, err)
  | a :: rest =>
      let* r := TermPtr_is_well_formed a err in
      if negb (fst r) then Ok (false, snd r) else args_are_well_formed rest (snd r)
  end.

(** [Formula::is_well_formed(std::string *err)]; the domain of a quantifier
    is not checked. *)
Fixpoint Formula_is_well_formed (phi : Formula) (err : option string)
  : result (bool * option string) :=
  let deref (p : FormulaPtr) (err : option string) : result (bool * option string) :=
    match p with
    | Some psi => Formula_is_well_formed psi err
    | None => Fail Undefined
    end in
  let both (l r : FormulaPtr) : result (bool * option string) :=
    let* a := deref l err in
    if fst a then deref r (snd a) else Ok (false, snd a) in
  match phi with
  | EqualityFormula l r =>
      let* a := TermPtr_is_well_formed l err in
      if fst a then TermPtr_is_well_formed r (snd a) else Ok (false, snd a)
  | RelationFormula R args =>
      if negb (is_relation R (Z.of_nat (length args)))
      then Ok (false, set_err err "bad relation/arity")
      else args_are_well_formed args err
  | NotFormula inner => deref inner err
  | OrFormula l r | AndFormula l r | ImpliesFormula l r => both l r
  | ForallFormula v _ inner =>
      if negb (is_variable v) then Ok (false, set_err err "bad forall var")
      else deref inner err
  | ExistsFormula v _ inner =>
      if negb (is_variable v) then Ok (false, set_err err "bad exists var")
      else deref inner err
  end.

(** ** A goal-transforming rule kept outside the class *)

Definition implication_intro_rule (inputs : list FormulaPtr) (current_target : FormulaPtr)
  : result FormulaPtr :=
  let* target := data current_target in
  match target with
  | ImpliesFormula _ r => Ok r
  | _ => throw (invalid_argument "implication_intro: target is not an implication A -> B")
  end.

(** ** Plain trees

    A plain term is built from variables, constants and function
    applications only: no tuple and no null pointer.  A plain formula has
    plain terms in its atoms, null-free domains and no null subformula. *)

Fixpoint Term_plain (t : Term) : bool :=
  let ptr (p : TermPtr) : bool :=
    match p with
    | Some u => Term_plain u
    | None => false
    end in
  match t with
  | VariableTerm _ | ConstantTerm _ => true
  | FunctionTerm _ args => forallb ptr args
  | TupleTerm _ => false
  end.

Definition TermPtr_plain (p : TermPtr) : bool :=
  match p with
  | Some t => Term_plain t
  | None => false
  end.

Fixpoint Formula_plain (phi : Formula) : bool :=
  let ptr (p : FormulaPtr) : bool :=
    match p with
    | Some psi => Formula_plain psi
    | None => false
    end in
  match phi with
  | EqualityFormula l r => TermPtr_plain l && TermPtr_plain r
  | RelationFormula _ args => forallb TermPtr_plain args
  | NotFormula inner => ptr inner
  | OrFormula l r | AndFormula l r | ImpliesFormula l r => ptr l && ptr r
  | ForallFormula _ domain inner | ExistsFormula _ domain inner =>
      TermPtr_no_null domain && ptr inner
  end.

Definition FormulaPtr_plain (p : FormulaPtr) : bool :=
  match p with
  | Some phi => Formula_plain phi
  | None => false
  end.

(** A proof object none of whose assumptions and targets holds a null
    pointer. *)
Definition Proof_no_null (p : Proof) : bool :=
  forallb FormulaPtr_no_null (assumptions p) && forallb FormulaPtr_no_null (targets p).

(** ** A session that ends with two targets of the same text *)

Module Shadowed.

(** [body] is the relation named "(∀k ∈ ℕ)" applied to the variable [m];
    by induction on [forall n in ℕ, body] the step case is
    [forall k in ℕ, body -> body]. *)
Definition m : TermPtr := make_variable "m".
Definition body : FormulaPtr := make_rel "(∀k ∈ ℕ)" [m].
Definition goal : FormulaPtr := make_forall "n" (make_constant "ℕ") body.
Definition step : FormulaPtr :=
  make_forall "k" (make_constant "ℕ") (make_implies body body).

(** A constant spelled like the implication [body -> body], the equality
    that lets the base case be rewritten with it, and the rewritten base
    case: a relation that renders like [step]. *)
Definition spelled : TermPtr := make_constant "((∀k ∈ ℕ)(m) → (∀k ∈ ℕ)(m))".
Definition m_eq_spelled : FormulaPtr := make_eq m spelled.
Definition look_alike : FormulaPtr := make_rel "(∀k ∈ ℕ)" [spelled].

Definition start : Proof := Proof_new [m_eq_spelled; step] goal.

Definition calls : list call :=
  [ call_instantiate_induction;
    call_add_line_to_proof m_eq_spelled "ASSUMPTION" [];
    call_rewrite_target_using_equality 0 ].

End Shadowed.

(** ** Reference definitions for statements about substitution *)

(** What replacing every tuple node means: every node that renders as "?"
    (a tuple, or a variable or constant spelled "?") gives way to the
    replacement and every other node is rebuilt around its rewritten
    arguments.  This is a specification to compare
    [substitute_term_in_term] with, not a translation of it. *)
Fixpoint replace_tuple_nodes (u : Term) (replacement : TermPtr) : TermPtr :=
  let ptr (p : TermPtr) : TermPtr :=
    match p with
    | Some a => replace_tuple_nodes a replacement
    | None => None
    end in
  match u with
  | TupleTerm _ => replacement
  | VariableTerm var => if String.eqb var "?" then replacement else make_variable var
  | ConstantTerm c => if String.eqb c "?" then replacement else make_constant c
  | FunctionTerm f args => make_function f (map ptr args)
  end.

(** The number of occurrences of the variable [z] in a term, and the number
    of its free occurrences in a formula (the domain of a quantifier is not
    counted, as [is_free_in] does not look at it).  These are measures used
    to state that a substitution captures nothing. *)
Fixpoint occurrences_at (z : string) (t : Term) : nat :=
  let ptr (p : TermPtr) : nat :=
    match p with
    | Some u => occurrences_at z u
    | None => 0
    end in
  match t with
  | VariableTerm var => if String.eqb var z then 1 else 0
  | ConstantTerm _ => 0
  | FunctionTerm _ args => sum_list_with ptr args
  | TupleTerm args => sum_list_with ptr args
  end.

Definition occurrences (z : string) (t : TermPtr) : nat :=
  match t with
  | Some u => occurrences_at z u
  | None => 0
  end.

Fixpoint free_occurrences_at (z : string) (f : Formula) : nat :=
  let ptr (p : FormulaPtr) : nat :=
    match p with
    | Some g => free_occurrences_at z g
    | None => 0
    end in
  match f with
  | EqualityFormula l r => occurrences z l + occurrences z r
  | RelationFormula _ args => sum_list_with (occurrences z) args
  | NotFormula inner => ptr inner
  | OrFormula l r | AndFormula l r | ImpliesFormula l r => ptr l + ptr r
  | ForallFormula w _ inner | ExistsFormula w _ inner =>
      if String.eqb w z then 0 else ptr inner
  end.

Definition free_occurrences (z : string) (f : FormulaPtr) : nat :=
  match f with
  | Some g => free_occurrences_at z g
  | None => 0
  end.

(** * Properties *)

(** ** Induction over trees with shared-pointer children *)

Section Term_nested_induction.
Variable P : Term -> Prop.
Hypothesis P_variable : forall var, P (VariableTerm var).
Hypothesis P_constant : forall c, P (ConstantTerm c).
Hypothesis P_function :
  forall f args, Forall (from_option P True) args -> P (FunctionTerm f args).
Hypothesis P_tuple :
  forall args, Forall (from_option P True) args -> P (TupleTerm args).

Fixpoint Term_nested_ind (t : Term) : P t :=
  let children :=
    fix children (l : list TermPtr) : Forall (from_option P True) l :=
      match l with
      | [] => @List.Forall_nil _ _
      | a :: l' =>
          @List.Forall_cons _ _ a l'
            (match a return from_option P True a with
             | Some u => Term_nested_ind u
             | None => I
             end)
            (children l')
      end in
  match t with
  | VariableTerm var => P_variable var
  | ConstantTerm c => P_constant c
  | FunctionTerm f args => P_function f args (children args)
  | TupleTerm args => P_tuple args (children args)
  end.
End Term_nested_induction.

Section Formula_nested_induction.
Variable P : Formula -> Prop.
Let Q (p : FormulaPtr) : Prop := from_option P True p.
Hypothesis P_eq : forall l r, P (EqualityFormula l r).
Hypothesis P_rel : forall R args, P (RelationFormula R args).
Hypothesis P_not : forall inner, Q inner -> P (NotFormula inner).
Hypothesis P_or : forall l r, Q l -> Q r -> P (OrFormula l r).
Hypothesis P_and : forall l r, Q l -> Q r -> P (AndFormula l r).
Hypothesis P_implies : forall l r, Q l -> Q r -> P (ImpliesFormula l r).
Hypothesis P_forall : forall v domain inner, Q inner -> P (ForallFormula v domain inner).
Hypothesis P_exists : forall v domain inner, Q inner -> P (ExistsFormula v domain inner).

Fixpoint Formula_nested_ind (phi : Formula) : P phi :=
  let child (p : FormulaPtr) : Q p :=
    match p return Q p with
    | Some psi => Formula_nested_ind psi
    | None => I
    end in
  match phi with
  | EqualityFormula l r => P_eq l r
  | RelationFormula R args => P_rel R args
  | NotFormula inner => P_not inner (child inner)
  | OrFormula l r => P_or l r (child l) (child r)
  | AndFormula l r => P_and l r (child l) (child r)
  | ImpliesFormula l r => P_implies l r (child l) (child r)
  | ForallFormula v domain inner => P_forall v domain inner (child inner)
  | ExistsFormula v domain inner => P_exists v domain inner (child inner)
  end.
End Formula_nested_induction.

(** ** The result monad and the argument loop *)

Lemma bindR_Ok {A B : Type} (m : result A) (k : A -> result B) (b : B) :
  bindR m k = Ok b -> exists a, m = Ok a /\ k a = Ok b.
Proof. destruct m as [a|f]; simpl; [eauto | discriminate]. Qed.

Lemma bindR_Fail {A B : Type} (m : result A) (k : A -> result B) (f : failure) :
  bindR m k = Fail f -> m = Fail f \/ exists a, m = Ok a /\ k a = Fail f.
Proof. destruct m as [a|g]; simpl; [eauto | left; congruence]. Qed.

Lemma mapR_Ok_Forall {A B : Type} (f : A -> result B) (l : list A) :
  Forall (fun x => exists y, f x = Ok y) l -> exists ys, mapR f l = Ok ys.
Proof.
  induction 1 as [|x l [y Hy] _ [ys Hys]]; simpl.
  - eauto.
  - rewrite Hy, Hys. simpl. eauto.
Qed.

Lemma mapR_Fail_Forall {A B : Type} (f : A -> result B) (l : list A) (P : failure -> Prop) :
  Forall (fun x => forall e, f x = Fail e -> P e) l ->
  forall e, mapR f l = Fail e -> P e.
Proof.
  induction 1 as [|x l Hx _ IH]; simpl; intros e He; [discriminate|].
  destruct (f x) as [y|e'] eqn:Hfx; simpl in He.
  - destruct (mapR f l) as [ys|e'']; simpl in He; [discriminate|].
    apply IH. congruence.
  - apply Hx. congruence.
Qed.

(** A step of a rendering that fails: the failure comes from a sub-rendering. *)
Ltac fail_step H :=
  apply bindR_Fail in H as [H|(? & _ & H)]; [|try discriminate].

(** Case analysis along the control flow of a member function. *)
Ltac history_cases :=
  repeat match goal with
    | |- context [match ?x with _ => _ end] => destruct x eqn:?; simpl
    | |- context [if ?x then _ else _] => destruct x eqn:?; simpl
    end;
  rewrite ?app_nil_r; try reflexivity.

Lemma forallb_true_Forall {A : Type} (f : A -> bool) (l : list A) :
  forallb f l = true -> Forall (fun x => f x = true) l.
Proof.
  induction l as [|x l IH]; simpl; intros H; constructor.
  - apply andb_prop in H. tauto.
  - apply IH. apply andb_prop in H. tauto.
Qed.

Lemma Forall_and_pair {A : Type} (P Q : A -> Prop) (l : list A) :
  Forall P l -> Forall Q l -> Forall (fun x => P x /\ Q x) l.
Proof. induction 1; inversion 1; subst; constructor; auto. Qed.

(** ** Rendering: when it is defined and how it can fail *)


Lemma Term_to_string_function (f : string) (args : list TermPtr) :
  Term_to_string (FunctionTerm f args) =
  let prefix_form :=
    let* ss := mapR TermPtr_to_string args in
    Ok (f +:+ "(" +:+ comma_separated ss +:+ ")") in
  match args with
  | [a0; a1] =>
      if count infix_operators f then
        let* s0 := TermPtr_to_string a0 in
        let* s1 := TermPtr_to_string a1 in
        Ok ("(" +:+ s0 +:+ " " +:+ f +:+ " " +:+ s1 +:+ ")")
      else prefix_form
  | _ => prefix_form
  end.
Proof. destruct args as [|a0 [|a1 [|a2 l]]]; reflexivity. Qed.

Lemma Term_to_string_tuple (args : list TermPtr) :
  Term_to_string (TupleTerm args) =
  let* ss := mapR TermPtr_to_string args in Ok "?".
Proof. reflexivity. Qed.

Lemma Term_to_string_Fail (t : Term) (e : failure) :
  Term_to_string t = Fail e -> e = Undefined.
Proof.
  revert e. induction t as [var|c|f args IH|args IH] using Term_nested_ind; intros e.
  - discriminate.
  - discriminate.
  - assert (Hargs : forall e', mapR TermPtr_to_string args = Fail e' -> e' = Undefined).
    { apply mapR_Fail_Forall. eapply Forall_impl; [exact IH|].
      intros [u|] Hu e' He'; simpl in *; [eauto | congruence]. }
    rewrite Term_to_string_function.
    destruct args as [|a0 [|a1 [|a2 l]]]; cbv zeta;
      try (intros H; apply bindR_Fail in H as [H|(ss & _ & H)];
           [eauto | discriminate]).
    destruct (count infix_operators f).
    + inversion IH as [|? ? H0 IH']; subst. inversion IH' as [|? ? H1 _]; subst.
      intros H. apply bindR_Fail in H as [H|(s0 & _ & H)].
      * destruct a0; simpl in *; [eauto | congruence].
      * apply bindR_Fail in H as [H|(s1 & _ & H)]; [|discriminate].
        destruct a1; simpl in *; [eauto | congruence].
    + intros H; apply bindR_Fail in H as [H|(ss & _ & H)]; [eauto | discriminate].
  - rewrite Term_to_string_tuple. intros H.
    apply bindR_Fail in H as [H|(ss & _ & H)]; [|discriminate].
    revert e H. apply mapR_Fail_Forall. eapply Forall_impl; [exact IH|].
    intros [u|] Hu e' He'; simpl in *; [eauto | congruence].
Qed.

Lemma TermPtr_to_string_Fail (p : TermPtr) (e : failure) :
  TermPtr_to_string p = Fail e -> e = Undefined.
Proof. destruct p; simpl; [apply Term_to_string_Fail | congruence]. Qed.

Lemma Term_no_null_renders (t : Term) :
  Term_no_null t = true -> exists s, Term_to_string t = Ok s.
Proof.
  induction t as [var|c|f args IH|args IH] using Term_nested_ind; intros Hnn.
  - simpl; eauto.
  - simpl; eauto.
  - assert (Hargs : Forall (fun a => exists s, TermPtr_to_string a = Ok s) args).
    { simpl in Hnn. apply forallb_true_Forall in Hnn.
      eapply Forall_impl; [exact (Forall_and_pair _ _ _ IH Hnn)|].
      intros [u|] [Hu Hb]; simpl in *; [eauto | discriminate]. }
    rewrite Term_to_string_function.
    destruct (mapR_Ok_Forall _ _ Hargs) as [ss Hss].
    destruct args as [|a0 [|a1 [|a2 l]]]; cbv zeta; try solve [rewrite Hss; simpl; eauto].
    destruct (count infix_operators f); [|rewrite Hss; simpl; eauto].
    inversion Hargs as [|? ? [s0 H0] Hargs']; subst.
    inversion Hargs' as [|? ? [s1 H1] _]; subst.
    rewrite H0, H1. simpl. eauto.
  - assert (Hargs : Forall (fun a => exists s, TermPtr_to_string a = Ok s) args).
    { simpl in Hnn. apply forallb_true_Forall in Hnn.
      eapply Forall_impl; [exact (Forall_and_pair _ _ _ IH Hnn)|].
      intros [u|] [Hu Hb]; simpl in *; [eauto | discriminate]. }
    rewrite Term_to_string_tuple.
    destruct (mapR_Ok_Forall _ _ Hargs) as [ss Hss]. rewrite Hss. simpl. eauto.
Qed.

Lemma TermPtr_no_null_renders (p : TermPtr) :
  TermPtr_no_null p = true -> exists s, TermPtr_to_string p = Ok s.
Proof. destruct p; simpl; [apply Term_no_null_renders | discriminate]. Qed.

Lemma TermPtrs_no_null_render (args : list TermPtr) :
  forallb TermPtr_no_null args = true -> exists ss, mapR TermPtr_to_string args = Ok ss.
Proof.
  intros H. apply mapR_Ok_Forall. apply forallb_true_Forall in H.
  eapply Forall_impl; [exact H|]. intros a Ha.
  apply TermPtr_no_null_renders, Ha.
Qed.

Lemma Formula_to_string_relation (R : string) (args : list TermPtr) :
  Formula_to_string (RelationFormula R args) =
  let prefix_form :=
    let* ss := mapR TermPtr_to_string args in
    Ok (R +:+ "(" +:+ comma_separated ss +:+ ")") in
  match args with
  | [a0; a1] =>
      if count infix_relations R then
        let* s0 := TermPtr_to_string a0 in
        let* s1 := TermPtr_to_string a1 in
        Ok ("(" +:+ s0 +:+ " " +:+ R +:+ " " +:+ s1 +:+ ")")
      else prefix_form
  | _ => prefix_form
  end.
Proof. destruct args as [|a0 [|a1 [|a2 l]]]; reflexivity. Qed.

Lemma Formula_to_string_not (inner : FormulaPtr) :
  Formula_to_string (NotFormula inner) =
  let* s := FormulaPtr_to_string inner in Ok ("(¬" +:+ s +:+ ")").
Proof. reflexivity. Qed.

Lemma Formula_to_string_Fail (phi : Formula) (e : failure) :
  Formula_to_string phi = Fail e -> e = Undefined.
Proof.
  assert (Hptr : forall (p : FormulaPtr),
             from_option (fun psi => forall e, Formula_to_string psi = Fail e -> e = Undefined)
               True p ->
             forall e, FormulaPtr_to_string p = Fail e -> e = Undefined).
  { intros [psi|] Hp e' He'; simpl in *; [eauto | congruence]. }
  revert e.
  induction phi as [l r|R args|inner IH|l r IHl IHr|l r IHl IHr|l r IHl IHr
                   |v domain inner IH|v domain inner IH] using Formula_nested_ind;
    intros e H.
  - simpl in H. fail_step H; [eapply TermPtr_to_string_Fail; eauto|].
    fail_step H. eapply TermPtr_to_string_Fail; eauto.
  - assert (Hargs : forall e', mapR TermPtr_to_string args = Fail e' -> e' = Undefined).
    { apply mapR_Fail_Forall. apply Forall_forall. intros a _ e'.
      apply TermPtr_to_string_Fail. }
    rewrite Formula_to_string_relation in H.
    destruct args as [|a0 [|a1 [|a2 l]]]; cbv zeta in H;
      try solve [fail_step H; eauto].
    destruct (count infix_relations R); [|fail_step H; eauto].
    fail_step H; [eapply TermPtr_to_string_Fail; eauto|].
    fail_step H. eapply TermPtr_to_string_Fail; eauto.
  - rewrite Formula_to_string_not in H. fail_step H. eauto.
  - change (bindR (FormulaPtr_to_string l) (fun sl =>
            bindR (FormulaPtr_to_string r) (fun sr =>
            Ok ("(" +:+ sl +:+ " ∨ " +:+ sr +:+ ")"))) = Fail e) in H.
    fail_step H; [eauto|]. fail_step H. eauto.
  - change (bindR (FormulaPtr_to_string l) (fun sl =>
            bindR (FormulaPtr_to_string r) (fun sr =>
            Ok ("(" +:+ sl +:+ " ∧ " +:+ sr +:+ ")"))) = Fail e) in H.
    fail_step H; [eauto|]. fail_step H. eauto.
  - change (bindR (FormulaPtr_to_string l) (fun sl =>
            bindR (FormulaPtr_to_string r) (fun sr =>
            Ok ("(" +:+ sl +:+ " → " +:+ sr +:+ ")"))) = Fail e) in H.
    fail_step H; [eauto|]. fail_step H. eauto.
  - change (bindR (TermPtr_to_string domain) (fun sd =>
            bindR (FormulaPtr_to_string inner) (fun si =>
            Ok ("(∀" +:+ v +:+ " ∈ " +:+ sd +:+ ")(" +:+ si +:+ ")"))) = Fail e) in H.
    fail_step H; [eapply TermPtr_to_string_Fail; eauto|]. fail_step H. eauto.
  - change (bindR (TermPtr_to_string domain) (fun sd =>
            bindR (FormulaPtr_to_string inner) (fun si =>
            Ok ("(∃" +:+ v +:+ " ∈ " +:+ sd +:+ ")(" +:+ si +:+ ")"))) = Fail e) in H.
    fail_step H; [eapply TermPtr_to_string_Fail; eauto|]. fail_step H. eauto.
Qed.

Lemma FormulaPtr_to_string_Fail (p : FormulaPtr) (e : failure) :
  FormulaPtr_to_string p = Fail e -> e = Undefined.
Proof. destruct p; simpl; [apply Formula_to_string_Fail | congruence]. Qed.

Lemma same_text_Fail (a b : result string) (e : failure) :
  (forall e', a = Fail e' -> e' = Undefined) ->
  (forall e', b = Fail e' -> e' = Undefined) ->
  same_text a b = Fail e -> e = Undefined.
Proof.
  intros Ha Hb H. unfold same_text in H.
  fail_step H; [eauto|]. fail_step H. eauto.
Qed.

Lemma Formula_no_null_renders (phi : Formula) :
  Formula_no_null phi = true -> exists s, Formula_to_string phi = Ok s.
Proof.
  assert (Hptr : forall (p : FormulaPtr),
             from_option (fun psi => Formula_no_null psi = true ->
                                     exists s, Formula_to_string psi = Ok s) True p ->
             match p with Some psi => Formula_no_null psi | None => false end = true ->
             exists s, FormulaPtr_to_string p = Ok s).
  { intros [psi|] Hp Hnn; simpl in *; [eauto | discriminate]. }
  induction phi as [l r|R args|inner IH|l r IHl IHr|l r IHl IHr|l r IHl IHr
                   |v domain inner IH|v domain inner IH] using Formula_nested_ind;
    intros Hnn; simpl in Hnn;
    try (apply andb_prop in Hnn as [Hn1 Hn2]).
  - simpl. destruct (TermPtr_no_null_renders _ Hn1) as [sl ->].
    destruct (TermPtr_no_null_renders _ Hn2) as [sr ->]. simpl. eauto.
  - destruct (TermPtrs_no_null_render _ Hnn) as [ss Hss].
    rewrite Formula_to_string_relation.
    destruct args as [|a0 [|a1 [|a2 l]]]; cbv zeta;
      try solve [rewrite Hss; simpl; eauto].
    destruct (count infix_relations R); [|rewrite Hss; simpl; eauto].
    simpl in Hnn. apply andb_prop in Hnn as [Hn0 Hn1].
    apply andb_prop in Hn1 as [Hn1 _].
    destruct (TermPtr_no_null_renders _ Hn0) as [s0 ->].
    destruct (TermPtr_no_null_renders _ Hn1) as [s1 ->]. simpl. eauto.
  - destruct (Hptr _ IH Hnn) as [s Hs]. simpl.
    change (match inner with Some psi => Formula_to_string psi | None => Fail Undefined end)
      with (FormulaPtr_to_string inner). rewrite Hs. simpl. eauto.
  - destruct (Hptr _ IHl Hn1) as [sl Hsl]. destruct (Hptr _ IHr Hn2) as [sr Hsr]. simpl.
    change (match l with Some psi => Formula_to_string psi | None => Fail Undefined end)
      with (FormulaPtr_to_string l).
    change (match r with Some psi => Formula_to_string psi | None => Fail Undefined end)
      with (FormulaPtr_to_string r).
    rewrite Hsl, Hsr. simpl. eauto.
  - destruct (Hptr _ IHl Hn1) as [sl Hsl]. destruct (Hptr _ IHr Hn2) as [sr Hsr]. simpl.
    change (match l with Some psi => Formula_to_string psi | None => Fail Undefined end)
      with (FormulaPtr_to_string l).
    change (match r with Some psi => Formula_to_string psi | None => Fail Undefined end)
      with (FormulaPtr_to_string r).
    rewrite Hsl, Hsr. simpl. eauto.
  - destruct (Hptr _ IHl Hn1) as [sl Hsl]. destruct (Hptr _ IHr Hn2) as [sr Hsr]. simpl.
    change (match l with Some psi => Formula_to_string psi | None => Fail Undefined end)
      with (FormulaPtr_to_string l).
    change (match r with Some psi => Formula_to_string psi | None => Fail Undefined end)
      with (FormulaPtr_to_string r).
    rewrite Hsl, Hsr. simpl. eauto.
  - simpl. destruct (TermPtr_no_null_renders _ Hn1) as [sd ->].
    destruct (Hptr _ IH Hn2) as [si Hsi]. simpl.
    change (match inner with Some psi => Formula_to_string psi | None => Fail Undefined end)
      with (FormulaPtr_to_string inner). rewrite Hsi. simpl. eauto.
  - simpl. destruct (TermPtr_no_null_renders _ Hn1) as [sd ->].
    destruct (Hptr _ IH Hn2) as [si Hsi]. simpl.
    change (match inner with Some psi => Formula_to_string psi | None => Fail Undefined end)
      with (FormulaPtr_to_string inner). rewrite Hsi. simpl. eauto.
Qed.

Lemma FormulaPtr_no_null_renders (p : FormulaPtr) :
  FormulaPtr_no_null p = true -> exists s, FormulaPtr_to_string p = Ok s.
Proof. destruct p; simpl; [apply Formula_no_null_renders | discriminate]. Qed.

(** ** The driver's proofs run on the embedding *)

Example induction_by_tactics_is_valid :
  let p := session Demo.induction_by_tactics
             (Proof_new [Demo.sum_axiom_base; Demo.sum_axiom_recursive] Demo.sum_target) in
  is_valid p = true /\ length (lines p) = 6 /\ length (target_history p) = 5
  /\ mapR FormulaPtr_to_string (assumptions p)
     = Ok ["(sum(0) = 0)"; "(∀k ∈ ℕ)((sum((k + 1)) = (sum(k) + 1)))";
           "(k ∈ ℕ)"; "(sum(k) = k)"].
Proof. vm_compute. repeat split. Qed.

Example induction_by_rule_is_valid :
  is_valid (session Demo.induction_by_rule
              (Proof_new [Demo.sum_axiom_base; Demo.sum_axiom_recursive; Demo.step]
                 Demo.sum_target)) = true.
Proof. vm_compute. reflexivity. Qed.

Example cases_proof_is_valid :
  is_valid (session Demo.cases_proof (Proof_new [Demo.imp1; Demo.imp2] Demo.Qx)) = true.
Proof. vm_compute. reflexivity. Qed.

Example excluded_middle_proof_is_valid :
  is_valid (session Demo.excluded_middle_proof
              (Proof_new [] (make_or Demo.Px Demo.not_Px))) = true.
Proof. vm_compute. reflexivity. Qed.

(** ** Well-formedness of tuples *)

(** C10: [Term::is_well_formed] answers [false] on every tuple, whatever its
    elements, and leaves [*err] as it found it: no message is written. *)
Theorem tuple_is_never_well_formed (args : list TermPtr) (err : option string) :
  Term_is_well_formed (TupleTerm args) err = Ok (false, err).
Proof. reflexivity. Qed.

(** ** Rendering of tuples *)

Lemma same_text_Ok (sa sb : string) :
  same_text (Ok sa) (Ok sb) = Ok (String.eqb sa sb).
Proof. reflexivity. Qed.

Lemma substitute_term_in_term_at_unfold (u : Term) (pattern replacement : TermPtr) :
  substitute_term_in_term_at u pattern replacement =
  let* matched := same_text (Term_to_string u) (TermPtr_to_string pattern) in
  if matched then Ok replacement
  else
    match u with
    | FunctionTerm f args =>
        let* new_args :=
          mapR (fun arg => substitute_term_in_term arg pattern replacement) args in
        Ok (make_function f new_args)
    | TupleTerm args =>
        let* new_args :=
          mapR (fun arg => substitute_term_in_term arg pattern replacement) args in
        Ok (make_tuple new_args)
    | VariableTerm var => Ok (make_variable var)
    | ConstantTerm c => Ok (make_constant c)
    end.
Proof. destruct u; reflexivity. Qed.

Lemma tuple_to_string (args : list TermPtr) :
  forallb TermPtr_no_null args = true -> Term_to_string (TupleTerm args) = Ok "?".
Proof.
  intros H. rewrite Term_to_string_tuple.
  destruct (TermPtrs_no_null_render _ H) as [ss ->]. reflexivity.
Qed.

Lemma length_app_string (s1 s2 : string) :
  String.length (s1 +:+ s2) = String.length s1 + String.length s2.
Proof. induction s1 as [|c s1 IH]; simpl; [reflexivity | now rewrite IH]. Qed.

(** A function application never renders as "?": its text has at least the
    two parentheses. *)
Lemma function_text_is_not_question_mark (f : string) (args : list TermPtr) (s : string) :
  Term_to_string (FunctionTerm f args) = Ok s -> String.eqb s "?" = false.
Proof.
  intros H. apply String.eqb_neq. intros ->.
  rewrite Term_to_string_function in H. cbv zeta in H.
  assert (Hprefix : (let* ss := mapR TermPtr_to_string args in
                     Ok (f +:+ "(" +:+ comma_separated ss +:+ ")")) <> Ok "?").
  { intros E. apply bindR_Ok in E as (ss & _ & E). injection E as E.
    apply (f_equal String.length) in E. rewrite !length_app_string in E.
    simpl in E. lia. }
  destruct args as [|a0 [|a1 [|a2 l]]]; try (exact (Hprefix H)).
  destruct (count infix_operators f); [|exact (Hprefix H)].
  apply bindR_Ok in H as (s0 & _ & H). apply bindR_Ok in H as (s1 & _ & H).
  injection H as H. discriminate H.
Qed.

Lemma mapR_map {A B : Type} (f : A -> result B) (g : A -> B) (l : list A) :
  Forall (fun a => f a = Ok (g a)) l -> mapR f l = Ok (map g l).
Proof.
  induction 1 as [|a l Ha _ IH]; simpl; [reflexivity|]. rewrite Ha, IH. reflexivity.
Qed.

Lemma replace_tuple_nodes_function (f : string) (args : list TermPtr)
  (replacement : TermPtr) :
  replace_tuple_nodes (FunctionTerm f args) replacement =
  make_function f
    (map (fun p => match p with
                   | Some a => replace_tuple_nodes a replacement
                   | None => None
                   end) args).
Proof. reflexivity. Qed.

(** With a tuple as the pattern, [substitute_term_in_term] is
    [replace_tuple_nodes]: the whole term is walked and every node of text
    "?" is replaced. *)
Lemma substitute_term_in_term_at_tuple_pattern (b : list TermPtr) (replacement : TermPtr)
  (u : Term) :
  forallb TermPtr_no_null b = true ->
  Term_no_null u = true ->
  substitute_term_in_term_at u (make_tuple b) replacement
  = Ok (replace_tuple_nodes u replacement).
Proof.
  intros Hb. pose proof (tuple_to_string b Hb) as Eb.
  induction u as [var|c|f args IH|args IH] using Term_nested_ind; intros Hnn;
    rewrite substitute_term_in_term_at_unfold; unfold make_tuple at 1;
    unfold TermPtr_to_string; rewrite Eb.
  - cbn [Term_to_string]. rewrite same_text_Ok. cbn [bindR replace_tuple_nodes].
    destruct (String.eqb var "?"); reflexivity.
  - cbn [Term_to_string]. rewrite same_text_Ok. cbn [bindR replace_tuple_nodes].
    destruct (String.eqb c "?"); reflexivity.
  - destruct (Term_no_null_renders _ Hnn) as [s Hs]. rewrite Hs, same_text_Ok.
    rewrite (function_text_is_not_question_mark _ _ _ Hs). cbn [bindR].
    rewrite replace_tuple_nodes_function.
    erewrite mapR_map; [reflexivity|].
    simpl in Hnn. apply forallb_true_Forall in Hnn.
    eapply Forall_impl; [exact (Forall_and_pair _ _ _ IH Hnn)|].
    intros [a|] [Ha Hn]; simpl in *; [auto | discriminate].
  - rewrite (tuple_to_string args), same_text_Ok; [reflexivity|].
    exact Hnn.
Qed.

(** C9: the tuple branch of [Term::to_string] builds its text and drops it,
    so every tuple renders as "?"; under the comparison of rendered texts any
    two tuples are the same, a tuple is the same as any term that renders as
    "?", and [substitute_term_in_term] with a tuple as the pattern replaces a
    tuple, and inside any term every tuple node (with every other node of
    text "?"), rebuilding the function applications around them. *)
Theorem tuple_renders_as_question_mark (a b : list TermPtr) (replacement : TermPtr) :
  forallb TermPtr_no_null a = true ->
  forallb TermPtr_no_null b = true ->
  Term_to_string (TupleTerm a) = Ok "?"
  /\ same_text (Term_to_string (TupleTerm a)) (Term_to_string (TupleTerm b)) = Ok true
  /\ (forall u, Term_to_string u = Ok "?" ->
       same_text (Term_to_string (TupleTerm a)) (Term_to_string u) = Ok true)
  /\ substitute_term_in_term (make_tuple a) (make_tuple b) replacement = Ok replacement
  /\ (forall u, Term_no_null u = true ->
       substitute_term_in_term (Some u) (make_tuple b) replacement
       = Ok (replace_tuple_nodes u replacement))
  /\ (forall f before after,
       forallb TermPtr_no_null before = true ->
       forallb TermPtr_no_null after = true ->
       exists before' after',
         substitute_term_in_term
           (make_function f (before ++ make_tuple a :: after)) (make_tuple b) replacement
         = Ok (make_function f (before' ++ replacement :: after'))
         /\ length before' = length before /\ length after' = length after).
Proof.
  intros Ha Hb.
  pose proof (tuple_to_string a Ha) as Ea. pose proof (tuple_to_string b Hb) as Eb.
  split; [exact Ea|].
  split; [rewrite Ea, Eb; reflexivity|].
  split; [intros u Hu; rewrite Ea, Hu; reflexivity|].
  split.
  { unfold substitute_term_in_term, make_tuple.
    rewrite substitute_term_in_term_at_unfold.
    unfold TermPtr_to_string. rewrite Ea, Eb. reflexivity. }
  split.
  { intros u Hu. apply substitute_term_in_term_at_tuple_pattern; assumption. }
  intros f before after Hbefore Hafter.
  unfold make_function at 1. unfold substitute_term_in_term.
  rewrite substitute_term_in_term_at_tuple_pattern; [|assumption|].
  - rewrite replace_tuple_nodes_function, map_app. cbn [map make_tuple replace_tuple_nodes].
    eexists _, _. split; [reflexivity|]. rewrite !length_map. split; reflexivity.
  - change (forallb TermPtr_no_null (before ++ make_tuple a :: after) = true).
    rewrite forallb_app. cbn [forallb]. rewrite Hbefore, Hafter.
    change (TermPtr_no_null (make_tuple a)) with (forallb TermPtr_no_null a).
    rewrite Ha. reflexivity.
Qed.

Lemma tuple_renders_as_question_mark_witness :
  Term_to_string (TupleTerm [Demo.x; Demo.two]) = Ok "?"
  /\ same_text (Term_to_string (TupleTerm [Demo.x; Demo.two]))
               (Term_to_string (TupleTerm [Demo.five])) = Ok true
  /\ (forall u, Term_to_string u = Ok "?" ->
       same_text (Term_to_string (TupleTerm [Demo.x; Demo.two])) (Term_to_string u) = Ok true)
  /\ substitute_term_in_term (make_tuple [Demo.x; Demo.two]) (make_tuple [Demo.five]) Demo.zero
     = Ok Demo.zero
  /\ substitute_term_in_term
       (make_function "g" [make_tuple [Demo.x; Demo.two]; Demo.y])
       (make_tuple [Demo.five]) Demo.zero
     = Ok (make_function "g" [Demo.zero; Demo.y])
  /\ substitute_term_in_term
       (make_function "g" [make_function "h" [make_tuple [Demo.two]]; make_tuple []])
       (make_tuple [Demo.five]) Demo.zero
     = Ok (make_function "g" [make_function "h" [Demo.zero]; Demo.zero]).
Proof.
  destruct (tuple_renders_as_question_mark [Demo.x; Demo.two] [Demo.five] Demo.zero)
    as (H1 & H2 & H3 & H4 & H5 & _); [reflexivity | reflexivity |].
  split; [exact H1|]. split; [exact H2|]. split; [exact H3|]. split; [exact H4|].
  split.
  - exact (H5 (FunctionTerm "g" [make_tuple [Demo.x; Demo.two]; Demo.y]) eq_refl).
  - exact (H5 (FunctionTerm "g" [make_function "h" [make_tuple [Demo.two]]; make_tuple []])
              eq_refl).
Defined.

(** ** Variable substitution *)

Lemma substitute_in_term_at_function (f : string) (args : list TermPtr) (var t : TermPtr) :
  substitute_in_term_at (FunctionTerm f args) var t =
  let* new_args := mapR (fun arg => substitute_in_term arg var t) args in
  Ok (make_function f new_args).
Proof. reflexivity. Qed.

Lemma substitute_in_term_variable_hit (v : string) (t : TermPtr) :
  substitute_in_term (make_variable v) (make_variable v) t = Ok t.
Proof. simpl. rewrite String.eqb_refl. reflexivity. Qed.

Lemma substitute_in_term_variable_miss (x v : string) (t : TermPtr) :
  x <> v -> substitute_in_term (make_variable x) (make_variable v) t = Ok (make_variable x).
Proof. intros H. simpl. apply String.eqb_neq in H. rewrite H. reflexivity. Qed.

Lemma substitute_in_formula_shadowed_forall (v : string) (domain : TermPtr)
  (inner : FormulaPtr) (t : TermPtr) :
  substitute_in_formula (make_forall v domain inner) (make_variable v) t
  = Ok (make_forall v domain inner).
Proof. simpl. rewrite String.eqb_refl. reflexivity. Qed.

Lemma substitute_in_formula_shadowed_exists (v : string) (domain : TermPtr)
  (inner : FormulaPtr) (t : TermPtr) :
  substitute_in_formula (make_exists v domain inner) (make_variable v) t
  = Ok (make_exists v domain inner).
Proof. simpl. rewrite String.eqb_refl. reflexivity. Qed.

(** With a variable as [var], [std::get] cannot throw and no pointer is
    dereferenced: the substitution always returns. *)
Lemma substitute_in_term_at_total (u : Term) (v : string) (t : TermPtr) :
  exists r, substitute_in_term_at u (make_variable v) t = Ok r.
Proof.
  induction u as [x|c|f args IH|args IH] using Term_nested_ind.
  - simpl. destruct (String.eqb x v); eauto.
  - simpl; eauto.
  - rewrite substitute_in_term_at_function.
    assert (H : exists rs, mapR (fun arg => substitute_in_term arg (make_variable v) t) args
                           = Ok rs).
    { apply mapR_Ok_Forall. eapply Forall_impl; [exact IH|].
      intros [a|] Ha; simpl in *; eauto. }
    destruct H as [rs ->]. simpl. eauto.
  - simpl; eauto.
Qed.

Lemma substitute_in_term_total (u : TermPtr) (v : string) (t : TermPtr) :
  exists r, substitute_in_term u (make_variable v) t = Ok r.
Proof. destruct u; simpl; [apply substitute_in_term_at_total | eauto]. Qed.

Lemma substitute_in_formula_at_total (phi : Formula) (v : string) (t : TermPtr) :
  exists r, substitute_in_formula_at phi (make_variable v) t = Ok r.
Proof.
  assert (Hptr : forall (p : FormulaPtr),
             from_option (fun psi => exists r,
                              substitute_in_formula_at psi (make_variable v) t = Ok r) True p ->
             exists r, substitute_in_formula p (make_variable v) t = Ok r).
  { intros [psi|] Hp; simpl in *; eauto. }
  induction phi as [l r|R args|inner IH|l r IHl IHr|l r IHl IHr|l r IHl IHr
                   |w domain inner IH|w domain inner IH] using Formula_nested_ind.
  - simpl. destruct (substitute_in_term_total l v t) as [l' ->].
    destruct (substitute_in_term_total r v t) as [r' ->]. simpl. eauto.
  - simpl.
    assert (H : exists rs, mapR (fun arg => substitute_in_term arg (make_variable v) t) args
                           = Ok rs).
    { apply mapR_Ok_Forall. apply Forall_forall. intros a _.
      apply substitute_in_term_total. }
    destruct H as [rs ->]. simpl. eauto.
  - destruct (Hptr _ IH) as [r' Hr']. simpl.
    change (match inner with
            | Some chi => substitute_in_formula_at chi (make_variable v) t
            | None => Ok None
            end) with (substitute_in_formula inner (make_variable v) t).
    rewrite Hr'. simpl. eauto.
  - destruct (Hptr _ IHl) as [l' Hl']. destruct (Hptr _ IHr) as [r' Hr']. simpl.
    change (match l with
            | Some chi => substitute_in_formula_at chi (make_variable v) t
            | None => Ok None
            end) with (substitute_in_formula l (make_variable v) t).
    change (match r with
            | Some chi => substitute_in_formula_at chi (make_variable v) t
            | None => Ok None
            end) with (substitute_in_formula r (make_variable v) t).
    rewrite Hl', Hr'. simpl. eauto.
  - destruct (Hptr _ IHl) as [l' Hl']. destruct (Hptr _ IHr) as [r' Hr']. simpl.
    change (match l with
            | Some chi => substitute_in_formula_at chi (make_variable v) t
            | None => Ok None
            end) with (substitute_in_formula l (make_variable v) t).
    change (match r with
            | Some chi => substitute_in_formula_at chi (make_variable v) t
            | None => Ok None
            end) with (substitute_in_formula r (make_variable v) t).
    rewrite Hl', Hr'. simpl. eauto.
  - destruct (Hptr _ IHl) as [l' Hl']. destruct (Hptr _ IHr) as [r' Hr']. simpl.
    change (match l with
            | Some chi => substitute_in_formula_at chi (make_variable v) t
            | None => Ok None
            end) with (substitute_in_formula l (make_variable v) t).
    change (match r with
            | Some chi => substitute_in_formula_at chi (make_variable v) t
            | None => Ok None
            end) with (substitute_in_formula r (make_variable v) t).
    rewrite Hl', Hr'. simpl. eauto.
  - destruct (Hptr _ IH) as [r' Hr']. simpl.
    destruct (String.eqb w v); [eauto|].
    change (match inner with
            | Some chi => substitute_in_formula_at chi (make_variable v) t
            | None => Ok None
            end) with (substitute_in_formula inner (make_variable v) t).
    rewrite Hr'. simpl. eauto.
  - destruct (Hptr _ IH) as [r' Hr']. simpl.
    destruct (String.eqb w v); [eauto|].
    change (match inner with
            | Some chi => substitute_in_formula_at chi (make_variable v) t
            | None => Ok None
            end) with (substitute_in_formula inner (make_variable v) t).
    rewrite Hr'. simpl. eauto.
Qed.

Lemma substitute_in_formula_total (phi : FormulaPtr) (v : string) (t : TermPtr) :
  exists r, substitute_in_formula phi (make_variable v) t = Ok r.
Proof. destruct phi; simpl; [apply substitute_in_formula_at_total | eauto]. Qed.

(** C4: [substitute_in_term] has no branch for tuples.  On a tuple it
    returns [nullptr] instead of a tuple of substituted arguments, and a
    tuple below a function or inside a formula is replaced by [nullptr];
    the sibling [substitute_term_in_term] does rebuild the tuple. *)
Theorem substitute_in_term_loses_tuples :
  (forall args var t, substitute_in_term (make_tuple args) var t = Ok None)
  /\ substitute_in_term (make_tuple [Demo.v1]) Demo.v1 Demo.zero = Ok None
  /\ substitute_in_term (make_function "succ" [make_tuple [Demo.v1]]) Demo.v1 Demo.zero
     = Ok (make_function "succ" [None])
  /\ substitute_in_formula (make_eq (make_tuple [Demo.v1]) Demo.v1) Demo.v1 Demo.zero
     = Ok (make_eq None Demo.zero)
  /\ substitute_term_in_term (make_tuple [Demo.v1]) Demo.v1 Demo.zero
     = Ok (make_tuple [Demo.zero]).
Proof. repeat split. Qed.

(** ** The comparison of rendered texts *)

(** C1: the engine compares rendered texts, not trees.  The relation named
    "=" applied to [x] and [2] is a different tree from the equality [x = 2],
    but both render as "(x = 2)": the ASSUMPTION rule accepts the relation
    as a line although only the equality was assumed, the line discharges
    the target [x = 2], and the pattern search of [substitute_term_in_term]
    replaces the constant spelled "x" when the pattern is the variable "x". *)
Theorem rendered_text_is_the_equality_oracle :
  Demo.x_rel_2 <> Demo.x_eq_2
  /\ FormulaPtr_to_string Demo.x_rel_2 = FormulaPtr_to_string Demo.x_eq_2
  /\ (let p := Proof_new [Demo.x_eq_2] Demo.x_eq_2 in
      let after := add_line_to_proof Demo.x_rel_2 "ASSUMPTION" [] p in
      fst after = Ok tt
      /\ lines (snd after) = [mkProofLine Demo.x_rel_2 "ASSUMPTION" []]
      /\ targets (snd after) = []
      /\ is_valid (snd after) = true)
  /\ make_constant "x" <> make_variable "x"
  /\ substitute_term_in_term (make_constant "x") (make_variable "x") Demo.two = Ok Demo.two.
Proof.
  split; [discriminate|]. split; [reflexivity|].
  split; [vm_compute; repeat split|]. split; [discriminate|]. reflexivity.
Qed.

(** C5: the FORALL rule compares the two domains by their rendered text.
    With the quantifier ranging over the constant [X] and the membership
    fact about a variable spelled "X", the domains differ as terms and the
    rule still accepts the claim. *)
Theorem forall_rule_accepts_a_different_domain :
  make_variable "X" <> Demo.X
  /\ Demo.forall_x_eq_5 = make_forall "x" Demo.X Demo.x_eq_5
  /\ Demo.y_in_var_X = make_rel "∈" [Demo.y; make_variable "X"]
  /\ forall_rule [Demo.forall_x_eq_5; Demo.y_in_var_X] Demo.y_eq_5 = Ok Demo.y_eq_5.
Proof. split; [discriminate|]. repeat split. Qed.

(** ** Goal tactics *)

(** What [instantiate_forall] does on every proof whose active target is a
    universal formula: the recorded membership is in the constant "ℕ"
    whatever the domain of the quantifier is. *)
Lemma instantiate_forall_on_forall (w : option TermPtr) (p : Proof)
  (v : string) (D : TermPtr) (B : FormulaPtr) :
  targets p !! active_target_idx p = Some (make_forall v D B) ->
  let witness := default (make_variable v) w in
  exists new_goal,
    substitute_in_formula B (make_variable v) witness = Ok new_goal
    /\ instantiate_forall w p =
       (Ok tt,
        mkProof (lines p)
          (assumptions p ++ [make_rel "∈" [witness; make_constant "ℕ"]])
          (<[active_target_idx p := new_goal]> (targets p))
          (active_target_idx p)
          (target_history p ++ [targets p])
          (rules p)).
Proof.
  intros Hactive witness.
  destruct (substitute_in_formula_total B v witness) as [new_goal Hsub].
  exists new_goal. split; [exact Hsub|].
  unfold instantiate_forall, bindM, this, liftM, update, retM, push_back, vec_at.
  cbv zeta.
  assert (Hlen : (length (targets p) =? 0)%nat = false).
  { apply lookup_lt_Some in Hactive. apply Nat.eqb_neq. lia. }
  rewrite Hlen, Hactive. simpl.
  replace (match w with Some w0 => w0 | None => make_variable v end) with witness
    by (destruct w; reflexivity).
  rewrite Hsub. reflexivity.
Qed.

(** C3: [instantiate_forall] on the target [forall x in X, x = 5] records the
    assumption that the witness belongs to the constant spelled "ℕ", not to
    the quantifier's domain [X]; the snapshot and the new target are as the
    claim says. *)
Theorem instantiate_forall_assumes_the_naturals :
  let p := Proof_new [] Demo.forall_x_eq_5 in
  let after := instantiate_forall None p in
  fst after = Ok tt
  /\ assumptions (snd after) = [make_rel "∈" [Demo.x; make_constant "ℕ"]]
  /\ assumptions (snd after) <> [make_rel "∈" [Demo.x; Demo.X]]
  /\ target_history (snd after) = [[Demo.forall_x_eq_5]]
  /\ targets (snd after) = [Demo.x_eq_5].
Proof.
  vm_compute. split; [reflexivity|]. split; [reflexivity|].
  split; [discriminate|]. split; reflexivity.
Qed.

(** ** Adding a line *)

(** [add_line_to_proof] in two phases: the checks, which do not touch the
    object, then the append and the discharge of a target. *)
Lemma add_line_to_proof_unfold (claimed : FormulaPtr) (rule_name : string)
  (deps : list Z) (p : Proof) :
  add_line_to_proof claimed rule_name deps p =
  let checks : result unit :=
    let* rule := find_rule (rules p) rule_name in
    let* dep_statements := mapR (dependency_statement (lines p)) deps in
    let* derived := rule (assumptions p) dep_statements claimed in
    let* sd := FormulaPtr_to_string derived in
    let* sc := FormulaPtr_to_string claimed in
    if negb (String.eqb sd sc) then
      throw (invalid_argument
               ("Claimed statement " +:+ sc +:+ " does not match derived " +:+ sd))
    else Ok tt in
  match checks with
  | Fail f => (Fail f, p)
  | Ok _ =>
      let p1 := set_lines (push_back (lines p) (mkProofLine claimed rule_name deps)) p in
      match find_completed_target (targets p) claimed 0 with
      | Fail f => (Fail f, p1)
      | Ok None => (Ok tt, p1)
      | Ok (Some i) =>
          let p2 := set_targets (delete i (targets p)) p1 in
          if (i <=? active_target_idx p)%nat && (0 <? active_target_idx p)%nat
          then (Ok tt, set_active_target_idx (active_target_idx p - 1) p2)
          else (Ok tt, p2)
      end
  end.
Proof.
  unfold add_line_to_proof, bindM, this, liftM, update, retM. cbv zeta.
  destruct (find_rule (rules p) rule_name) as [rule|f]; simpl; [|reflexivity].
  destruct (mapR (dependency_statement (lines p)) deps) as [ds|f]; simpl; [|reflexivity].
  destruct (rule (assumptions p) ds claimed) as [derived|f]; simpl; [|reflexivity].
  destruct (FormulaPtr_to_string derived) as [sd|f]; simpl; [|reflexivity].
  destruct (FormulaPtr_to_string claimed) as [sc|f]; simpl; [|reflexivity].
  destruct (String.eqb sd sc); simpl; [|reflexivity].
  destruct (find_completed_target (targets p) claimed 0) as [[i|]|f]; simpl;
    try reflexivity.
  destruct ((i <=? active_target_idx p)%nat && (0 <? active_target_idx p)%nat);
    reflexivity.
Qed.

Lemma find_completed_target_Fail (ts : list FormulaPtr) (claimed : FormulaPtr)
  (i : nat) (e : failure) :
  find_completed_target ts claimed i = Fail e -> e = Undefined.
Proof.
  revert i. induction ts as [|t ts IH]; simpl; intros i H; [discriminate|].
  destruct (same_text (FormulaPtr_to_string t) (FormulaPtr_to_string claimed))
    as [[|]|f] eqn:E; simpl in H.
  - discriminate.
  - eauto.
  - injection H as <-. eapply same_text_Fail; [| |exact E];
      intros e'; apply FormulaPtr_to_string_Fail.
Qed.

(** The scan stops at the first target with the text of the claim. *)
Lemma find_completed_target_Some (ts : list FormulaPtr) (claimed : FormulaPtr)
  (k j : nat) :
  find_completed_target ts claimed k = Ok (Some j) ->
  exists i t, j = k + i
    /\ ts !! i = Some t
    /\ same_text (FormulaPtr_to_string t) (FormulaPtr_to_string claimed) = Ok true
    /\ forall i' t', i' < i -> ts !! i' = Some t' ->
         same_text (FormulaPtr_to_string t') (FormulaPtr_to_string claimed) = Ok false.
Proof.
  revert k. induction ts as [|t ts IH]; simpl; intros k H; [discriminate|].
  destruct (same_text (FormulaPtr_to_string t) (FormulaPtr_to_string claimed))
    as [[|]|f] eqn:E; simpl in H.
  - injection H as <-. exists 0, t. repeat split; [lia | assumption | intros; lia].
  - destruct (IH _ H) as (i & t0 & -> & Hi & Ht0 & Hbefore).
    exists (S i), t0. repeat split; [lia | assumption | assumption |].
    intros [|i'] t' Hlt Ht'; simpl in Ht'.
    + congruence.
    + apply (Hbefore i' t'); [lia | assumption].
  - discriminate.
Qed.

Lemma find_completed_target_None (ts : list FormulaPtr) (claimed : FormulaPtr) (k : nat) :
  find_completed_target ts claimed k = Ok None ->
  forall t, t ∈ ts ->
    same_text (FormulaPtr_to_string t) (FormulaPtr_to_string claimed) = Ok false.
Proof.
  revert k. induction ts as [|t ts IH]; simpl; intros k H t0 Hin.
  - inversion Hin.
  - destruct (same_text (FormulaPtr_to_string t) (FormulaPtr_to_string claimed))
      as [[|]|f] eqn:E; simpl in H; try discriminate.
    apply elem_of_cons in Hin as [->|Hin]; [assumption | eauto].
Qed.

(** C7: a call of [add_line_to_proof] that throws leaves the object exactly
    as it was: line log, assumptions, targets, active index, history and
    rule registry. *)
Theorem rejected_line_leaves_proof_unchanged (claimed : FormulaPtr) (rule_name : string)
  (deps : list Z) (p p' : Proof) (e : exception) :
  add_line_to_proof claimed rule_name deps p = (Fail (Throw e), p') -> p' = p.
Proof.
  rewrite add_line_to_proof_unfold. cbv zeta.
  match goal with |- context [match ?c with Ok _ => _ | Fail _ => _ end] =>
    destruct c as [[]|f] end.
  - destruct (find_completed_target (targets p) claimed 0) as [[i|]|f] eqn:E.
    + destruct ((i <=? active_target_idx p)%nat && (0 <? active_target_idx p)%nat);
        discriminate.
    + discriminate.
    + apply find_completed_target_Fail in E. subst f. discriminate.
  - intros H. congruence.
Qed.

Lemma rejected_line_leaves_proof_unchanged_witness :
  let p := Proof_new [Demo.x_eq_2] Demo.x_eq_2 in
  let after := add_line_to_proof Demo.x_eq_5 "ASSUMPTION" [] p in
  fst after = Fail (Throw (invalid_argument "Invalid assumption: (x = 5)"))
  /\ snd after = p.
Proof.
  split; [reflexivity|].
  apply (rejected_line_leaves_proof_unchanged Demo.x_eq_5 "ASSUMPTION" []
           (Proof_new [Demo.x_eq_2] Demo.x_eq_2)
           (snd (add_line_to_proof Demo.x_eq_5 "ASSUMPTION" []
                   (Proof_new [Demo.x_eq_2] Demo.x_eq_2)))
           (invalid_argument "Invalid assumption: (x = 5)")).
  reflexivity.
Defined.

(** A claim that is accepted renders, so it has the text of every target it
    is identical to. *)
Lemma accepted_claim_has_its_own_text (claimed : FormulaPtr) (rule_name : string)
  (deps : list Z) (p p' : Proof) :
  add_line_to_proof claimed rule_name deps p = (Ok tt, p') ->
  same_text (FormulaPtr_to_string claimed) (FormulaPtr_to_string claimed) = Ok true.
Proof.
  rewrite add_line_to_proof_unfold. cbv zeta.
  destruct (find_rule (rules p) rule_name) as [rule|f]; simpl; [|discriminate].
  destruct (mapR (dependency_statement (lines p)) deps) as [ds|f]; simpl; [|discriminate].
  destruct (rule (assumptions p) ds claimed) as [derived|f]; simpl; [|discriminate].
  destruct (FormulaPtr_to_string derived) as [sd|f]; simpl; [|discriminate].
  destruct (FormulaPtr_to_string claimed) as [sc|f]; simpl; [|discriminate].
  intros _. rewrite String.eqb_refl. reflexivity.
Qed.

(** The discharge step in terms of the comparison the code makes: when an
    accepted line has the text of some target, the first target with that
    text, and only it, is erased, so the target vector loses exactly one
    entry also when the formula occurs several times.  The active index is
    decremented exactly when the erased position is at or before it and it
    is not zero, and it then still indexes a target. *)
Lemma accepted_line_discharges_one_target (claimed : FormulaPtr) (rule_name : string)
  (deps : list Z) (p p' : Proof) :
  add_line_to_proof claimed rule_name deps p = (Ok tt, p') ->
  (exists t, t ∈ targets p
     /\ same_text (FormulaPtr_to_string t) (FormulaPtr_to_string claimed) = Ok true) ->
  exists i t,
    targets p !! i = Some t
    /\ same_text (FormulaPtr_to_string t) (FormulaPtr_to_string claimed) = Ok true
    /\ (forall i' t', i' < i -> targets p !! i' = Some t' ->
         same_text (FormulaPtr_to_string t') (FormulaPtr_to_string claimed) = Ok false)
    /\ targets p' = delete i (targets p)
    /\ S (length (targets p')) = length (targets p)
    /\ active_target_idx p' =
         (if (i <=? active_target_idx p)%nat && (0 <? active_target_idx p)%nat
          then active_target_idx p - 1 else active_target_idx p)
    /\ (i <= active_target_idx p -> 0 < active_target_idx p ->
         active_target_idx p < length (targets p) ->
         active_target_idx p' = active_target_idx p - 1
         /\ active_target_idx p' < length (targets p')).
Proof.
  intros Hcall (t0 & Hin & Ht0).
  rewrite add_line_to_proof_unfold in Hcall. cbv zeta in Hcall.
  match type of Hcall with context [match ?c with Ok _ => _ | Fail _ => _ end] =>
    destruct c as [[]|f] end; [|discriminate].
  destruct (find_completed_target (targets p) claimed 0) as [[j|]|f] eqn:E;
    [| |discriminate].
  - destruct (find_completed_target_Some _ _ _ _ E) as (i & t & -> & Hi & Ht & Hbefore).
    simpl in Hcall.
    assert (Hlen : S (length (delete i (targets p))) = length (targets p)).
    { rewrite length_delete by eauto. apply lookup_lt_Some in Hi. lia. }
    exists i, t.
    destruct ((i <=? active_target_idx p)%nat && (0 <? active_target_idx p)%nat) eqn:Hadj;
      injection Hcall as <-; simpl; (repeat split; try assumption; try reflexivity).
    + lia.
    + apply andb_false_iff in Hadj as [Hadj|Hadj];
        [apply Nat.leb_gt in Hadj | apply Nat.ltb_ge in Hadj]; lia.
    + apply andb_false_iff in Hadj as [Hadj|Hadj];
        [apply Nat.leb_gt in Hadj | apply Nat.ltb_ge in Hadj]; lia.
  - pose proof (find_completed_target_None _ _ _ E t0 Hin) as Hno. congruence.
Qed.

(** C2: an accepted line whose formula is a target can erase another target
    and leave its own pending.  From a fresh proof of
    [forall n in ℕ, body], the induction tactic, the assumed equality and
    the rewrite of the base case by it all return normally and leave the
    targets [look_alike; step]: two different formulas of one text.  The
    line [step], accepted by the ASSUMPTION rule, then erases [look_alike]
    at position 0: the count drops by one, but the only entry equal to the
    claimed formula is the one that stays, so the proof is not complete and
    the relation [look_alike], which no line proves, is no longer a target. *)
Theorem accepted_line_erases_a_look_alike_target :
  exists p1 p2 p p' : Proof,
    instantiate_induction Shadowed.start = (Ok tt, p1)
    /\ add_line_to_proof Shadowed.m_eq_spelled "ASSUMPTION" [] p1 = (Ok tt, p2)
    /\ rewrite_target_using_equality 0 p2 = (Ok tt, p)
    /\ p = session Shadowed.calls Shadowed.start
    /\ targets p = [Shadowed.look_alike; Shadowed.step]
    /\ active_target_idx p = 0
    /\ Shadowed.look_alike <> Shadowed.step
    /\ FormulaPtr_to_string Shadowed.look_alike = FormulaPtr_to_string Shadowed.step
    /\ add_line_to_proof Shadowed.step "ASSUMPTION" [] p = (Ok tt, p')
    /\ targets p' = [Shadowed.step]
    /\ active_target_idx p' = 0
    /\ map statement (lines p') = [Shadowed.m_eq_spelled; Shadowed.step]
    /\ is_valid p' = false.
Proof.
  eexists _, _, _, _.
  split; [vm_compute; reflexivity|].
  split; [vm_compute; reflexivity|].
  split; [vm_compute; reflexivity|].
  split; [vm_compute; reflexivity|].
  split; [vm_compute; reflexivity|].
  split; [vm_compute; reflexivity|].
  split; [discriminate|].
  split; [vm_compute; reflexivity|].
  split; [vm_compute; reflexivity|].
  repeat split; vm_compute; reflexivity.
Qed.

(** ** The CASES rule *)

(** No text is its own double negation. *)
Lemma text_differs_from_its_double_negation (s : string) :
  String.eqb s ("(¬" +:+ ("(¬" +:+ s +:+ ")") +:+ ")") = false.
Proof.
  apply String.eqb_neq. intros H.
  apply (f_equal String.length) in H.
  rewrite !length_app_string in H. simpl in H. lia.
Qed.

Lemma cases_rule_unfold (f t1 left2 t2 claimed : FormulaPtr) :
  cases_rule [make_implies f t1; make_implies left2 t2] claimed =
  let* both :=
    (let* same1 := same_text (FormulaPtr_to_string t1) (FormulaPtr_to_string claimed) in
     if negb same1 then Ok false
     else same_text (FormulaPtr_to_string t2) (FormulaPtr_to_string claimed)) in
  if negb both then
    throw (invalid_argument "CASES: both implications must derive the claimed formula")
  else
    let* dl := data left2 in
    match dl with
    | NotFormula inner =>
        let* same := same_text (FormulaPtr_to_string inner) (FormulaPtr_to_string f) in
        if negb same then
          throw (invalid_argument "CASES: mismatched f and ¬f assumptions")
        else Ok claimed
    | _ =>
        throw (invalid_argument "CASES: second implication must have ¬f on the left side")
    end.
Proof. reflexivity. Qed.

(** C6, as the code has it: CASES accepts [f -> t] and [not f -> t] in this
    order, never accepts the two dependencies in swapped positions, and
    accepts only two implications of which the second has a [Not] formula
    as its antecedent; what it returns is then the claim. *)
Theorem cases_rule_is_one_sided (f claimed : FormulaPtr) :
  FormulaPtr_no_null f = true ->
  FormulaPtr_no_null claimed = true ->
  cases_rule [make_implies f claimed; make_implies (make_not f) claimed] claimed
  = Ok claimed
  /\ (forall g t1 t2 c,
        is_Ok (cases_rule [make_implies (make_not g) t2; make_implies g t1] c) = false)
  /\ (forall d0 d1 c r,
        cases_rule [d0; d1] c = Ok r ->
        exists g t1 h t2,
          d0 = make_implies g t1 /\ d1 = make_implies (make_not h) t2 /\ r = c).
Proof.
  intros Hf Hc. split; [|split].
  - destruct (FormulaPtr_no_null_renders _ Hf) as [sf Ef].
    destruct (FormulaPtr_no_null_renders _ Hc) as [sc Ec].
    rewrite cases_rule_unfold. cbv zeta. rewrite Ec.
    rewrite !same_text_Ok, !String.eqb_refl.
    unfold data, make_not. cbn [bindR negb]. rewrite Ef.
    rewrite same_text_Ok, String.eqb_refl. reflexivity.
  - intros g t1 t2 c. rewrite cases_rule_unfold. cbv zeta.
    match goal with |- is_Ok (bindR ?m _) = false => destruct m as [[|]|e] end;
      simpl; try reflexivity.
    destruct g as [[| |inner| | | | |]|]; simpl; try reflexivity.
    change (match inner with
            | Some psi => Formula_to_string psi
            | None => Fail Undefined
            end) with (FormulaPtr_to_string inner).
    destruct (FormulaPtr_to_string inner) as [s|e]; simpl; [|reflexivity].
    rewrite text_differs_from_its_double_negation. reflexivity.
  - intros d0 d1 c r H.
    destruct d0 as [[| | | | |g t1| |]|]; try discriminate.
    destruct d1 as [[| | | | |left2 t2| |]|]; try discriminate.
    change (cases_rule [make_implies g t1; make_implies left2 t2] c = Ok r) in H.
    rewrite cases_rule_unfold in H. cbv zeta in H.
    apply bindR_Ok in H as (both & Hboth & H).
    destruct both; simpl in H; [|discriminate].
    apply bindR_Ok in Hboth as (same1 & H1 & H2).
    destruct same1; simpl in H2; [|discriminate].
    apply bindR_Ok in H as (dl & Hdl & H).
    destruct left2 as [left2|]; simpl in Hdl; [|discriminate].
    injection Hdl as <-.
    destruct left2 as [| |h| | | | |]; try discriminate.
    apply bindR_Ok in H as (same & Hsame & H).
    destruct same; simpl in H; [|discriminate].
    injection H as <-.
    exists g, t1, h, t2. repeat split.
Qed.

Lemma cases_rule_is_one_sided_witness :
  cases_rule [Demo.imp1; Demo.imp2] Demo.Qx = Ok Demo.Qx
  /\ is_Ok (cases_rule [Demo.imp2; Demo.imp1] Demo.Qx) = false.
Proof.
  destruct (cases_rule_is_one_sided Demo.Px Demo.Qx) as (H1 & H2 & _);
    [reflexivity | reflexivity |].
  split; [exact H1 | exact (H2 Demo.Px Demo.Qx Demo.Qx Demo.Qx)].
Defined.

(** C6, as the claim has it: with the dependencies of the demonstration
    driver in swapped positions the rule throws. *)
Lemma cases_rule_rejects_swapped_dependencies :
  cases_rule [Demo.imp1; Demo.imp2] Demo.Qx = Ok Demo.Qx
  /\ cases_rule [Demo.imp2; Demo.imp1] Demo.Qx
     = Fail (Throw (invalid_argument
                      "CASES: second implication must have ¬f on the left side")).
Proof. split; reflexivity. Qed.

(** ** The history stack *)

Lemma register_rule_history (name : string) (rule : LineRule) (p : Proof) :
  target_history (snd (register_rule name rule p)) = target_history p.
Proof. reflexivity. Qed.

Lemma add_line_to_proof_history (claimed : FormulaPtr) (rule_name : string)
  (deps : list Z) (p : Proof) :
  target_history (snd (add_line_to_proof claimed rule_name deps p)) = target_history p.
Proof.
  rewrite add_line_to_proof_unfold. cbv zeta.
  match goal with |- context [match ?c with Ok _ => _ | Fail _ => _ end] =>
    destruct c as [[]|f] end; [|reflexivity].
  destruct (find_completed_target (targets p) claimed 0) as [[i|]|f]; try reflexivity.
  destruct ((i <=? active_target_idx p)%nat && (0 <? active_target_idx p)%nat);
    reflexivity.
Qed.

Lemma instantiate_forall_history (w : option TermPtr) (p : Proof) :
  target_history (snd (instantiate_forall w p)) =
  target_history p ++ (if is_Ok (fst (instantiate_forall w p)) then [targets p] else []).
Proof.
  unfold instantiate_forall, bindM, this, liftM, update, retM, push_back, throw.
  cbv zeta. simpl. history_cases.
Qed.

Lemma instantiate_implication_history (p : Proof) :
  target_history (snd (instantiate_implication p)) =
  target_history p ++ (if is_Ok (fst (instantiate_implication p)) then [targets p] else []).
Proof.
  unfold instantiate_implication, bindM, this, liftM, update, retM, push_back, throw.
  cbv zeta. simpl. history_cases.
Qed.

Lemma get_active_target_unfold (p : Proof) :
  get_active_target p =
  (if (length (targets p) <=? active_target_idx p)%nat
   then throw (logic_error "Active goal index out of range")
   else vec_at (targets p) (active_target_idx p), p).
Proof.
  unfold get_active_target, bindM, this, liftM.
  destruct (length (targets p) <=? active_target_idx p)%nat; reflexivity.
Qed.

Lemma instantiate_induction_history (p : Proof) :
  target_history (snd (instantiate_induction p)) =
  target_history p ++ (if is_Ok (fst (instantiate_induction p)) then [targets p] else []).
Proof.
  unfold instantiate_induction, bindM. rewrite get_active_target_unfold.
  unfold liftM, update, retM, push_back, throw.
  cbv zeta. simpl. history_cases.
Qed.

Lemma rewrite_target_using_equality_history (i : Z) (p : Proof) :
  target_history (snd (rewrite_target_using_equality i p)) =
  target_history p
  ++ (if is_Ok (fst (rewrite_target_using_equality i p)) then [targets p] else []).
Proof.
  unfold rewrite_target_using_equality, bindM, this, liftM, update, retM, push_back, throw.
  cbv zeta. simpl. history_cases.
Qed.

Lemma perform_history (c : call) (p : Proof) :
  target_history (snd (perform c p)) = target_history p ++ pushed c p.
Proof.
  unfold pushed. destruct c; cbn [perform is_tactic andb].
  - rewrite app_nil_r. apply register_rule_history.
  - rewrite app_nil_r. unfold bindM. rewrite get_active_target_unfold.
    destruct (length (targets p) <=? active_target_idx p)%nat; simpl; [reflexivity|].
    destruct (vec_at (targets p) (active_target_idx p)); reflexivity.
  - rewrite app_nil_r. apply add_line_to_proof_history.
  - apply instantiate_forall_history.
  - apply instantiate_implication_history.
  - apply instantiate_induction_history.
  - apply rewrite_target_using_equality_history.
Qed.

Lemma session_history (cs : list call) (p : Proof) :
  target_history (session cs p) = target_history p ++ snapshots cs p.
Proof.
  revert p. induction cs as [|c rest IH]; intros p; simpl.
  - now rewrite app_nil_r.
  - pose proof (perform_history c p) as Hc. unfold pushed in Hc.
    destruct (perform c p) as [[u|[e|]] p']; simpl in Hc.
    + rewrite IH, Hc, andb_true_r, app_assoc. reflexivity.
    + rewrite IH, Hc, andb_false_r, app_nil_r. reflexivity.
    + rewrite Hc, andb_false_r. reflexivity.
Qed.

Lemma snapshots_length (cs : list call) (p : Proof) :
  length (snapshots cs p) = successful_tactics cs p.
Proof.
  revert p. induction cs as [|c rest IH]; intros p; simpl; [reflexivity|].
  destruct (perform c p) as [[u|[e|]] p']; [|apply IH|reflexivity].
  rewrite length_app, IH. destruct (is_tactic c); reflexivity.
Qed.

(** C8: a tactic that returns pushes exactly one entry, the target vector
    it was called on, and nothing ever removes an entry: after any session
    the history is the stack, in order, of the snapshots of its successful
    tactic calls, on top of what was there before, so that on a fresh proof
    its height is the number of successful tactic calls. *)
Theorem history_is_the_stack_of_snapshots (c : call) (cs : list call) (p : Proof)
  (given : list FormulaPtr) (target : FormulaPtr) :
  target_history (snd (perform c p)) = target_history p ++ pushed c p
  /\ target_history (session cs p) = target_history p ++ snapshots cs p
  /\ length (snapshots cs p) = successful_tactics cs p
  /\ target_history (session cs (Proof_new given target))
     = snapshots cs (Proof_new given target)
  /\ length (target_history (session cs (Proof_new given target)))
     = successful_tactics cs (Proof_new given target).
Proof.
  split; [apply perform_history|].
  split; [apply session_history|].
  split; [apply snapshots_length|].
  assert (H : target_history (session cs (Proof_new given target))
              = snapshots cs (Proof_new given target)).
  { rewrite session_history. reflexivity. }
  split; [exact H|]. rewrite H. apply snapshots_length.
Qed.

(** * Further properties of the engine *)

(** ** What a call can change *)

Lemma add_line_to_proof_effect (claimed : FormulaPtr) (rule_name : string)
  (deps : list Z) (p : Proof) :
  let after := add_line_to_proof claimed rule_name deps p in
  assumptions (snd after) = assumptions p
  /\ rules (snd after) = rules p
  /\ active_target_idx (snd after) <= active_target_idx p
  /\ (lines (snd after) =
         lines p ++ (if is_Ok (fst after) then [mkProofLine claimed rule_name deps] else [])
       \/ (fst after = Fail Undefined
           /\ lines (snd after) = lines p ++ [mkProofLine claimed rule_name deps])).
Proof.
  cbv zeta. rewrite add_line_to_proof_unfold. cbv zeta.
  match goal with |- context [match ?c with Ok _ => _ | Fail _ => _ end] =>
    destruct c as [[]|f] end.
  - destruct (find_completed_target (targets p) claimed 0) as [[i|]|f] eqn:E.
    + destruct ((i <=? active_target_idx p)%nat && (0 <? active_target_idx p)%nat);
        simpl; repeat split; try lia; left; reflexivity.
    + simpl; repeat split; try lia; left; reflexivity.
    + apply find_completed_target_Fail in E. subst f.
      simpl; repeat split; try lia. right. split; reflexivity.
  - simpl. repeat split; try lia. left. now rewrite app_nil_r.
Qed.

Lemma tactic_effect (c : call) (p : Proof) :
  is_tactic c = true ->
  lines (snd (perform c p)) = lines p
  /\ rules (snd (perform c p)) = rules p
  /\ active_target_idx (snd (perform c p)) = active_target_idx p
  /\ assumptions p `prefix_of` assumptions (snd (perform c p)).
Proof.
  assert (Hrefl : forall l : list FormulaPtr, l `prefix_of` l) by (intros l; reflexivity).
  assert (Hpush : forall (l : list FormulaPtr) a, l `prefix_of` l ++ [a])
    by (intros l a; apply prefix_app_r; reflexivity).
  destruct c; try discriminate; intros _; cbn [perform].
  - unfold instantiate_forall, bindM, this, liftM, update, retM, push_back, throw.
    cbv zeta. simpl.
    repeat match goal with
      | |- context [match ?x with _ => _ end] => destruct x eqn:?; simpl
      | |- context [if ?x then _ else _] => destruct x eqn:?; simpl
      end; repeat split; auto.
  - unfold instantiate_implication, bindM, this, liftM, update, retM, push_back, throw.
    cbv zeta. simpl.
    repeat match goal with
      | |- context [match ?x with _ => _ end] => destruct x eqn:?; simpl
      | |- context [if ?x then _ else _] => destruct x eqn:?; simpl
      end; repeat split; auto.
  - unfold instantiate_induction, bindM. rewrite get_active_target_unfold.
    unfold liftM, update, retM, push_back, throw. cbv zeta. simpl.
    repeat match goal with
      | |- context [match ?x with _ => _ end] => destruct x eqn:?; simpl
      | |- context [if ?x then _ else _] => destruct x eqn:?; simpl
      end; repeat split; auto.
  - unfold rewrite_target_using_equality, bindM, this, liftM, update, retM, push_back, throw.
    cbv zeta. simpl.
    repeat match goal with
      | |- context [match ?x with _ => _ end] => destruct x eqn:?; simpl
      | |- context [if ?x then _ else _] => destruct x eqn:?; simpl
      end; repeat split; auto.
Qed.

Lemma get_active_target_effect (p : Proof) :
  snd (perform call_get_active_target p) = p.
Proof.
  cbn [perform]. unfold bindM. rewrite get_active_target_unfold.
  destruct (length (targets p) <=? active_target_idx p)%nat; simpl; [reflexivity|].
  destruct (vec_at (targets p) (active_target_idx p)); reflexivity.
Qed.

Lemma perform_active_index (c : call) (p : Proof) :
  active_target_idx (snd (perform c p)) <= active_target_idx p.
Proof.
  destruct c;
    try (match goal with |- context [perform ?c p] =>
           destruct (tactic_effect c p eq_refl) as (_ & _ & -> & _) end; reflexivity).
  - reflexivity.
  - rewrite get_active_target_effect. reflexivity.
  - destruct (add_line_to_proof_effect claimed rule_name deps p) as (_ & _ & H & _).
    exact H.
Qed.

Lemma perform_lines_prefix (c : call) (p : Proof) :
  lines p `prefix_of` lines (snd (perform c p)).
Proof.
  destruct c;
    try (match goal with |- context [perform ?c p] =>
           destruct (tactic_effect c p eq_refl) as (-> & _) end; reflexivity).
  - reflexivity.
  - rewrite get_active_target_effect. reflexivity.
  - destruct (add_line_to_proof_effect claimed rule_name deps p) as (_ & _ & _ & [H|[_ H]]);
      cbn [perform]; rewrite H; apply prefix_app_r; reflexivity.
Qed.

Lemma perform_assumptions_prefix (c : call) (p : Proof) :
  assumptions p `prefix_of` assumptions (snd (perform c p)).
Proof.
  destruct c;
    try (match goal with |- context [perform ?c p] =>
           destruct (tactic_effect c p eq_refl) as (_ & _ & _ & H) end; exact H).
  - reflexivity.
  - rewrite get_active_target_effect. reflexivity.
  - destruct (add_line_to_proof_effect claimed rule_name deps p) as (H & _).
    cbn [perform]. rewrite H. reflexivity.
Qed.

(** Whatever holds of the start and is kept by every call holds at the end
    of a session. *)
Lemma session_preserves (R : Proof -> Proof -> Prop) :
  (forall p, R p p) ->
  (forall p q r, R p q -> R q r -> R p r) ->
  (forall c p, R p (snd (perform c p))) ->
  forall cs p, R p (session cs p).
Proof.
  intros Hrefl Htrans Hstep cs. induction cs as [|c rest IH]; intros p; simpl.
  - apply Hrefl.
  - pose proof (Hstep c p) as Hc.
    destruct (perform c p) as [[u|[e|]] p']; simpl in Hc.
    + eapply Htrans; [exact Hc | apply IH].
    + eapply Htrans; [exact Hc | apply IH].
    + exact Hc.
Qed.

Lemma session_active_index (cs : list call) (p : Proof) :
  active_target_idx (session cs p) <= active_target_idx p.
Proof.
  apply (session_preserves (fun a b => active_target_idx b <= active_target_idx a)).
  - intros; lia.
  - intros; lia.
  - intros; apply perform_active_index.
Qed.

Lemma fresh_session_active_index (cs : list call) (given : list FormulaPtr)
  (target : FormulaPtr) :
  active_target_idx (session cs (Proof_new given target)) = 0.
Proof.
  pose proof (session_active_index cs (Proof_new given target)) as H. simpl in H. lia.
Qed.

(** X1: no member function ever increases the active index, and in a session
    started on a freshly constructed proof it is always 0. *)
Theorem active_index_never_increases (c : call) (cs : list call) (p : Proof)
  (given : list FormulaPtr) (target : FormulaPtr) :
  active_target_idx (snd (perform c p)) <= active_target_idx p
  /\ active_target_idx (session cs p) <= active_target_idx p
  /\ active_target_idx (session cs (Proof_new given target)) = 0.
Proof.
  split; [apply perform_active_index|]. split; [apply session_active_index|].
  apply fresh_session_active_index.
Qed.

Lemma session_lines_prefix (cs : list call) (p : Proof) :
  lines p `prefix_of` lines (session cs p).
Proof.
  apply (session_preserves (fun a b => lines a `prefix_of` lines b)).
  - intros; reflexivity.
  - intros a b c0 H1 H2. etransitivity; eassumption.
  - apply perform_lines_prefix.
Qed.

Lemma session_assumptions_prefix (cs : list call) (p : Proof) :
  assumptions p `prefix_of` assumptions (session cs p).
Proof.
  apply (session_preserves (fun a b => assumptions a `prefix_of` assumptions b)).
  - intros; reflexivity.
  - intros a b c0 H1 H2. etransitivity; eassumption.
  - apply perform_assumptions_prefix.
Qed.

(** X2: the line log and the assumption vector are append-only: after any
    session the old log is a prefix of the new one, and so are the old
    assumptions. *)
Theorem lines_and_assumptions_are_append_only (cs : list call) (p : Proof) :
  lines p `prefix_of` lines (session cs p)
  /\ assumptions p `prefix_of` assumptions (session cs p).
Proof. split; [apply session_lines_prefix | apply session_assumptions_prefix]. Qed.

(** ** The rule registry of a fresh proof *)

Lemma Proof_new_rules (given : list FormulaPtr) (target : FormulaPtr) :
  rules (Proof_new given target) =
  <["AND" := free_rule and_rule]>
    (<["EQ" := free_rule eq_rule]>
       (<["FORALL" := free_rule forall_rule]>
          (<["ASSUMPTION" := assumption_closure]> ∅))).
Proof. reflexivity. Qed.

Lemma add_line_to_proof_unknown_rule (claimed : FormulaPtr) (rule_name : string)
  (deps : list Z) (p : Proof) :
  rules p !! rule_name = None ->
  add_line_to_proof claimed rule_name deps p
  = (Fail (Throw (invalid_argument ("Unknown rule: " +:+ rule_name))), p).
Proof.
  intros H. rewrite add_line_to_proof_unfold. cbv zeta.
  unfold find_rule. rewrite H. reflexivity.
Qed.

(** X3: a freshly constructed proof knows exactly the rules ASSUMPTION,
    FORALL, EQ and AND; a line that cites any other name (LEM, CASES and
    INDUCTION included, until they are registered) is rejected with
    "Unknown rule: <name>" and the proof is unchanged. *)
Theorem fresh_proof_knows_four_rules (given : list FormulaPtr) (target claimed : FormulaPtr)
  (rule_name : string) (deps : list Z) :
  rule_name <> "ASSUMPTION" -> rule_name <> "FORALL" ->
  rule_name <> "EQ" -> rule_name <> "AND" ->
  dom (rules (Proof_new given target))
    = ({["ASSUMPTION"; "FORALL"; "EQ"; "AND"]} : gset string)
  /\ add_line_to_proof claimed rule_name deps (Proof_new given target)
     = (Fail (Throw (invalid_argument ("Unknown rule: " +:+ rule_name))),
        Proof_new given target).
Proof.
  intros H1 H2 H3 H4. split.
  - rewrite Proof_new_rules. rewrite !dom_insert_L, dom_empty_L. set_solver.
  - apply add_line_to_proof_unknown_rule. rewrite Proof_new_rules.
    rewrite !lookup_insert_ne by congruence. apply lookup_empty.
Qed.

Lemma fresh_proof_knows_four_rules_witness :
  add_line_to_proof (make_or Demo.Px Demo.not_Px) "LEM" [] (Proof_new [] Demo.Px)
  = (Fail (Throw (invalid_argument "Unknown rule: LEM")), Proof_new [] Demo.Px).
Proof.
  apply (fresh_proof_knows_four_rules [] Demo.Px (make_or Demo.Px Demo.not_Px) "LEM" []);
    discriminate.
Defined.

(** ** Dependencies *)

Lemma dependency_statement_in_range (ls : list ProofLine) (idx : Z) :
  (0 <= idx < Z.of_nat (length ls))%Z ->
  exists line, ls !! Z.to_nat idx = Some line
               /\ dependency_statement ls idx = Ok (statement line).
Proof.
  intros H. unfold dependency_statement, vec_at.
  destruct (ls !! Z.to_nat idx) as [line|] eqn:E.
  - exists line. split; [reflexivity|].
    replace (idx <? 0)%Z with false by (symmetry; apply Z.ltb_ge; lia).
    replace (idx >=? Z.of_nat (length ls))%Z with false
      by (symmetry; rewrite Z.geb_leb; apply Z.leb_gt; lia).
    reflexivity.
  - apply lookup_ge_None in E. lia.
Qed.

Lemma dependency_statement_out_of_range (ls : list ProofLine) (idx : Z) :
  (idx < 0 \/ Z.of_nat (length ls) <= idx)%Z ->
  dependency_statement ls idx = Fail (Throw (invalid_argument "Invalid dependency index")).
Proof.
  intros H. unfold dependency_statement.
  destruct (idx <? 0)%Z eqn:E1; [reflexivity|].
  destruct (idx >=? Z.of_nat (length ls))%Z eqn:E2; [reflexivity|].
  apply Z.ltb_ge in E1. rewrite Z.geb_leb in E2. apply Z.leb_gt in E2. lia.
Qed.

Lemma gather_with_bad_index (ls : list ProofLine) (deps : list Z) :
  Exists (fun idx => idx < 0 \/ Z.of_nat (length ls) <= idx)%Z deps ->
  mapR (dependency_statement ls) deps
  = Fail (Throw (invalid_argument "Invalid dependency index")).
Proof.
  induction deps as [|idx deps IH]; intros H; [inversion H|].
  simpl.
  destruct (Z_lt_dec idx 0) as [Hneg|Hpos];
    [rewrite dependency_statement_out_of_range by lia; reflexivity|].
  destruct (Z_le_dec (Z.of_nat (length ls)) idx) as [Hbig|Hsmall];
    [rewrite dependency_statement_out_of_range by lia; reflexivity|].
  destruct (dependency_statement_in_range ls idx) as (line & _ & ->); [lia|].
  inversion H as [? ? Hbad|? ? Hrest]; subst; [lia|].
  simpl. rewrite IH by assumption. reflexivity.
Qed.

(** X4: a line that cites a registered rule and at least one dependency
    index that is negative or not below the current line count is rejected
    with "Invalid dependency index", before the rule is consulted; no self or
    forward reference is possible and the proof is unchanged. *)
Theorem out_of_range_dependency_is_rejected (claimed : FormulaPtr) (rule_name : string)
  (deps : list Z) (p : Proof) :
  is_Some (rules p !! rule_name) ->
  Exists (fun idx => idx < 0 \/ Z.of_nat (length (lines p)) <= idx)%Z deps ->
  add_line_to_proof claimed rule_name deps p
  = (Fail (Throw (invalid_argument "Invalid dependency index")), p).
Proof.
  intros [rule Hrule] Hbad. rewrite add_line_to_proof_unfold. cbv zeta.
  unfold find_rule. rewrite Hrule. simpl.
  rewrite (gather_with_bad_index _ _ Hbad). reflexivity.
Qed.

Lemma out_of_range_dependency_is_rejected_witness :
  let p := Proof_new [Demo.x_eq_2] Demo.x_eq_2 in
  length (lines p) = 0
  /\ add_line_to_proof Demo.x_eq_2 "AND" [0%Z; 1%Z] p
     = (Fail (Throw (invalid_argument "Invalid dependency index")), p).
Proof.
  split; [reflexivity|].
  apply (out_of_range_dependency_is_rejected Demo.x_eq_2 "AND" [0%Z; 1%Z]
           (Proof_new [Demo.x_eq_2] Demo.x_eq_2)).
  - exists (free_rule and_rule). reflexivity.
  - apply Exists_cons_hd. right. simpl. lia.
Defined.

Lemma add_line_to_proof_accepted_lines (claimed : FormulaPtr) (rule_name : string)
  (deps : list Z) (p p' : Proof) :
  add_line_to_proof claimed rule_name deps p = (Ok tt, p') ->
  lines p' = lines p ++ [mkProofLine claimed rule_name deps].
Proof.
  intros H.
  destruct (add_line_to_proof_effect claimed rule_name deps p) as (_ & _ & _ & [E|[E _]]);
    rewrite H in E; simpl in E; [exact E | discriminate].
Qed.

(** X5: the index a line gets when it is accepted is permanent: whatever
    calls follow, a dependency on that index resolves to the formula that
    was claimed. *)
Theorem accepted_line_keeps_its_index (claimed : FormulaPtr) (rule_name : string)
  (deps : list Z) (p p' : Proof) (cs : list call) :
  add_line_to_proof claimed rule_name deps p = (Ok tt, p') ->
  lines p' = lines p ++ [mkProofLine claimed rule_name deps]
  /\ dependency_statement (lines (session cs p')) (Z.of_nat (length (lines p)))
     = Ok claimed.
Proof.
  intros H. pose proof (add_line_to_proof_accepted_lines _ _ _ _ _ H) as Hl.
  split; [exact Hl|].
  destruct (session_lines_prefix cs p') as [k Hk].
  destruct (dependency_statement_in_range (lines (session cs p'))
              (Z.of_nat (length (lines p)))) as (line & Hline & ->).
  - rewrite Hk, Hl, !length_app. simpl. lia.
  - rewrite Nat2Z.id, Hk, Hl in Hline.
    rewrite <- app_assoc in Hline. rewrite lookup_app_r in Hline by lia.
    rewrite Nat.sub_diag in Hline. simpl in Hline. injection Hline as <-. reflexivity.
Qed.

Lemma accepted_line_keeps_its_index_witness :
  let p := Proof_new [Demo.imp1; Demo.imp2] Demo.Qx in
  let p' := snd (add_line_to_proof Demo.imp1 "ASSUMPTION" [] p) in
  dependency_statement
    (lines (session [call_add_line_to_proof Demo.imp2 "ASSUMPTION" []] p')) 0
  = Ok Demo.imp1.
Proof.
  apply (accepted_line_keeps_its_index Demo.imp1 "ASSUMPTION" []
           (Proof_new [Demo.imp1; Demo.imp2] Demo.Qx)
           (snd (add_line_to_proof Demo.imp1 "ASSUMPTION" []
                   (Proof_new [Demo.imp1; Demo.imp2] Demo.Qx)))
           [call_add_line_to_proof Demo.imp2 "ASSUMPTION" []]).
  reflexivity.
Defined.

(** ** Goal tactics: failure and shape *)

(** X6: a goal tactic that does not return normally (wrong shape of the
    active target, no target, bad line index, not an equality) has not
    touched the proof: instantiate_forall, instantiate_implication,
    instantiate_induction and rewrite_target_using_equality mutate the
    object only on the path that succeeds. *)
Theorem failed_tactic_leaves_proof_unchanged (c : call) (p p' : Proof) (f : failure) :
  is_tactic c = true ->
  perform c p = (Fail f, p') ->
  p' = p.
Proof.
  destruct c; try discriminate; intros _; cbn [perform].
  - unfold instantiate_forall, bindM, this, liftM, update, retM, push_back, throw.
    cbv zeta. simpl.
    destruct (length (targets p) =? 0)%nat; [congruence|].
    destruct (vec_at (targets p) (active_target_idx p)) as [g|]; simpl; [|congruence].
    destruct (data g) as [[| | | | | |v D B|]|]; simpl; try congruence.
    match goal with |- context [substitute_in_formula B (make_variable v) ?w] =>
      destruct (substitute_in_formula_total B v w) as [r ->] end.
    simpl. discriminate.
  - unfold instantiate_implication, bindM, this, liftM, update, retM, push_back, throw.
    cbv zeta. simpl.
    destruct (length (targets p) =? 0)%nat; [congruence|].
    destruct (vec_at (targets p) (active_target_idx p)) as [g|]; simpl; [|congruence].
    destruct (data g) as [[]|]; simpl; congruence.
  - unfold instantiate_induction, bindM. rewrite get_active_target_unfold.
    unfold liftM, update, retM, push_back, throw. cbv zeta.
    destruct (length (targets p) <=? active_target_idx p)%nat; simpl; [congruence|].
    destruct (vec_at (targets p) (active_target_idx p)) as [g|]; simpl; [|congruence].
    destruct (data g) as [[| | | | | |v D B|]|]; simpl; try congruence.
    destruct (substitute_in_formula_total B v (make_constant "0")) as [r0 ->].
    destruct (substitute_in_formula_total B v (make_variable "k")) as [r1 ->].
    destruct (substitute_in_formula_total B v
                (make_function "+" [make_variable "k"; make_constant "1"])) as [r2 ->].
    simpl. discriminate.
  - unfold rewrite_target_using_equality, bindM, this, liftM, update, retM, push_back, throw.
    cbv zeta. simpl.
    destruct (length (targets p) =? 0)%nat; [congruence|].
    destruct ((equality_proof_line <? 0)%Z
              || (equality_proof_line >=? Z.of_nat (length (lines p)))%Z); [congruence|].
    destruct (vec_at (lines p) (Z.to_nat equality_proof_line)) as [line|]; simpl;
      [|congruence].
    destruct (data (statement line)) as [[l r| | | | | | |]|]; simpl; try congruence.
    destruct (vec_at (targets p) (active_target_idx p)) as [g|]; simpl; [|congruence].
    destruct (substitute_term_in_formula g l r); simpl; congruence.
Qed.

Lemma failed_tactic_leaves_proof_unchanged_witness :
  let p := Proof_new [] Demo.x_eq_2 in
  perform call_instantiate_implication p
  = (Fail (Throw (invalid_argument
                    "instantiate_implication: active goal is not an implication formula")),
     p)
  /\ snd (perform call_instantiate_implication p) = p.
Proof.
  split; [reflexivity|].
  apply (failed_tactic_leaves_proof_unchanged call_instantiate_implication
           (Proof_new [] Demo.x_eq_2)
           (snd (perform call_instantiate_implication (Proof_new [] Demo.x_eq_2)))
           (Throw (invalid_argument
                     "instantiate_implication: active goal is not an implication formula")));
    reflexivity.
Defined.

(** X7: [instantiate_implication] returns normally exactly when the active
    target is an implication; it then appends the antecedent to the
    assumptions, pushes the old target vector on the history and puts the
    consequent in place of the active target, touching nothing else. *)
Theorem instantiate_implication_spec (p p' : Proof) :
  instantiate_implication p = (Ok tt, p') <->
  exists l r,
    targets p !! active_target_idx p = Some (make_implies l r)
    /\ p' = mkProof (lines p) (assumptions p ++ [l])
               (<[active_target_idx p := r]> (targets p))
               (active_target_idx p) (target_history p ++ [targets p]) (rules p).
Proof.
  unfold instantiate_implication, bindM, this, liftM, update, retM, push_back, throw, vec_at.
  cbv zeta. simpl. split.
  - destruct (length (targets p) =? 0)%nat; [discriminate|].
    destruct (targets p !! active_target_idx p) as [g|]; simpl; [|discriminate].
    destruct g as [[| | | | |l r| |]|]; simpl; try discriminate.
    intros H. injection H as <-. exists l, r. split; reflexivity.
  - intros (l & r & Hactive & ->).
    assert (Hlen : (length (targets p) =? 0)%nat = false).
    { apply lookup_lt_Some in Hactive. apply Nat.eqb_neq. lia. }
    rewrite Hlen, Hactive. reflexivity.
Qed.

(** X8: on an active target [forall v in D, P], [instantiate_induction]
    replaces it by the base case [P(v := 0)] and appends the step case
    [forall k in ℕ, P(v := k) -> P(v := k + 1)] as a new last target: the
    target count grows by one, the active index, assumptions and lines stay,
    and the step case is stated over the fixed name "k" and the constant
    "ℕ" whatever [v] and [D] are. *)
Theorem instantiate_induction_splits_the_goal (p : Proof) (v : string) (D : TermPtr)
  (P : FormulaPtr) :
  targets p !! active_target_idx p = Some (make_forall v D P) ->
  exists P0 Pk Psucc,
    substitute_in_formula P (make_variable v) (make_constant "0") = Ok P0
    /\ substitute_in_formula P (make_variable v) (make_variable "k") = Ok Pk
    /\ substitute_in_formula P (make_variable v)
         (make_function "+" [make_variable "k"; make_constant "1"]) = Ok Psucc
    /\ instantiate_induction p =
       (Ok tt,
        mkProof (lines p) (assumptions p)
          (<[active_target_idx p := P0]> (targets p)
           ++ [make_forall "k" (make_constant "ℕ") (make_implies Pk Psucc)])
          (active_target_idx p) (target_history p ++ [targets p]) (rules p))
    /\ length (targets (snd (instantiate_induction p))) = S (length (targets p)).
Proof.
  intros Hactive.
  destruct (substitute_in_formula_total P v (make_constant "0")) as [P0 H0].
  destruct (substitute_in_formula_total P v (make_variable "k")) as [Pk Hk].
  destruct (substitute_in_formula_total P v
              (make_function "+" [make_variable "k"; make_constant "1"])) as [Ps Hs].
  exists P0, Pk, Ps. repeat (split; [assumption|]).
  assert (E : instantiate_induction p =
       (Ok tt,
        mkProof (lines p) (assumptions p)
          (<[active_target_idx p := P0]> (targets p)
           ++ [make_forall "k" (make_constant "ℕ") (make_implies Pk Ps)])
          (active_target_idx p) (target_history p ++ [targets p]) (rules p))).
  { unfold instantiate_induction, bindM. rewrite get_active_target_unfold.
    unfold liftM, update, retM, push_back, throw, vec_at. cbv zeta.
    assert (Hlen : (length (targets p) <=? active_target_idx p)%nat = false).
    { apply lookup_lt_Some in Hactive. apply Nat.leb_gt. lia. }
    rewrite Hlen, Hactive. simpl. rewrite H0, Hk, Hs. reflexivity. }
  split; [exact E|]. rewrite E. simpl.
  rewrite length_app, length_insert. simpl. lia.
Qed.

Lemma instantiate_induction_splits_the_goal_witness :
  let p := Proof_new [Demo.sum_axiom_base; Demo.sum_axiom_recursive] Demo.sum_target in
  length (targets (snd (instantiate_induction p))) = 2.
Proof.
  destruct (instantiate_induction_splits_the_goal
              (Proof_new [Demo.sum_axiom_base; Demo.sum_axiom_recursive] Demo.sum_target)
              "n" Demo.natural_numbers (make_eq (Demo.sum_fn Demo.n) Demo.n) eq_refl)
    as (P0 & Pk & Ps & _ & _ & _ & _ & H).
  exact H.
Defined.

(** ** Lines that discharge nothing *)

(** X9: an accepted line whose text differs from the text of every target
    is only appended: targets, active index, assumptions, history and rules
    are as before. *)
Theorem accepted_line_without_match_only_appends (claimed : FormulaPtr)
  (rule_name : string) (deps : list Z) (p p' : Proof) :
  add_line_to_proof claimed rule_name deps p = (Ok tt, p') ->
  (forall t, t ∈ targets p ->
     same_text (FormulaPtr_to_string t) (FormulaPtr_to_string claimed) = Ok false) ->
  p' = set_lines (lines p ++ [mkProofLine claimed rule_name deps]) p.
Proof.
  intros Hcall Hnone.
  rewrite add_line_to_proof_unfold in Hcall. cbv zeta in Hcall.
  match type of Hcall with context [match ?c with Ok _ => _ | Fail _ => _ end] =>
    destruct c as [[]|f] end; [|discriminate].
  destruct (find_completed_target (targets p) claimed 0) as [[j|]|f] eqn:E;
    [| |discriminate].
  - destruct (find_completed_target_Some _ _ _ _ E) as (i & t & _ & Hi & Ht & _).
    assert (Hin : t ∈ targets p) by (apply list_elem_of_lookup; eauto).
    rewrite (Hnone t Hin) in Ht. discriminate.
  - injection Hcall as <-. reflexivity.
Qed.

Lemma accepted_line_without_match_only_appends_witness :
  let p := Proof_new [Demo.x_eq_2; Demo.Qx] Demo.Qx in
  snd (add_line_to_proof Demo.x_eq_2 "ASSUMPTION" [] p)
  = set_lines [mkProofLine Demo.x_eq_2 "ASSUMPTION" []] p.
Proof.
  apply (accepted_line_without_match_only_appends Demo.x_eq_2 "ASSUMPTION" []
           (Proof_new [Demo.x_eq_2; Demo.Qx] Demo.Qx)).
  - reflexivity.
  - intros t Ht. apply list_elem_of_singleton in Ht. subst t. reflexivity.
Defined.

(** ** The ASSUMPTION rule *)

Lemma same_text_refl (p : FormulaPtr) :
  FormulaPtr_no_null p = true ->
  same_text (FormulaPtr_to_string p) (FormulaPtr_to_string p) = Ok true.
Proof.
  intros H. destruct (FormulaPtr_no_null_renders _ H) as [s ->].
  rewrite same_text_Ok, String.eqb_refl. reflexivity.
Qed.

Lemma same_text_total (a b : FormulaPtr) :
  FormulaPtr_no_null a = true -> FormulaPtr_no_null b = true ->
  exists same, same_text (FormulaPtr_to_string a) (FormulaPtr_to_string b) = Ok same.
Proof.
  intros Ha Hb. destruct (FormulaPtr_no_null_renders _ Ha) as [sa ->].
  destruct (FormulaPtr_no_null_renders _ Hb) as [sb ->].
  rewrite same_text_Ok. eauto.
Qed.

Lemma assumption_lookup_member (asms : list FormulaPtr) (claimed : FormulaPtr) :
  forallb FormulaPtr_no_null asms = true ->
  claimed ∈ asms ->
  assumption_lookup asms claimed = Ok claimed.
Proof.
  intros Hnn Hin.
  assert (Hc : FormulaPtr_no_null claimed = true).
  { apply forallb_true_Forall in Hnn. rewrite Forall_forall in Hnn. auto. }
  induction asms as [|a rest IH]; [inversion Hin|].
  simpl in Hnn. apply andb_prop in Hnn as [Ha Hrest]. simpl.
  destruct (same_text_total a claimed Ha Hc) as [[|] E]; rewrite E; simpl; [reflexivity|].
  apply elem_of_cons in Hin as [->|Hin]; [|auto].
  rewrite same_text_refl in E by assumption. discriminate.
Qed.

Lemma assumption_lookup_sound (asms : list FormulaPtr) (claimed r : FormulaPtr) :
  assumption_lookup asms claimed = Ok r ->
  r = claimed
  /\ exists a, a ∈ asms
       /\ same_text (FormulaPtr_to_string a) (FormulaPtr_to_string claimed) = Ok true.
Proof.
  induction asms as [|a rest IH]; simpl; intros H.
  - destruct (FormulaPtr_to_string claimed); discriminate.
  - destruct (same_text (FormulaPtr_to_string a) (FormulaPtr_to_string claimed))
      as [[|]|f] eqn:E; simpl in H; [| |discriminate].
    + injection H as <-. split; [reflexivity|]. exists a. split; [left|exact E].
    + destruct (IH H) as (-> & a' & Hin & Ha'). split; [reflexivity|].
      exists a'. split; [right; exact Hin | exact Ha'].
Qed.

(** X10: the ASSUMPTION rule returns its claim for every member of a
    null-free assumption vector, and whenever it returns at all the result
    is the claim and some assumption has the text of the claim; it never
    looks at the dependencies. *)
Theorem assumption_rule_accepts_the_assumptions (asms deps : list FormulaPtr)
  (claimed : FormulaPtr) :
  forallb FormulaPtr_no_null asms = true ->
  claimed ∈ asms ->
  assumption_closure asms deps claimed = Ok claimed
  /\ (forall others c r, assumption_closure others deps c = Ok r ->
        r = c /\ exists a, a ∈ others
          /\ same_text (FormulaPtr_to_string a) (FormulaPtr_to_string c) = Ok true).
Proof.
  intros Hnn Hin. split.
  - apply assumption_lookup_member; assumption.
  - intros others c r. apply assumption_lookup_sound.
Qed.

Lemma assumption_rule_accepts_the_assumptions_witness :
  assumption_closure [Demo.imp1; Demo.imp2] [] Demo.imp2 = Ok Demo.imp2.
Proof.
  apply (assumption_rule_accepts_the_assumptions [Demo.imp1; Demo.imp2] [] Demo.imp2).
  - reflexivity.
  - apply list_elem_of_further, list_elem_of_here.
Defined.

(** ** Tactics and rules together *)

Lemma find_completed_target_total (ts : list FormulaPtr) (claimed : FormulaPtr) (i : nat) :
  forallb FormulaPtr_no_null ts = true ->
  FormulaPtr_no_null claimed = true ->
  exists found, find_completed_target ts claimed i = Ok found.
Proof.
  intros Hts Hc. revert i. induction ts as [|t rest IH]; intros i; simpl; [eauto|].
  simpl in Hts. apply andb_prop in Hts as [Ht Hrest].
  destruct (same_text_total t claimed Ht Hc) as [[|] ->]; simpl; eauto.
Qed.

Lemma forallb_insert {A : Type} (f : A -> bool) (l : list A) (i : nat) (x : A) :
  forallb f l = true -> f x = true -> forallb f (<[i := x]> l) = true.
Proof.
  revert i. induction l as [|a l IH]; intros i Hl Hx; [reflexivity|].
  simpl in Hl. apply andb_prop in Hl as [Ha Hl].
  destruct i; simpl; rewrite ?Hx, ?Ha; simpl; auto.
Qed.

Lemma forallb_lookup {A : Type} (f : A -> bool) (l : list A) (i : nat) (x : A) :
  forallb f l = true -> l !! i = Some x -> f x = true.
Proof.
  intros Hl Hi. apply forallb_true_Forall in Hl.
  rewrite Forall_forall in Hl. apply Hl. apply list_elem_of_lookup. eauto.
Qed.

Lemma add_line_by_assumption (claimed : FormulaPtr) (p : Proof) :
  rules p !! "ASSUMPTION" = Some assumption_closure ->
  Proof_no_null p = true ->
  claimed ∈ assumptions p ->
  exists p', add_line_to_proof claimed "ASSUMPTION" [] p = (Ok tt, p')
             /\ lines p' = lines p ++ [mkProofLine claimed "ASSUMPTION" []]
             /\ assumptions p' = assumptions p.
Proof.
  intros Hrule Hnn Hin. unfold Proof_no_null in Hnn. apply andb_prop in Hnn as [Ha Ht].
  assert (Hc : FormulaPtr_no_null claimed = true).
  { apply forallb_true_Forall in Ha. rewrite Forall_forall in Ha. auto. }
  destruct (FormulaPtr_no_null_renders _ Hc) as [sc Hsc].
  destruct (find_completed_target_total (targets p) claimed 0 Ht Hc) as [found Hfound].
  rewrite add_line_to_proof_unfold. cbv zeta.
  unfold find_rule. rewrite Hrule. simpl. unfold assumption_closure.
  rewrite (assumption_lookup_member _ _ Ha Hin). simpl.
  rewrite Hsc. simpl. rewrite String.eqb_refl. simpl. rewrite Hfound.
  destruct found as [i|]; [|eexists; repeat split].
  destruct ((i <=? active_target_idx p)%nat && (0 <? active_target_idx p)%nat);
    eexists; repeat split.
Qed.

(** X11: implication introduction composes with the ASSUMPTION rule: on a
    null-free proof whose active target is [l -> r], after
    [instantiate_implication] the antecedent [l] is accepted as a line by
    ASSUMPTION, and it is the last assumption. *)
Theorem antecedent_becomes_assumable (p : Proof) (l r : FormulaPtr) :
  rules p !! "ASSUMPTION" = Some assumption_closure ->
  Proof_no_null p = true ->
  targets p !! active_target_idx p = Some (make_implies l r) ->
  exists p1 p2,
    instantiate_implication p = (Ok tt, p1)
    /\ targets p1 = <[active_target_idx p := r]> (targets p)
    /\ add_line_to_proof l "ASSUMPTION" [] p1 = (Ok tt, p2)
    /\ lines p2 = lines p ++ [mkProofLine l "ASSUMPTION" []]
    /\ assumptions p2 = assumptions p ++ [l].
Proof.
  intros Hrule Hnn Hactive.
  pose proof Hnn as Hnn'. unfold Proof_no_null in Hnn'.
  apply andb_prop in Hnn' as [Ha Ht].
  pose proof (forallb_lookup _ _ _ _ Ht Hactive) as Hlr.
  change (FormulaPtr_no_null l && FormulaPtr_no_null r = true) in Hlr.
  apply andb_prop in Hlr as [Hl Hr].
  set (p1 := mkProof (lines p) (assumptions p ++ [l])
               (<[active_target_idx p := r]> (targets p))
               (active_target_idx p) (target_history p ++ [targets p]) (rules p)).
  assert (H1 : instantiate_implication p = (Ok tt, p1)).
  { unfold instantiate_implication, bindM, this, liftM, update, retM, push_back, vec_at.
    cbv zeta. simpl.
    assert (Hlen : (length (targets p) =? 0)%nat = false).
    { apply lookup_lt_Some in Hactive. apply Nat.eqb_neq. lia. }
    rewrite Hlen, Hactive. reflexivity. }
  destruct (add_line_by_assumption l p1) as (p2 & H2 & Hlines & Hasms).
  - exact Hrule.
  - unfold Proof_no_null, p1. simpl. apply andb_true_intro. split.
    + rewrite forallb_app, Ha. simpl. now rewrite Hl.
    + apply forallb_insert; assumption.
  - unfold p1. simpl. apply elem_of_app. right. apply list_elem_of_here.
  - exists p1, p2. repeat split; assumption.
Qed.

Lemma antecedent_becomes_assumable_witness :
  let p := Proof_new [] Demo.imp1 in
  exists p1 p2,
    instantiate_implication p = (Ok tt, p1)
    /\ targets p1 = [Demo.Qx]
    /\ add_line_to_proof Demo.Px "ASSUMPTION" [] p1 = (Ok tt, p2)
    /\ lines p2 = [mkProofLine Demo.Px "ASSUMPTION" []]
    /\ assumptions p2 = [Demo.Px].
Proof.
  apply (antecedent_becomes_assumable (Proof_new [] Demo.imp1) Demo.Px Demo.Qx);
    reflexivity.
Defined.

(** X12: a proof whose target is one of its null-free assumptions is
    completed by a single ASSUMPTION line: the line is accepted, the target
    vector becomes empty and [is_valid] answers [true]. *)
Theorem assumed_target_is_proved_in_one_line (given : list FormulaPtr) (target : FormulaPtr) :
  forallb FormulaPtr_no_null given = true ->
  target ∈ given ->
  let after := add_line_to_proof target "ASSUMPTION" [] (Proof_new given target) in
  fst after = Ok tt
  /\ lines (snd after) = [mkProofLine target "ASSUMPTION" []]
  /\ targets (snd after) = []
  /\ is_valid (snd after) = true.
Proof.
  intros Hnn Hin. cbv zeta.
  assert (Hc : FormulaPtr_no_null target = true).
  { apply forallb_true_Forall in Hnn. rewrite Forall_forall in Hnn. auto. }
  destruct (FormulaPtr_no_null_renders _ Hc) as [sc Hsc].
  rewrite add_line_to_proof_unfold. cbv zeta.
  unfold find_rule. rewrite Proof_new_rules.
  rewrite !lookup_insert_ne by discriminate. rewrite lookup_insert_eq.
  simpl. unfold assumption_closure.
  rewrite (assumption_lookup_member _ _ Hnn Hin). simpl.
  rewrite !Hsc. simpl. rewrite String.eqb_refl. simpl. repeat split.
Qed.

Lemma assumed_target_is_proved_in_one_line_witness :
  is_valid (snd (add_line_to_proof Demo.Qx "ASSUMPTION" []
                   (Proof_new [Demo.Px; Demo.Qx] Demo.Qx))) = true.
Proof.
  apply (assumed_target_is_proved_in_one_line [Demo.Px; Demo.Qx] Demo.Qx).
  - reflexivity.
  - apply list_elem_of_further, list_elem_of_here.
Defined.

(** ** Variable analysis *)

Lemma occurs_in_term_at_args (v f : string) (args : list TermPtr) :
  occurs_in_term_at v (FunctionTerm f args) = existsb (occurs_in_term v) args
  /\ occurs_in_term_at v (TupleTerm args) = existsb (occurs_in_term v) args.
Proof. split; reflexivity. Qed.

Lemma collect_vars_args (x : string) (args : list TermPtr) :
  Forall (from_option
            (fun u => forall vars, x ∈ collect_vars_in_term_at u vars
                                   <-> x ∈ vars \/ occurs_in_term_at x u = true) True) args ->
  forall vars : gset string,
    x ∈ foldl (fun acc p => collect_vars_in_term p acc) vars args
    <-> x ∈ vars \/ existsb (occurs_in_term x) args = true.
Proof.
  induction 1 as [|a l Ha _ IH]; intros vars; simpl.
  - split; [auto | intros [H|H]; [exact H | discriminate]].
  - rewrite IH. rewrite orb_true_iff.
    destruct a as [u|]; simpl in *.
    + rewrite Ha. tauto.
    + split; [intros [H|H]; auto | intros [H|[H|H]]; auto; discriminate].
Qed.

Lemma collect_vars_in_term_at_spec (t : Term) (x : string) (vars : gset string) :
  x ∈ collect_vars_in_term_at t vars <-> x ∈ vars \/ occurs_in_term_at x t = true.
Proof.
  revert vars. induction t as [var|c|f args IH|args IH] using Term_nested_ind;
    intros vars.
  - simpl. rewrite String.eqb_eq, elem_of_union, elem_of_singleton.
    split; intros [Hx|Hx]; auto.
  - simpl. split; [auto | intros [H|H]; [exact H | discriminate]].
  - apply (collect_vars_args x args IH vars).
  - apply (collect_vars_args x args IH vars).
Qed.

Lemma collect_vars_in_term_spec (t : TermPtr) (x : string) (vars : gset string) :
  x ∈ collect_vars_in_term t vars <-> x ∈ vars \/ occurs_in_term x t = true.
Proof.
  destruct t as [u|]; simpl; [apply collect_vars_in_term_at_spec|].
  split; [auto | intros [H|H]; [exact H | discriminate]].
Qed.

Lemma collect_vars_relation_args (x : string) (args : list TermPtr) (vars : gset string) :
  x ∈ foldl (fun acc arg => collect_vars_in_term arg acc) vars args
  <-> x ∈ vars \/ existsb (occurs_in_term x) args = true.
Proof.
  apply collect_vars_args. apply Forall_forall. intros [u|] _; simpl; [|exact I].
  intros vars'. apply collect_vars_in_term_at_spec.
Qed.

(** Every free variable is collected, and collecting never forgets. *)
Lemma collect_vars_in_formula_at_ge (f : Formula) (x : string) (vars : gset string) :
  x ∈ vars \/ is_free_in_at x f = true -> x ∈ collect_vars_in_formula_at f vars.
Proof.
  assert (Hptr : forall (p : FormulaPtr),
             from_option (fun g => forall vars, x ∈ vars \/ is_free_in_at x g = true ->
                                   x ∈ collect_vars_in_formula_at g vars) True p ->
             forall vars, x ∈ vars \/ is_free_in x p = true ->
                          x ∈ collect_vars_in_formula p vars).
  { intros [g|] Hg vars' H; simpl in *; [auto|].
    destruct H as [H|H]; [exact H | discriminate]. }
  revert vars.
  induction f as [l r|R args|inner IH|l r IHl IHr|l r IHl IHr|l r IHl IHr
                 |w domain inner IH|w domain inner IH] using Formula_nested_ind;
    intros vars H.
  - simpl in *. rewrite !collect_vars_in_term_spec. rewrite orb_true_iff in H. tauto.
  - simpl in *. apply collect_vars_relation_args. exact H.
  - apply (Hptr inner IH vars). exact H.
  - simpl in H. rewrite orb_true_iff in H.
    apply (Hptr r IHr). destruct H as [H|[H|H]]; auto; left; apply (Hptr l IHl); auto.
  - simpl in H. rewrite orb_true_iff in H.
    apply (Hptr r IHr). destruct H as [H|[H|H]]; auto; left; apply (Hptr l IHl); auto.
  - simpl in H. rewrite orb_true_iff in H.
    apply (Hptr r IHr). destruct H as [H|[H|H]]; auto; left; apply (Hptr l IHl); auto.
  - apply (Hptr inner IH vars). simpl in H.
    destruct (String.eqb w x); [destruct H as [H|H]; [auto | discriminate] | exact H].
  - apply (Hptr inner IH vars). simpl in H.
    destruct (String.eqb w x); [destruct H as [H|H]; [auto | discriminate] | exact H].
Qed.

(** X13: [is_sentence] only tests the variables it collected, yet it
    answers [true] exactly when no variable whatsoever is free in the
    formula: every free variable is among the collected ones. *)
Theorem is_sentence_iff_no_free_variable (f : FormulaPtr) :
  is_sentence f = true <-> forall v, is_free_in v f = false.
Proof.
  unfold is_sentence. cbv zeta. rewrite forallb_forall. split.
  - intros H v. destruct (is_free_in v f) eqn:E; [|reflexivity].
    assert (Hin : v ∈ collect_vars_in_formula f ∅).
    { destruct f as [g|]; simpl in *; [|discriminate].
      apply collect_vars_in_formula_at_ge. right. exact E. }
    apply elem_of_elements, list_elem_of_In in Hin.
    specialize (H v Hin). rewrite E in H. discriminate.
  - intros H v _. rewrite H. reflexivity.
Qed.

(** ** Variable substitution and variable analysis *)

Lemma mapR_Forall2 {A B : Type} (f : A -> result B) (l : list A) (rs : list B) :
  mapR f l = Ok rs -> Forall2 (fun a r => f a = Ok r) l rs.
Proof.
  revert rs. induction l as [|a l IH]; simpl; intros rs H.
  - injection H as <-. constructor.
  - apply bindR_Ok in H as (y & Hy & H). apply bindR_Ok in H as (ys & Hys & H).
    injection H as <-. constructor; auto.
Qed.

Lemma mapR_id {A : Type} (f : A -> result A) (l : list A) :
  Forall (fun a => f a = Ok a) l -> mapR f l = Ok l.
Proof.
  induction 1 as [|a l Ha _ IH]; simpl; [reflexivity|]. rewrite Ha, IH. reflexivity.
Qed.

Lemma substitute_in_formula_at_unfold (phi : Formula) (var t : TermPtr) :
  substitute_in_formula_at phi var t =
  match phi with
  | EqualityFormula l r =>
      let* new_l := substitute_in_term l var t in
      let* new_r := substitute_in_term r var t in
      Ok (make_eq new_l new_r)
  | RelationFormula R args =>
      let* new_args := mapR (fun arg => substitute_in_term arg var t) args in
      Ok (make_rel R new_args)
  | NotFormula inner =>
      let* new_inner := substitute_in_formula inner var t in
      Ok (make_not new_inner)
  | OrFormula l r =>
      let* new_l := substitute_in_formula l var t in
      let* new_r := substitute_in_formula r var t in
      Ok (make_or new_l new_r)
  | AndFormula l r =>
      let* new_l := substitute_in_formula l var t in
      let* new_r := substitute_in_formula r var t in
      Ok (make_and new_l new_r)
  | ImpliesFormula l r =>
      let* new_l := substitute_in_formula l var t in
      let* new_r := substitute_in_formula r var t in
      Ok (make_implies new_l new_r)
  | ForallFormula v domain inner =>
      let* bound := names_variable v var in
      if bound then Ok (Some phi)
      else
        let* new_inner := substitute_in_formula inner var t in
        Ok (make_forall v domain new_inner)
  | ExistsFormula v domain inner =>
      let* bound := names_variable v var in
      if bound then Ok (Some phi)
      else
        let* new_inner := substitute_in_formula inner var t in
        Ok (make_exists v domain new_inner)
  end.
Proof. destruct phi; reflexivity. Qed.

Lemma is_free_in_at_unfold (v : string) (f : Formula) :
  is_free_in_at v f =
  match f with
  | EqualityFormula l r => occurs_in_term v l || occurs_in_term v r
  | RelationFormula _ args => existsb (occurs_in_term v) args
  | NotFormula inner => is_free_in v inner
  | OrFormula l r | AndFormula l r | ImpliesFormula l r =>
      is_free_in v l || is_free_in v r
  | ForallFormula w _ inner | ExistsFormula w _ inner =>
      if String.eqb w v then false else is_free_in v inner
  end.
Proof. destruct f; reflexivity. Qed.

Lemma Formula_plain_unfold (phi : Formula) :
  Formula_plain phi =
  match phi with
  | EqualityFormula l r => TermPtr_plain l && TermPtr_plain r
  | RelationFormula _ args => forallb TermPtr_plain args
  | NotFormula inner => FormulaPtr_plain inner
  | OrFormula l r | AndFormula l r | ImpliesFormula l r =>
      FormulaPtr_plain l && FormulaPtr_plain r
  | ForallFormula _ domain inner | ExistsFormula _ domain inner =>
      TermPtr_no_null domain && FormulaPtr_plain inner
  end.
Proof. destruct phi; reflexivity. Qed.

(** *** Terms *)

Lemma substitute_in_term_at_eliminates (u : Term) (v : string) (t r : TermPtr) :
  occurs_in_term v t = false ->
  substitute_in_term_at u (make_variable v) t = Ok r ->
  occurs_in_term v r = false.
Proof.
  intros Ht. revert r.
  induction u as [x|c|f args IH|args IH] using Term_nested_ind; intros r H.
  - simpl in H. destruct (String.eqb x v) eqn:E; injection H as <-;
      [exact Ht | simpl; exact E].
  - simpl in H. injection H as <-. reflexivity.
  - rewrite substitute_in_term_at_function in H. cbv zeta in H.
    apply bindR_Ok in H as (rs & Hrs & H). injection H as <-.
    apply mapR_Forall2 in Hrs. simpl.
    change (existsb (occurs_in_term v) rs = false).
    induction Hrs as [|a r' l rs' Har _ IHrs]; [reflexivity|].
    inversion IH as [|? ? Ha IH']; subst. simpl.
    rewrite (IHrs IH'), orb_false_r.
    destruct a as [a|]; simpl in *; [eauto | injection Har as <-; reflexivity].
  - simpl in H. injection H as <-. reflexivity.
Qed.

Lemma substitute_in_term_eliminates (u : TermPtr) (v : string) (t r : TermPtr) :
  occurs_in_term v t = false ->
  substitute_in_term u (make_variable v) t = Ok r ->
  occurs_in_term v r = false.
Proof.
  destruct u as [u|]; simpl; [apply substitute_in_term_at_eliminates|].
  intros _ H. injection H as <-. reflexivity.
Qed.

Lemma substitute_in_term_at_plain_id (u : Term) (v : string) (t : TermPtr) :
  Term_plain u = true ->
  occurs_in_term_at v u = false ->
  substitute_in_term_at u (make_variable v) t = Ok (Some u).
Proof.
  induction u as [x|c|f args IH|args IH] using Term_nested_ind; intros Hp Ho.
  - simpl in *. rewrite Ho. reflexivity.
  - reflexivity.
  - rewrite substitute_in_term_at_function. cbv zeta.
    rewrite (mapR_id _ args); [reflexivity|].
    simpl in Hp. apply forallb_true_Forall in Hp.
    rewrite (proj1 (occurs_in_term_at_args v f args)) in Ho.
    induction IH as [|a l Ha _ IHl]; [constructor|].
    inversion Hp as [|? ? Hpa Hpl]; subst.
    simpl in Ho. apply orb_false_elim in Ho as [Hoa Hol].
    constructor; [|auto].
    destruct a as [a|]; simpl in *; [auto | discriminate].
  - discriminate.
Qed.

Lemma substitute_in_term_plain_id (u : TermPtr) (v : string) (t : TermPtr) :
  TermPtr_plain u = true ->
  occurs_in_term v u = false ->
  substitute_in_term u (make_variable v) t = Ok u.
Proof.
  destruct u as [u|]; simpl; [apply substitute_in_term_at_plain_id | discriminate].
Qed.

Lemma substitute_in_term_at_plain (u : Term) (v : string) (t : TermPtr) :
  TermPtr_plain t = true ->
  Term_plain u = true ->
  exists r, substitute_in_term_at u (make_variable v) t = Ok r /\ TermPtr_plain r = true.
Proof.
  intros Ht.
  induction u as [x|c|f args IH|args IH] using Term_nested_ind; intros Hp.
  - simpl. destruct (String.eqb x v); eauto.
  - simpl. eauto.
  - rewrite substitute_in_term_at_function. cbv zeta.
    assert (H : exists rs,
               mapR (fun arg => substitute_in_term arg (make_variable v) t) args = Ok rs
               /\ forallb TermPtr_plain rs = true).
    { simpl in Hp. apply forallb_true_Forall in Hp.
      induction IH as [|a l Ha _ IHl]; [exists []; split; reflexivity|].
      inversion Hp as [|? ? Hpa Hpl]; subst.
      destruct (IHl Hpl) as (rs & Hrs & Hprs).
      destruct a as [a|]; simpl in *; [|discriminate].
      destruct (Ha Hpa) as (r & Hr & Hpr).
      exists (r :: rs). rewrite Hr, Hrs. simpl. rewrite Hpr, Hprs. split; reflexivity. }
    destruct H as (rs & -> & Hprs). simpl. eexists. split; [reflexivity|]. exact Hprs.
  - discriminate.
Qed.

Lemma substitute_in_term_plain (u : TermPtr) (v : string) (t : TermPtr) :
  TermPtr_plain t = true ->
  TermPtr_plain u = true ->
  exists r, substitute_in_term u (make_variable v) t = Ok r /\ TermPtr_plain r = true.
Proof.
  destruct u as [u|]; simpl; [apply substitute_in_term_at_plain | discriminate].
Qed.

Lemma substitute_in_term_at_carries (u : Term) (x z : string) (t : TermPtr) :
  Term_plain u = true ->
  occurs_in_term_at x u = true ->
  occurs_in_term z t = true ->
  exists r, substitute_in_term_at u (make_variable x) t = Ok r /\ occurs_in_term z r = true.
Proof.
  intros Hp Ho Hz. revert Hp Ho.
  induction u as [y|c|f args IH|args IH] using Term_nested_ind; intros Hp Ho.
  - simpl in *. rewrite Ho. eauto.
  - discriminate.
  - rewrite substitute_in_term_at_function. cbv zeta.
    rewrite (proj1 (occurs_in_term_at_args x f args)) in Ho.
    assert (H : exists rs,
               mapR (fun arg => substitute_in_term arg (make_variable x) t) args = Ok rs
               /\ existsb (occurs_in_term z) rs = true).
    { simpl in Hp. apply forallb_true_Forall in Hp.
      induction IH as [|a l Ha _ IHl]; [discriminate|].
      inversion Hp as [|? ? Hpa Hpl]; subst.
      destruct a as [a|]; [|discriminate].
      destruct (substitute_in_term_at_total a x t) as [r Hr].
      assert (Hl : exists rs,
                 mapR (fun arg => substitute_in_term arg (make_variable x) t) l = Ok rs).
      { apply mapR_Ok_Forall. apply Forall_forall. intros b _.
        apply substitute_in_term_total. }
      simpl in Ho. apply orb_true_iff in Ho as [Ho|Ho].
      - destruct Hl as [rs Hrs]. simpl in Ha.
        destruct (Ha Hpa Ho) as (r' & Hr' & Hz').
        exists (r' :: rs). simpl. rewrite Hr', Hrs. simpl. rewrite Hz'. split; reflexivity.
      - destruct (IHl Hpl Ho) as (rs & Hrs & Hzs).
        exists (r :: rs). simpl. rewrite Hr, Hrs. simpl. rewrite Hzs, orb_true_r.
        split; reflexivity. }
    destruct H as (rs & -> & Hzs). simpl. eexists. split; [reflexivity|]. exact Hzs.
  - discriminate.
Qed.

Lemma substitute_in_term_carries (u : TermPtr) (x z : string) (t : TermPtr) :
  TermPtr_plain u = true ->
  occurs_in_term x u = true ->
  occurs_in_term z t = true ->
  exists r, substitute_in_term u (make_variable x) t = Ok r /\ occurs_in_term z r = true.
Proof.
  destruct u as [u|]; simpl; [apply substitute_in_term_at_carries | discriminate].
Qed.

Lemma substitute_args_eliminate (args rs : list TermPtr) (v : string) (t : TermPtr) :
  occurs_in_term v t = false ->
  mapR (fun arg => substitute_in_term arg (make_variable v) t) args = Ok rs ->
  existsb (occurs_in_term v) rs = false.
Proof.
  intros Ht H. apply mapR_Forall2 in H.
  induction H as [|a r l rs' Har _ IH]; [reflexivity|].
  simpl. rewrite IH, orb_false_r. eapply substitute_in_term_eliminates; eassumption.
Qed.

Lemma substitute_args_id (args : list TermPtr) (v : string) (t : TermPtr) :
  forallb TermPtr_plain args = true ->
  existsb (occurs_in_term v) args = false ->
  mapR (fun arg => substitute_in_term arg (make_variable v) t) args = Ok args.
Proof.
  intros Hp Ho. apply mapR_id. apply forallb_true_Forall in Hp.
  induction Hp as [|a l Ha _ IH]; [constructor|].
  simpl in Ho. apply orb_false_elim in Ho as [Hoa Hol].
  constructor; [apply substitute_in_term_plain_id; assumption | auto].
Qed.

Lemma substitute_args_plain (args : list TermPtr) (v : string) (t : TermPtr) :
  TermPtr_plain t = true ->
  forallb TermPtr_plain args = true ->
  exists rs, mapR (fun arg => substitute_in_term arg (make_variable v) t) args = Ok rs
             /\ forallb TermPtr_plain rs = true.
Proof.
  intros Ht Hp. apply forallb_true_Forall in Hp.
  induction Hp as [|a l Ha _ (rs & Hrs & Hprs)]; [exists []; split; reflexivity|].
  destruct (substitute_in_term_plain a v t Ht Ha) as (r & Hr & Hpr).
  exists (r :: rs). simpl. rewrite Hr, Hrs. simpl. rewrite Hpr, Hprs. split; reflexivity.
Qed.

Lemma substitute_args_carry (args : list TermPtr) (x z : string) (t : TermPtr) :
  forallb TermPtr_plain args = true ->
  existsb (occurs_in_term x) args = true ->
  occurs_in_term z t = true ->
  exists rs, mapR (fun arg => substitute_in_term arg (make_variable x) t) args = Ok rs
             /\ existsb (occurs_in_term z) rs = true.
Proof.
  intros Hp Ho Hz. apply forallb_true_Forall in Hp.
  induction Hp as [|a l Ha Hl IH]; [discriminate|].
  assert (Hrest : exists rs,
             mapR (fun arg => substitute_in_term arg (make_variable x) t) l = Ok rs).
  { apply mapR_Ok_Forall. apply Forall_forall. intros b _. apply substitute_in_term_total. }
  simpl in Ho. apply orb_true_iff in Ho as [Ho|Ho].
  - destruct Hrest as [rs Hrs].
    destruct (substitute_in_term_carries a x z t Ha Ho Hz) as (r & Hr & Hzr).
    exists (r :: rs). simpl. rewrite Hr, Hrs. simpl. rewrite Hzr. split; reflexivity.
  - destruct (IH Ho) as (rs & Hrs & Hzs).
    destruct (substitute_in_term_total a x t) as [r Hr].
    exists (r :: rs). simpl. rewrite Hr, Hrs. simpl. rewrite Hzs, orb_true_r.
    split; reflexivity.
Qed.

(** *** Formulas *)

Lemma substitute_in_formula_at_eliminates (phi : Formula) (v : string) (t : TermPtr)
  (res : FormulaPtr) :
  occurs_in_term v t = false ->
  substitute_in_formula_at phi (make_variable v) t = Ok res ->
  is_free_in v res = false.
Proof.
  intros Ht.
  assert (Hptr : forall (p : FormulaPtr),
             from_option (fun psi => forall res,
                              substitute_in_formula_at psi (make_variable v) t = Ok res ->
                              is_free_in v res = false) True p ->
             forall res, substitute_in_formula p (make_variable v) t = Ok res ->
                         is_free_in v res = false).
  { intros [psi|] Hp res' H; simpl in *; [eauto | injection H as <-; reflexivity]. }
  revert res.
  induction phi as [l0 r0|R args|inner IH|l0 r0 IHl IHr|l0 r0 IHl IHr|l0 r0 IHl IHr
                   |w domain inner IH|w domain inner IH] using Formula_nested_ind;
    intros res H; rewrite substitute_in_formula_at_unfold in H.
  - apply bindR_Ok in H as (l' & Hl & H). apply bindR_Ok in H as (r' & Hr & H).
    injection H as <-. simpl.
    rewrite (substitute_in_term_eliminates _ _ _ _ Ht Hl).
    rewrite (substitute_in_term_eliminates _ _ _ _ Ht Hr). reflexivity.
  - apply bindR_Ok in H as (rs & Hrs & H). injection H as <-. simpl.
    eapply substitute_args_eliminate; eassumption.
  - apply bindR_Ok in H as (i' & Hi & H). injection H as <-.
    unfold is_free_in, make_not. rewrite is_free_in_at_unfold.
    apply (Hptr inner IH). exact Hi.
  - apply bindR_Ok in H as (l' & Hl & H). apply bindR_Ok in H as (r' & Hr & H).
    injection H as <-. unfold is_free_in, make_or. rewrite is_free_in_at_unfold.
    rewrite (Hptr l0 IHl _ Hl), (Hptr r0 IHr _ Hr). reflexivity.
  - apply bindR_Ok in H as (l' & Hl & H). apply bindR_Ok in H as (r' & Hr & H).
    injection H as <-. unfold is_free_in, make_and. rewrite is_free_in_at_unfold.
    rewrite (Hptr l0 IHl _ Hl), (Hptr r0 IHr _ Hr). reflexivity.
  - apply bindR_Ok in H as (l' & Hl & H). apply bindR_Ok in H as (r' & Hr & H).
    injection H as <-. unfold is_free_in, make_implies. rewrite is_free_in_at_unfold.
    rewrite (Hptr l0 IHl _ Hl), (Hptr r0 IHr _ Hr). reflexivity.
  - simpl in H. destruct (String.eqb w v) eqn:E; simpl in H.
    + injection H as <-. simpl. rewrite E. reflexivity.
    + apply bindR_Ok in H as (i' & Hi & H). injection H as <-.
      unfold is_free_in, make_forall. rewrite is_free_in_at_unfold, E.
      apply (Hptr inner IH). exact Hi.
  - simpl in H. destruct (String.eqb w v) eqn:E; simpl in H.
    + injection H as <-. simpl. rewrite E. reflexivity.
    + apply bindR_Ok in H as (i' & Hi & H). injection H as <-.
      unfold is_free_in, make_exists. rewrite is_free_in_at_unfold, E.
      apply (Hptr inner IH). exact Hi.
Qed.

(** X14: substituting a term in which [v] does not occur for the variable
    [v] always returns, and [v] is no longer free in the result, for every
    formula (tuples and null pointers included). *)
Theorem substitution_eliminates_the_variable (phi : FormulaPtr) (v : string) (t : TermPtr) :
  occurs_in_term v t = false ->
  exists res, substitute_in_formula phi (make_variable v) t = Ok res
              /\ is_free_in v res = false.
Proof.
  intros Ht. destruct (substitute_in_formula_total phi v t) as [res H].
  exists res. split; [exact H|].
  destruct phi as [psi|]; simpl in H.
  - eapply substitute_in_formula_at_eliminates; eauto.
  - injection H as <-. reflexivity.
Qed.

Lemma substitution_eliminates_the_variable_witness :
  exists res, substitute_in_formula Demo.forall_x_eq_5 (make_variable "x") Demo.y = Ok res
              /\ is_free_in "x" res = false.
Proof.
  apply (substitution_eliminates_the_variable Demo.forall_x_eq_5 "x" Demo.y).
  reflexivity.
Defined.

(** X15: on a plain formula (no tuple, no null pointer) in which [v] is not
    free, substituting for [v] returns the formula itself, whatever the
    term is. *)
Theorem substitution_without_free_occurrence_is_identity (phi : Formula) (v : string)
  (t : TermPtr) :
  Formula_plain phi = true ->
  is_free_in_at v phi = false ->
  substitute_in_formula (Some phi) (make_variable v) t = Ok (Some phi).
Proof.
  assert (Hptr : forall (p : FormulaPtr),
             from_option (fun psi => Formula_plain psi = true ->
                              is_free_in_at v psi = false ->
                              substitute_in_formula (Some psi) (make_variable v) t
                              = Ok (Some psi)) True p ->
             FormulaPtr_plain p = true -> is_free_in v p = false ->
             substitute_in_formula p (make_variable v) t = Ok p).
  { intros [psi|] Hp Hpl Hf; simpl in *; [auto | discriminate]. }
  induction phi as [l0 r0|R args|inner IH|l0 r0 IHl IHr|l0 r0 IHl IHr|l0 r0 IHl IHr
                   |w domain inner IH|w domain inner IH] using Formula_nested_ind;
    intros Hp Hf; rewrite Formula_plain_unfold in Hp; rewrite is_free_in_at_unfold in Hf;
    unfold substitute_in_formula; rewrite substitute_in_formula_at_unfold.
  - apply andb_prop in Hp as [Hl Hr]. apply orb_false_elim in Hf as [Hfl Hfr].
    rewrite (substitute_in_term_plain_id l0 v t Hl Hfl).
    rewrite (substitute_in_term_plain_id r0 v t Hr Hfr). reflexivity.
  - rewrite (substitute_args_id args v t Hp Hf). reflexivity.
  - rewrite (Hptr inner IH Hp Hf). reflexivity.
  - apply andb_prop in Hp as [Hl Hr]. apply orb_false_elim in Hf as [Hfl Hfr].
    rewrite (Hptr l0 IHl Hl Hfl), (Hptr r0 IHr Hr Hfr). reflexivity.
  - apply andb_prop in Hp as [Hl Hr]. apply orb_false_elim in Hf as [Hfl Hfr].
    rewrite (Hptr l0 IHl Hl Hfl), (Hptr r0 IHr Hr Hfr). reflexivity.
  - apply andb_prop in Hp as [Hl Hr]. apply orb_false_elim in Hf as [Hfl Hfr].
    rewrite (Hptr l0 IHl Hl Hfl), (Hptr r0 IHr Hr Hfr). reflexivity.
  - apply andb_prop in Hp as [_ Hi]. simpl.
    destruct (String.eqb w v); simpl; [reflexivity|].
    rewrite (Hptr inner IH Hi Hf). reflexivity.
  - apply andb_prop in Hp as [_ Hi]. simpl.
    destruct (String.eqb w v); simpl; [reflexivity|].
    rewrite (Hptr inner IH Hi Hf). reflexivity.
Qed.

Lemma substitution_without_free_occurrence_is_identity_witness :
  substitute_in_formula Demo.forall_x_eq_5 (make_variable "y") Demo.two
  = Ok Demo.forall_x_eq_5.
Proof.
  apply (substitution_without_free_occurrence_is_identity
           (ForallFormula "x" Demo.X Demo.x_eq_5) "y" Demo.two); reflexivity.
Defined.

Lemma substitute_in_formula_at_plain (phi : Formula) (v : string) (t : TermPtr) :
  TermPtr_plain t = true ->
  Formula_plain phi = true ->
  exists res, substitute_in_formula_at phi (make_variable v) t = Ok res
              /\ FormulaPtr_plain res = true.
Proof.
  intros Ht.
  assert (Hptr : forall (p : FormulaPtr),
             from_option (fun psi => Formula_plain psi = true ->
                              exists res,
                                substitute_in_formula_at psi (make_variable v) t = Ok res
                                /\ FormulaPtr_plain res = true) True p ->
             FormulaPtr_plain p = true ->
             exists res, substitute_in_formula p (make_variable v) t = Ok res
                         /\ FormulaPtr_plain res = true).
  { intros [psi|] Hp Hpl; simpl in *; [auto | discriminate]. }
  induction phi as [l0 r0|R args|inner IH|l0 r0 IHl IHr|l0 r0 IHl IHr|l0 r0 IHl IHr
                   |w domain inner IH|w domain inner IH] using Formula_nested_ind;
    intros Hp; pose proof Hp as Hphi; rewrite Formula_plain_unfold in Hp;
    rewrite substitute_in_formula_at_unfold.
  - apply andb_prop in Hp as [Hl Hr].
    destruct (substitute_in_term_plain l0 v t Ht Hl) as (l' & -> & Hl').
    destruct (substitute_in_term_plain r0 v t Ht Hr) as (r' & -> & Hr').
    simpl. eexists. split; [reflexivity|]. simpl.
    change (TermPtr_plain l' && TermPtr_plain r' = true). now rewrite Hl', Hr'.
  - destruct (substitute_args_plain args v t Ht Hp) as (rs & -> & Hrs).
    simpl. eexists. split; [reflexivity|]. exact Hrs.
  - destruct (Hptr inner IH Hp) as (i' & -> & Hi').
    simpl. eexists. split; [reflexivity|]. exact Hi'.
  - apply andb_prop in Hp as [Hl Hr].
    destruct (Hptr l0 IHl Hl) as (l' & -> & Hl'). destruct (Hptr r0 IHr Hr) as (r' & -> & Hr').
    simpl. eexists. split; [reflexivity|].
    change (FormulaPtr_plain l' && FormulaPtr_plain r' = true). now rewrite Hl', Hr'.
  - apply andb_prop in Hp as [Hl Hr].
    destruct (Hptr l0 IHl Hl) as (l' & -> & Hl'). destruct (Hptr r0 IHr Hr) as (r' & -> & Hr').
    simpl. eexists. split; [reflexivity|].
    change (FormulaPtr_plain l' && FormulaPtr_plain r' = true). now rewrite Hl', Hr'.
  - apply andb_prop in Hp as [Hl Hr].
    destruct (Hptr l0 IHl Hl) as (l' & -> & Hl'). destruct (Hptr r0 IHr Hr) as (r' & -> & Hr').
    simpl. eexists. split; [reflexivity|].
    change (FormulaPtr_plain l' && FormulaPtr_plain r' = true). now rewrite Hl', Hr'.
  - apply andb_prop in Hp as [Hd Hi]. simpl.
    destruct (String.eqb w v); simpl; [eexists; split; [reflexivity | exact Hphi]|].
    destruct (Hptr inner IH Hi) as (i' & -> & Hi').
    simpl. eexists. split; [reflexivity|].
    change (TermPtr_no_null domain && FormulaPtr_plain i' = true). now rewrite Hd, Hi'.
  - apply andb_prop in Hp as [Hd Hi]. simpl.
    destruct (String.eqb w v); simpl; [eexists; split; [reflexivity | exact Hphi]|].
    destruct (Hptr inner IH Hi) as (i' & -> & Hi').
    simpl. eexists. split; [reflexivity|].
    change (TermPtr_no_null domain && FormulaPtr_plain i' = true). now rewrite Hd, Hi'.
Qed.

Lemma substitute_in_formula_plain (phi : FormulaPtr) (v : string) (t : TermPtr) :
  TermPtr_plain t = true ->
  FormulaPtr_plain phi = true ->
  exists res, substitute_in_formula phi (make_variable v) t = Ok res
              /\ FormulaPtr_plain res = true.
Proof.
  destruct phi as [psi|]; simpl; [apply substitute_in_formula_at_plain | discriminate].
Qed.

Lemma Term_plain_no_null (t : Term) : Term_plain t = true -> Term_no_null t = true.
Proof.
  induction t as [x|c|f args IH|args IH] using Term_nested_ind; simpl; auto.
  - intros Hp. apply forallb_true_Forall in Hp.
    induction IH as [|a l Ha _ IHl]; [reflexivity|].
    inversion Hp as [|? ? Hpa Hpl]; subst. simpl. rewrite (IHl Hpl), andb_true_r.
    destruct a as [a|]; simpl in *; auto.
  - discriminate.
Qed.

Lemma TermPtr_plain_no_null (p : TermPtr) :
  TermPtr_plain p = true -> TermPtr_no_null p = true.
Proof. destruct p; simpl; [apply Term_plain_no_null | auto]. Qed.

Lemma Formula_plain_no_null (phi : Formula) :
  Formula_plain phi = true -> Formula_no_null phi = true.
Proof.
  assert (Hptr : forall (p : FormulaPtr),
             from_option (fun psi => Formula_plain psi = true -> Formula_no_null psi = true)
               True p ->
             FormulaPtr_plain p = true -> FormulaPtr_no_null p = true).
  { intros [psi|] Hp Hpl; simpl in *; auto. }
  induction phi as [l0 r0|R args|inner IH|l0 r0 IHl IHr|l0 r0 IHl IHr|l0 r0 IHl IHr
                   |w domain inner IH|w domain inner IH] using Formula_nested_ind;
    intros Hp; rewrite Formula_plain_unfold in Hp.
  - apply andb_prop in Hp as [Hl Hr]. simpl.
    now rewrite (TermPtr_plain_no_null _ Hl), (TermPtr_plain_no_null _ Hr).
  - simpl. apply forallb_true_Forall in Hp.
    induction Hp as [|a l Ha _ IHl]; [reflexivity|].
    simpl. now rewrite (TermPtr_plain_no_null _ Ha), IHl.
  - apply (Hptr inner IH Hp).
  - apply andb_prop in Hp as [Hl Hr].
    change (FormulaPtr_no_null l0 && FormulaPtr_no_null r0 = true).
    now rewrite (Hptr l0 IHl Hl), (Hptr r0 IHr Hr).
  - apply andb_prop in Hp as [Hl Hr].
    change (FormulaPtr_no_null l0 && FormulaPtr_no_null r0 = true).
    now rewrite (Hptr l0 IHl Hl), (Hptr r0 IHr Hr).
  - apply andb_prop in Hp as [Hl Hr].
    change (FormulaPtr_no_null l0 && FormulaPtr_no_null r0 = true).
    now rewrite (Hptr l0 IHl Hl), (Hptr r0 IHr Hr).
  - apply andb_prop in Hp as [Hd Hi].
    change (TermPtr_no_null domain && FormulaPtr_no_null inner = true).
    now rewrite Hd, (Hptr inner IH Hi).
  - apply andb_prop in Hp as [Hd Hi].
    change (TermPtr_no_null domain && FormulaPtr_no_null inner = true).
    now rewrite Hd, (Hptr inner IH Hi).
Qed.

Lemma FormulaPtr_plain_renders (p : FormulaPtr) :
  FormulaPtr_plain p = true -> exists s, FormulaPtr_to_string p = Ok s.
Proof.
  intros H. apply FormulaPtr_no_null_renders.
  destruct p as [phi|]; simpl in *; [apply Formula_plain_no_null; exact H | discriminate].
Qed.

(** X16: substituting a plain term into a plain formula never produces a
    null pointer or a tuple: the substitution returns a plain formula, which
    therefore renders. *)
Theorem substitution_keeps_formulas_plain (phi : FormulaPtr) (v : string) (t : TermPtr) :
  TermPtr_plain t = true ->
  FormulaPtr_plain phi = true ->
  exists res s,
    substitute_in_formula phi (make_variable v) t = Ok res
    /\ FormulaPtr_plain res = true
    /\ FormulaPtr_to_string res = Ok s.
Proof.
  intros Ht Hp. destruct (substitute_in_formula_plain phi v t Ht Hp) as (res & H & Hres).
  destruct (FormulaPtr_plain_renders res Hres) as [s Hs].
  exists res, s. auto.
Qed.

Lemma substitution_keeps_formulas_plain_witness :
  exists res s,
    substitute_in_formula Demo.recursive_axiom_inner (make_variable "k") Demo.k_plus_1 = Ok res
    /\ FormulaPtr_plain res = true
    /\ FormulaPtr_to_string res = Ok s.
Proof.
  apply (substitution_keeps_formulas_plain Demo.recursive_axiom_inner "k" Demo.k_plus_1);
    reflexivity.
Defined.

(** ** The capture oracle *)

Lemma is_substitutable_at_unfold (phi : Formula) (x : string) (t0 : Term) :
  is_substitutable_at phi (make_variable x) (Some t0) =
  match phi with
  | EqualityFormula _ _ | RelationFormula _ _ => Ok true
  | NotFormula inner => is_substitutable inner (make_variable x) (Some t0)
  | OrFormula l r | AndFormula l r | ImpliesFormula l r =>
      let* safe_l := is_substitutable l (make_variable x) (Some t0) in
      if safe_l then is_substitutable r (make_variable x) (Some t0) else Ok false
  | ForallFormula y_name _ inner | ExistsFormula y_name _ inner =>
      if negb (is_free_in_at x phi) then Ok true
      else if negb (occurs_in_term y_name (Some t0))
           then is_substitutable inner (make_variable x) (Some t0)
           else Ok false
  end.
Proof. destruct phi; reflexivity. Qed.

(** *** Counting occurrences *)

Lemma occurrences_at_function (z f : string) (args : list TermPtr) :
  occurrences_at z (FunctionTerm f args) = sum_list_with (occurrences z) args.
Proof. reflexivity. Qed.

Lemma occurrences_at_tuple (z : string) (args : list TermPtr) :
  occurrences_at z (TupleTerm args) = sum_list_with (occurrences z) args.
Proof. reflexivity. Qed.

Lemma free_occurrences_at_unfold (z : string) (f : Formula) :
  free_occurrences_at z f =
  match f with
  | EqualityFormula l r => occurrences z l + occurrences z r
  | RelationFormula _ args => sum_list_with (occurrences z) args
  | NotFormula inner => free_occurrences z inner
  | OrFormula l r | AndFormula l r | ImpliesFormula l r =>
      free_occurrences z l + free_occurrences z r
  | ForallFormula w _ inner | ExistsFormula w _ inner =>
      if String.eqb w z then 0 else free_occurrences z inner
  end.
Proof. destruct f; reflexivity. Qed.

(** The counts agree with the tests of the source: a variable occurs in a
    term, or is free in a formula, exactly when its count is not zero. *)
Lemma occurs_in_term_at_counts (v : string) (t : Term) :
  occurs_in_term_at v t = negb (occurrences_at v t =? 0)%nat.
Proof.
  assert (Hargs : forall args,
             Forall (from_option (fun u => occurs_in_term_at v u
                                           = negb (occurrences_at v u =? 0)%nat) True) args ->
             existsb (occurs_in_term v) args
             = negb (sum_list_with (occurrences v) args =? 0)%nat).
  { induction 1 as [|a l Ha _ IH]; [reflexivity|].
    cbn [existsb sum_list_with]. rewrite IH.
    destruct a as [a|]; simpl in *.
    - rewrite Ha. destruct (occurrences_at v a); [reflexivity|]. reflexivity.
    - reflexivity. }
  induction t as [x|c|f args IH|args IH] using Term_nested_ind.
  - simpl. destruct (String.eqb x v); reflexivity.
  - reflexivity.
  - rewrite occurrences_at_function. exact (Hargs args IH).
  - rewrite occurrences_at_tuple. exact (Hargs args IH).
Qed.

Lemma occurs_in_term_counts (v : string) (t : TermPtr) :
  occurs_in_term v t = negb (occurrences v t =? 0)%nat.
Proof. destruct t as [t|]; simpl; [apply occurs_in_term_at_counts | reflexivity]. Qed.

Lemma occurs_in_args_counts (v : string) (args : list TermPtr) :
  existsb (occurs_in_term v) args = negb (sum_list_with (occurrences v) args =? 0)%nat.
Proof.
  induction args as [|a l IH]; [reflexivity|].
  cbn [existsb sum_list_with]. rewrite IH, occurs_in_term_counts.
  destruct (occurrences v a); reflexivity.
Qed.

Lemma is_free_in_at_counts (v : string) (f : Formula) :
  is_free_in_at v f = negb (free_occurrences_at v f =? 0)%nat.
Proof.
  assert (Hptr : forall (p : FormulaPtr),
             from_option (fun g => is_free_in_at v g
                                   = negb (free_occurrences_at v g =? 0)%nat) True p ->
             is_free_in v p = negb (free_occurrences v p =? 0)%nat).
  { intros [g|] H; simpl in *; [exact H | reflexivity]. }
  assert (Hsum : forall a b : nat,
             negb (a =? 0)%nat || negb (b =? 0)%nat = negb (a + b =? 0)%nat).
  { intros [|a] [|b]; reflexivity. }
  induction f as [l0 r0|R args|inner IH|l0 r0 IHl IHr|l0 r0 IHl IHr|l0 r0 IHl IHr
                 |w domain inner IH|w domain inner IH] using Formula_nested_ind;
    rewrite is_free_in_at_unfold, free_occurrences_at_unfold.
  - rewrite !occurs_in_term_counts. apply Hsum.
  - apply occurs_in_args_counts.
  - exact (Hptr inner IH).
  - rewrite (Hptr l0 IHl), (Hptr r0 IHr). apply Hsum.
  - rewrite (Hptr l0 IHl), (Hptr r0 IHr). apply Hsum.
  - rewrite (Hptr l0 IHl), (Hptr r0 IHr). apply Hsum.
  - destruct (String.eqb w v); [reflexivity | exact (Hptr inner IH)].
  - destruct (String.eqb w v); [reflexivity | exact (Hptr inner IH)].
Qed.

Lemma is_free_in_counts (v : string) (p : FormulaPtr) :
  is_free_in v p = negb (free_occurrences v p =? 0)%nat.
Proof. destruct p as [g|]; simpl; [apply is_free_in_at_counts | reflexivity]. Qed.

(** Substitution in a plain term: the occurrences of [x] are gone and each
    of them has brought in one copy of [t]. *)
Lemma substitute_in_term_at_counts (u : Term) (x : string) (t : TermPtr) :
  Term_plain u = true ->
  exists res, substitute_in_term_at u (make_variable x) t = Ok res
    /\ forall z, occurrences z res
                 = (if String.eqb z x then 0 else occurrences_at z u)
                   + occurrences_at x u * occurrences z t.
Proof.
  induction u as [y|c|f args IH|args IH] using Term_nested_ind; intros Hp.
  - simpl. destruct (String.eqb y x) eqn:E.
    + exists t. split; [reflexivity|]. intros z.
      apply String.eqb_eq in E. subst y.
      rewrite (String.eqb_sym x z). destruct (String.eqb z x); lia.
    + exists (make_variable y). split; [reflexivity|]. intros z. simpl.
      destruct (String.eqb z x) eqn:Ez; [|lia].
      apply String.eqb_eq in Ez. subst z. rewrite E. reflexivity.
  - exists (make_constant c). split; [reflexivity|]. intros z. simpl.
    destruct (String.eqb z x); reflexivity.
  - rewrite substitute_in_term_at_function. cbv zeta.
    assert (Hargs : exists rs,
               mapR (fun arg => substitute_in_term arg (make_variable x) t) args = Ok rs
               /\ forall z, sum_list_with (occurrences z) rs
                            = (if String.eqb z x then 0
                               else sum_list_with (occurrences z) args)
                              + sum_list_with (occurrences x) args * occurrences z t).
    { simpl in Hp. apply forallb_true_Forall in Hp.
      induction IH as [|a l Ha _ IHl].
      - exists []. split; [reflexivity|]. intros z. simpl.
        destruct (String.eqb z x); reflexivity.
      - inversion Hp as [|? ? Hpa Hpl]; subst.
        destruct (IHl Hpl) as (rs & Hrs & Hcount).
        destruct a as [a|]; [|discriminate]. simpl in Ha.
        destruct (Ha Hpa) as (r & Hr & Hcr).
        exists (r :: rs). split.
        + cbn [mapR substitute_in_term]. rewrite Hr, Hrs. reflexivity.
        + intros z. cbn [sum_list_with]. rewrite (Hcr z), (Hcount z).
          cbn [occurrences]. destruct (String.eqb z x); lia. }
    destruct Hargs as (rs & -> & Hcount).
    exists (make_function f rs). split; [reflexivity|].
    intros z. rewrite !occurrences_at_function. exact (Hcount z).
  - discriminate.
Qed.

Lemma substitute_in_term_counts (u : TermPtr) (x : string) (t : TermPtr) :
  TermPtr_plain u = true ->
  exists res, substitute_in_term u (make_variable x) t = Ok res
    /\ forall z, occurrences z res
                 = (if String.eqb z x then 0 else occurrences z u)
                   + occurrences x u * occurrences z t.
Proof.
  destruct u as [u|]; simpl; [apply substitute_in_term_at_counts | discriminate].
Qed.

Lemma substitute_args_count (args : list TermPtr) (x : string) (t : TermPtr) :
  forallb TermPtr_plain args = true ->
  exists rs, mapR (fun arg => substitute_in_term arg (make_variable x) t) args = Ok rs
    /\ forall z, sum_list_with (occurrences z) rs
                 = (if String.eqb z x then 0 else sum_list_with (occurrences z) args)
                   + sum_list_with (occurrences x) args * occurrences z t.
Proof.
  intros Hp. apply forallb_true_Forall in Hp.
  induction Hp as [|a l Ha _ (rs & Hrs & Hcount)].
  - exists []. split; [reflexivity|]. intros z. simpl.
    destruct (String.eqb z x); reflexivity.
  - destruct (substitute_in_term_counts a x t Ha) as (r & Hr & Hcr).
    exists (r :: rs). split.
    + cbn [mapR]. rewrite Hr, Hrs. reflexivity.
    + intros z. cbn [sum_list_with]. rewrite (Hcr z), (Hcount z).
      destruct (String.eqb z x); lia.
Qed.

(** Substitution in a plain formula in which [x] is not free, or for which
    the oracle answers yes: the free occurrences of [x] are gone, each of
    them has brought in one copy of [t], and every variable occurrence of
    every copy is free in the result. *)
Lemma substitute_in_formula_at_counts (phi : Formula) (x : string) (t0 : Term) :
  Formula_plain phi = true ->
  is_free_in_at x phi = false
  \/ is_substitutable_at phi (make_variable x) (Some t0) = Ok true ->
  exists res, substitute_in_formula_at phi (make_variable x) (Some t0) = Ok res
    /\ forall z, free_occurrences z res
                 = (if String.eqb z x then 0 else free_occurrences_at z phi)
                   + free_occurrences_at x phi * occurrences_at z t0.
Proof.
  set (safe := fun psi : Formula =>
         is_free_in_at x psi = false
         \/ is_substitutable_at psi (make_variable x) (Some t0) = Ok true).
  set (counted := fun (psi : Formula) =>
         exists res, substitute_in_formula_at psi (make_variable x) (Some t0) = Ok res
           /\ forall z, free_occurrences z res
                        = (if String.eqb z x then 0 else free_occurrences_at z psi)
                          + free_occurrences_at x psi * occurrences_at z t0).
  change (Formula_plain phi = true -> safe phi -> counted phi).
  assert (Hptr : forall (p : FormulaPtr),
             from_option (fun psi => Formula_plain psi = true -> safe psi -> counted psi)
                         True p ->
             FormulaPtr_plain p = true ->
             is_free_in x p = false
             \/ is_substitutable p (make_variable x) (Some t0) = Ok true ->
             exists res, substitute_in_formula p (make_variable x) (Some t0) = Ok res
               /\ forall z, free_occurrences z res
                            = (if String.eqb z x then 0 else free_occurrences z p)
                              + free_occurrences x p * occurrences_at z t0).
  { intros [psi|] Hpsi Hpl Hsafe; simpl in *; [exact (Hpsi Hpl Hsafe) | discriminate]. }
  assert (Hbin : forall (l0 r0 : FormulaPtr),
             from_option (fun psi => Formula_plain psi = true -> safe psi -> counted psi)
                         True l0 ->
             from_option (fun psi => Formula_plain psi = true -> safe psi -> counted psi)
                         True r0 ->
             FormulaPtr_plain l0 && FormulaPtr_plain r0 = true ->
             is_free_in x l0 || is_free_in x r0 = false
             \/ (let* safe_l := is_substitutable l0 (make_variable x) (Some t0) in
                 if safe_l then is_substitutable r0 (make_variable x) (Some t0)
                 else Ok false) = Ok true ->
             exists l' r',
               substitute_in_formula l0 (make_variable x) (Some t0) = Ok l'
               /\ substitute_in_formula r0 (make_variable x) (Some t0) = Ok r'
               /\ forall z, free_occurrences z l' + free_occurrences z r'
                            = (if String.eqb z x then 0
                               else free_occurrences z l0 + free_occurrences z r0)
                              + (free_occurrences x l0 + free_occurrences x r0)
                                * occurrences_at z t0).
  { intros l0 r0 IHl IHr Hpl Hsafe. apply andb_prop in Hpl as [Hl Hr].
    assert (Hboth : (is_free_in x l0 = false
                     \/ is_substitutable l0 (make_variable x) (Some t0) = Ok true)
                    /\ (is_free_in x r0 = false
                        \/ is_substitutable r0 (make_variable x) (Some t0) = Ok true)).
    { destruct Hsafe as [Hf|Hs].
      - apply orb_false_elim in Hf as [Hfl Hfr]. auto.
      - apply bindR_Ok in Hs as (sl & Hsl & Hsr). destruct sl; [auto | discriminate]. }
    destruct Hboth as [Hsl Hsr].
    destruct (Hptr l0 IHl Hl Hsl) as (l' & Hl' & Hcl).
    destruct (Hptr r0 IHr Hr Hsr) as (r' & Hr' & Hcr).
    exists l', r'. split; [exact Hl'|]. split; [exact Hr'|].
    intros z. rewrite (Hcl z), (Hcr z). destruct (String.eqb z x); lia. }
  assert (Hquant : forall (w : string) (inner : FormulaPtr),
             from_option (fun psi => Formula_plain psi = true -> safe psi -> counted psi)
                         True inner ->
             FormulaPtr_plain inner = true ->
             is_free_in x inner = false
             \/ (if negb (is_free_in x inner)
                 then Ok true
                 else if negb (occurs_in_term w (Some t0))
                      then is_substitutable inner (make_variable x) (Some t0)
                      else Ok false) = Ok true ->
             String.eqb w x = false ->
             exists inner',
               substitute_in_formula inner (make_variable x) (Some t0) = Ok inner'
               /\ forall z, (if String.eqb w z then 0 else free_occurrences z inner')
                            = (if String.eqb z x then 0
                               else if String.eqb w z then 0
                                    else free_occurrences z inner)
                              + free_occurrences x inner * occurrences_at z t0).
  { intros w inner IH Hi Hsafe Ewx.
    assert (Hcases : is_free_in x inner = false
                     \/ (occurs_in_term w (Some t0) = false
                         /\ is_substitutable inner (make_variable x) (Some t0) = Ok true)).
    { destruct Hsafe as [Hf|Hs]; [auto|].
      destruct (is_free_in x inner); [|auto]. cbn [negb] in Hs.
      destruct (occurs_in_term w (Some t0)); cbn [negb] in Hs; [discriminate | auto]. }
    assert (Hinner : is_free_in x inner = false
                     \/ is_substitutable inner (make_variable x) (Some t0) = Ok true)
      by tauto.
    destruct (Hptr inner IH Hi Hinner) as (inner' & Hinner' & Hc).
    exists inner'. split; [exact Hinner'|]. intros z. rewrite (Hc z).
    destruct (String.eqb w z) eqn:Ewz; [|destruct (String.eqb z x); reflexivity].
    apply String.eqb_eq in Ewz. subst z.
    rewrite Ewx.
    destruct Hcases as [Hf|[Hw _]].
    - rewrite is_free_in_counts in Hf. apply negb_false_iff, Nat.eqb_eq in Hf.
      rewrite Hf. reflexivity.
    - rewrite occurs_in_term_counts in Hw. apply negb_false_iff, Nat.eqb_eq in Hw.
      simpl in Hw. rewrite Hw. lia. }
  induction phi as [l0 r0|R args|inner IH|l0 r0 IHl IHr|l0 r0 IHl IHr|l0 r0 IHl IHr
                   |w domain inner IH|w domain inner IH] using Formula_nested_ind;
    intros Hp Hsafe; unfold safe in Hsafe; unfold counted;
    rewrite Formula_plain_unfold in Hp;
    rewrite is_substitutable_at_unfold in Hsafe;
    rewrite is_free_in_at_unfold in Hsafe;
    rewrite substitute_in_formula_at_unfold.
  - apply andb_prop in Hp as [Hl Hr].
    destruct (substitute_in_term_counts l0 x (Some t0) Hl) as (l' & -> & Hcl).
    destruct (substitute_in_term_counts r0 x (Some t0) Hr) as (r' & -> & Hcr).
    eexists. split; [reflexivity|]. intros z.
    unfold make_eq, free_occurrences. rewrite !free_occurrences_at_unfold.
    rewrite (Hcl z), (Hcr z). cbn [occurrences]. destruct (String.eqb z x); lia.
  - destruct (substitute_args_count args x (Some t0) Hp) as (rs & -> & Hc).
    eexists. split; [reflexivity|]. intros z.
    rewrite free_occurrences_at_unfold. unfold make_rel, free_occurrences.
    rewrite free_occurrences_at_unfold. exact (Hc z).
  - destruct (Hptr inner IH Hp Hsafe) as (res & -> & Hc).
    eexists. split; [reflexivity|]. intros z.
    rewrite free_occurrences_at_unfold. unfold make_not.
    unfold free_occurrences at 1. rewrite free_occurrences_at_unfold. exact (Hc z).
  - destruct (Hbin l0 r0 IHl IHr Hp Hsafe) as (l' & r' & -> & -> & Hc).
    eexists. split; [reflexivity|]. intros z.
    rewrite free_occurrences_at_unfold. unfold make_or.
    unfold free_occurrences at 1. rewrite free_occurrences_at_unfold. exact (Hc z).
  - destruct (Hbin l0 r0 IHl IHr Hp Hsafe) as (l' & r' & -> & -> & Hc).
    eexists. split; [reflexivity|]. intros z.
    rewrite free_occurrences_at_unfold. unfold make_and.
    unfold free_occurrences at 1. rewrite free_occurrences_at_unfold. exact (Hc z).
  - destruct (Hbin l0 r0 IHl IHr Hp Hsafe) as (l' & r' & -> & -> & Hc).
    eexists. split; [reflexivity|]. intros z.
    rewrite free_occurrences_at_unfold. unfold make_implies.
    unfold free_occurrences at 1. rewrite free_occurrences_at_unfold. exact (Hc z).
  - apply andb_prop in Hp as [_ Hi].
    cbn [names_variable make_variable bindR].
    destruct (String.eqb w x) eqn:Ewx.
    + eexists. split; [reflexivity|]. intros z.
      unfold free_occurrences. rewrite !free_occurrences_at_unfold. rewrite Ewx.
      destruct (String.eqb z x) eqn:Ezx; [|lia].
      apply String.eqb_eq in Ezx. subst z. rewrite Ewx. reflexivity.
    + destruct (Hquant w inner IH Hi Hsafe Ewx) as (inner' & -> & Hc).
      eexists. split; [reflexivity|]. intros z.
      unfold make_forall. unfold free_occurrences at 1.
      rewrite !free_occurrences_at_unfold. rewrite Ewx. exact (Hc z).
  - apply andb_prop in Hp as [_ Hi].
    cbn [names_variable make_variable bindR].
    destruct (String.eqb w x) eqn:Ewx.
    + eexists. split; [reflexivity|]. intros z.
      unfold free_occurrences. rewrite !free_occurrences_at_unfold. rewrite Ewx.
      destruct (String.eqb z x) eqn:Ezx; [|lia].
      apply String.eqb_eq in Ezx. subst z. rewrite Ewx. reflexivity.
    + destruct (Hquant w inner IH Hi Hsafe Ewx) as (inner' & -> & Hc).
      eexists. split; [reflexivity|]. intros z.
      unfold make_exists. unfold free_occurrences at 1.
      rewrite !free_occurrences_at_unfold. rewrite Ewx. exact (Hc z).
Qed.

(** X17: what a positive answer of [is_substitutable] guarantees.  If the
    oracle accepts the term [t] for the variable [x] in a plain formula,
    the substitution captures nothing: for every variable [z], the free
    occurrences of [z] in the result are those of the formula (none if [z]
    is [x]) and, for each free occurrence of [x], all the occurrences of
    [z] in one copy of [t].  A captured occurrence would be missing from
    this count, which agrees with [is_free_in] and [occurs_in_term]; so
    every variable of [t] is free in the result when [x] was free. *)
Theorem substitutable_term_is_not_captured (phi : Formula) (x : string) (t : TermPtr) :
  Formula_plain phi = true ->
  is_substitutable (Some phi) (make_variable x) t = Ok true ->
  exists res,
    substitute_in_formula (Some phi) (make_variable x) t = Ok res
    /\ (forall z, free_occurrences z res
                  = (if String.eqb z x then 0 else free_occurrences z (Some phi))
                    + free_occurrences x (Some phi) * occurrences z t)
    /\ (forall z, is_free_in x (Some phi) = true -> occurs_in_term z t = true ->
                  is_free_in z res = true)
    /\ (forall z p, is_free_in z p = negb (free_occurrences z p =? 0)%nat)
    /\ (forall z u, occurs_in_term z u = negb (occurrences z u =? 0)%nat).
Proof.
  intros Hp Hs.
  destruct t as [t0|]; [|destruct phi; discriminate].
  destruct (substitute_in_formula_at_counts phi x t0 Hp (or_intror Hs)) as (res & Hres & Hc).
  exists res. split; [exact Hres|]. split; [exact Hc|].
  split; [|split; [exact is_free_in_counts | exact occurs_in_term_counts]].
  intros z Hx Hz.
  rewrite is_free_in_counts in Hx |- *. rewrite occurs_in_term_counts in Hz.
  apply negb_true_iff, Nat.eqb_neq in Hx. apply negb_true_iff, Nat.eqb_neq in Hz.
  apply negb_true_iff, Nat.eqb_neq. rewrite (Hc z).
  simpl in Hx, Hz |- *. nia.
Qed.

Lemma substitutable_term_is_not_captured_witness :
  exists res,
    substitute_in_formula
      (make_forall "y" Demo.natural_numbers
         (make_rel "R" [Demo.x; make_function "h" [Demo.x; make_variable "z"]]))
      (make_variable "x") (make_function "g" [make_variable "z"; make_variable "z"]) = Ok res
    /\ free_occurrences "z" res = 5
    /\ free_occurrences "x" res = 0
    /\ is_free_in "z" res = true.
Proof.
  destruct (substitutable_term_is_not_captured
              (ForallFormula "y" Demo.natural_numbers
                 (make_rel "R" [Demo.x; make_function "h" [Demo.x; make_variable "z"]]))
              "x" (make_function "g" [make_variable "z"; make_variable "z"]))
    as (res & Hres & Hc & Hfree & _); [reflexivity | reflexivity |].
  exists res. split; [exact Hres|].
  split; [exact (Hc "z")|]. split; [exact (Hc "x")|].
  apply Hfree; reflexivity.
Defined.

(** X18: the oracle never objects when there is nothing to substitute: in
    a plain formula in which [x] is not free, every non-null term is
    substitutable for [x]. *)
Theorem term_is_substitutable_when_variable_is_not_free (phi : Formula) (x : string)
  (t0 : Term) :
  Formula_plain phi = true ->
  is_free_in_at x phi = false ->
  is_substitutable (Some phi) (make_variable x) (Some t0) = Ok true.
Proof.
  assert (Hptr : forall (p : FormulaPtr),
             from_option (fun psi => Formula_plain psi = true ->
                 is_free_in_at x psi = false ->
                 is_substitutable (Some psi) (make_variable x) (Some t0) = Ok true) True p ->
             FormulaPtr_plain p = true -> is_free_in x p = false ->
             is_substitutable p (make_variable x) (Some t0) = Ok true).
  { intros [psi|] Hpsi Hpl Hfree; simpl in *; [auto | discriminate]. }
  induction phi as [l0 r0|R args|inner IH|l0 r0 IHl IHr|l0 r0 IHl IHr|l0 r0 IHl IHr
                   |w domain inner IH|w domain inner IH] using Formula_nested_ind;
    intros Hp Hf; rewrite Formula_plain_unfold in Hp; pose proof Hf as Hfree;
    rewrite is_free_in_at_unfold in Hf;
    unfold is_substitutable; rewrite is_substitutable_at_unfold.
  - reflexivity.
  - reflexivity.
  - apply (Hptr inner IH Hp Hf).
  - apply andb_prop in Hp as [Hl Hr]. apply orb_false_elim in Hf as [Hfl Hfr].
    rewrite (Hptr l0 IHl Hl Hfl). simpl. apply (Hptr r0 IHr Hr Hfr).
  - apply andb_prop in Hp as [Hl Hr]. apply orb_false_elim in Hf as [Hfl Hfr].
    rewrite (Hptr l0 IHl Hl Hfl). simpl. apply (Hptr r0 IHr Hr Hfr).
  - apply andb_prop in Hp as [Hl Hr]. apply orb_false_elim in Hf as [Hfl Hfr].
    rewrite (Hptr l0 IHl Hl Hfl). simpl. apply (Hptr r0 IHr Hr Hfr).
  - rewrite Hfree. reflexivity.
  - rewrite Hfree. reflexivity.
Qed.

Lemma term_is_substitutable_when_variable_is_not_free_witness :
  is_substitutable Demo.forall_x_eq_5 (make_variable "x") Demo.y = Ok true.
Proof.
  apply (term_is_substitutable_when_variable_is_not_free
           (ForallFormula "x" Demo.X Demo.x_eq_5) "x" (VariableTerm "y")); reflexivity.
Defined.

(** ** What the line rules accept and return *)

Lemma TermPtr_same_text_refl (t : TermPtr) :
  TermPtr_no_null t = true ->
  same_text (TermPtr_to_string t) (TermPtr_to_string t) = Ok true.
Proof.
  intros H. destruct (TermPtr_no_null_renders _ H) as [s ->].
  rewrite same_text_Ok, String.eqb_refl. reflexivity.
Qed.

(** X19: universal instantiation.  From [forall v in D, B] and the
    membership fact [e in D], the FORALL rule accepts the instance
    [B(v := e)] computed by [substitute_in_formula], for every plain body
    and element and every null-free domain. *)
Theorem forall_rule_accepts_instances (v : string) (D elem : TermPtr) (B : FormulaPtr) :
  FormulaPtr_plain B = true ->
  TermPtr_no_null D = true ->
  TermPtr_plain elem = true ->
  exists inst,
    substitute_in_formula B (make_variable v) elem = Ok inst
    /\ forall_rule [make_forall v D B; make_rel "∈" [elem; D]] inst = Ok inst.
Proof.
  intros HB HD He.
  destruct (substitute_in_formula_plain B v elem He HB) as (inst & Hinst & Hplain).
  destruct (FormulaPtr_plain_renders inst Hplain) as [si Hsi].
  exists inst. split; [exact Hinst|].
  unfold forall_rule. simpl.
  rewrite (TermPtr_same_text_refl D HD). simpl.
  rewrite Hinst. simpl. rewrite Hsi. simpl. rewrite String.eqb_refl. reflexivity.
Qed.

Lemma forall_rule_accepts_instances_witness :
  exists inst,
    substitute_in_formula Demo.x_eq_5 (make_variable "x") Demo.y = Ok inst
    /\ forall_rule [Demo.forall_x_eq_5; Demo.y_in_X] inst = Ok inst.
Proof.
  apply (forall_rule_accepts_instances "x" Demo.X Demo.y Demo.x_eq_5); reflexivity.
Defined.

(** X20: the induction schema.  For every plain [P] over the variable [k],
    the INDUCTION rule accepts [forall n in ℕ, P(k := n)] from the base
    [P(k := 0)] and the step [forall k in D, P -> P(k := k + 1)]; the domain
    [D] of the step is not looked at and the conclusion always ranges over
    the constant "ℕ". *)
Theorem induction_rule_accepts_the_schema (k : string) (D : TermPtr) (P : FormulaPtr) :
  FormulaPtr_plain P = true ->
  exists P0 Psucc Pn,
    substitute_in_formula P (make_variable k) (make_constant "0") = Ok P0
    /\ substitute_in_formula P (make_variable k)
         (make_function "+" [make_variable k; make_constant "1"]) = Ok Psucc
    /\ substitute_in_formula P (make_variable k) (make_variable "n") = Ok Pn
    /\ induction_rule [P0; make_forall k D (make_implies P Psucc)]
         (make_forall "n" (make_constant "ℕ") Pn)
       = Ok (make_forall "n" (make_constant "ℕ") Pn).
Proof.
  intros HP.
  destruct (substitute_in_formula_plain P k (make_constant "0") eq_refl HP)
    as (P0 & H0 & Hp0).
  destruct (substitute_in_formula_plain P k
              (make_function "+" [make_variable k; make_constant "1"]) eq_refl HP)
    as (Ps & Hs & Hps).
  destruct (substitute_in_formula_plain P k (make_variable "n") eq_refl HP)
    as (Pn & Hn & Hpn).
  destruct (FormulaPtr_plain_renders P0 Hp0) as [s0 Hs0].
  destruct (FormulaPtr_plain_renders Ps Hps) as [ss Hss].
  destruct (FormulaPtr_plain_renders (make_forall "n" (make_constant "ℕ") Pn)) as [sn Hsn].
  { simpl. exact Hpn. }
  exists P0, Ps, Pn. repeat (split; [assumption|]).
  unfold induction_rule. cbn [length Nat.eqb negb vec_at lookup list_lookup bindR data
                              make_forall make_implies].
  cbv zeta. unfold make_variable, make_function, make_constant in *.
  rewrite H0. cbn [bindR]. rewrite Hs0. cbn [bindR]. rewrite String.eqb_refl. cbn [negb].
  rewrite Hs. cbn [bindR]. rewrite Hss. cbn [bindR]. rewrite String.eqb_refl. cbn [negb].
  rewrite Hn. cbn [bindR]. unfold make_forall in *. rewrite Hsn.
  cbn [bindR]. rewrite String.eqb_refl. reflexivity.
Qed.

Lemma induction_rule_accepts_the_schema_witness :
  induction_rule [Demo.sum_axiom_base; Demo.step] Demo.sum_target = Ok Demo.sum_target.
Proof.
  destruct (induction_rule_accepts_the_schema "k" Demo.natural_numbers
              (make_eq (Demo.sum_fn Demo.k) Demo.k) eq_refl)
    as (P0 & Ps & Pn & H0 & Hs & Hn & H).
  vm_compute in H0, Hs, Hn.
  injection H0 as <-. injection Hs as <-. injection Hn as <-. exact H.
Defined.

Lemma and_rule_unfold (a b claimed : FormulaPtr) :
  and_rule [a; b] claimed =
  let* same := same_text (FormulaPtr_to_string (make_and a b))
                 (FormulaPtr_to_string claimed) in
  if negb same then throw (invalid_argument "Claimed does not match AND result")
  else Ok claimed.
Proof. reflexivity. Qed.

Lemma eq_rule_unfold (l r : TermPtr) :
  eq_rule [] (make_eq l r) =
  let* same := same_text (TermPtr_to_string l) (TermPtr_to_string r) in
  if negb same then
    throw (invalid_argument "Left and right sides of equality are not equal")
  else Ok (make_eq l r).
Proof. reflexivity. Qed.

Lemma excluded_middle_rule_unfold (l inner : FormulaPtr) :
  excluded_middle_rule [] (make_or l (make_not inner)) =
  let* same := same_text (FormulaPtr_to_string l) (FormulaPtr_to_string inner) in
  if negb same then throw (invalid_argument "LEM: must be of the form (P ∨ ¬P)")
  else Ok (make_or l (make_not inner)).
Proof. reflexivity. Qed.

(** X21: the propositional rules accept their schemas on null-free
    formulas: AND accepts [a and b] from [a] and [b], EQ accepts [t = t]
    with no dependency, and LEM accepts [a or not a] with no dependency. *)
Theorem propositional_rules_accept_their_schemas (a b : FormulaPtr) (t : TermPtr) :
  FormulaPtr_no_null a = true ->
  FormulaPtr_no_null b = true ->
  TermPtr_no_null t = true ->
  and_rule [a; b] (make_and a b) = Ok (make_and a b)
  /\ eq_rule [] (make_eq t t) = Ok (make_eq t t)
  /\ excluded_middle_rule [] (make_or a (make_not a)) = Ok (make_or a (make_not a)).
Proof.
  intros Ha Hb Ht. repeat split.
  - rewrite and_rule_unfold. cbv zeta.
    rewrite (same_text_refl (make_and a b)); [reflexivity|].
    change (FormulaPtr_no_null a && FormulaPtr_no_null b = true). now rewrite Ha, Hb.
  - rewrite eq_rule_unfold. cbv zeta. rewrite (TermPtr_same_text_refl t Ht). reflexivity.
  - rewrite excluded_middle_rule_unfold. cbv zeta.
    rewrite (same_text_refl a Ha). reflexivity.
Qed.

Lemma propositional_rules_accept_their_schemas_witness :
  and_rule [Demo.Px; Demo.Qx] (make_and Demo.Px Demo.Qx) = Ok (make_and Demo.Px Demo.Qx)
  /\ eq_rule [] (make_eq Demo.k_plus_1 Demo.k_plus_1)
     = Ok (make_eq Demo.k_plus_1 Demo.k_plus_1)
  /\ excluded_middle_rule [] (make_or Demo.Px (make_not Demo.Px))
     = Ok (make_or Demo.Px (make_not Demo.Px)).
Proof.
  apply (propositional_rules_accept_their_schemas Demo.Px Demo.Qx Demo.k_plus_1);
    reflexivity.
Defined.

(** Follow a rule along the path on which it returns. *)
Ltac returned_claim H :=
  repeat (try discriminate H;
          match type of H with
          | context [bindR ?m _] => destruct m eqn:?; cbn [bindR] in H
          | context [match ?x with _ => _ end] => destruct x eqn:?; cbn [negb] in H
          | context [if ?x then _ else _] => destruct x eqn:?; cbn [negb] in H
          end);
  try discriminate H; injection H as <-; reflexivity.

(** X22: a built-in rule that returns, returns the claim it was given, so
    the comparison of the derived with the claimed formula in
    [add_line_to_proof] cannot reject a line that one of these rules has
    accepted. *)
Theorem builtin_rules_return_the_claim (asms inputs : list FormulaPtr)
  (claimed r : FormulaPtr) :
  (and_rule inputs claimed = Ok r -> r = claimed)
  /\ (eq_rule inputs claimed = Ok r -> r = claimed)
  /\ (forall_rule inputs claimed = Ok r -> r = claimed)
  /\ (excluded_middle_rule inputs claimed = Ok r -> r = claimed)
  /\ (cases_rule inputs claimed = Ok r -> r = claimed)
  /\ (induction_rule inputs claimed = Ok r -> r = claimed)
  /\ (assumption_closure asms inputs claimed = Ok r -> r = claimed).
Proof.
  repeat split; intros H.
  - unfold and_rule, throw in H. returned_claim H.
  - unfold eq_rule, throw in H. returned_claim H.
  - unfold forall_rule, throw in H. returned_claim H.
  - unfold excluded_middle_rule, throw in H. returned_claim H.
  - unfold cases_rule, throw in H. returned_claim H.
  - unfold induction_rule, throw in H. cbv zeta in H. returned_claim H.
  - apply assumption_lookup_sound in H. tauto.
Qed.

(** ** Well-formed terms and formulas *)

Lemma Term_is_well_formed_function (f : string) (args : list TermPtr) (err : option string) :
  Term_is_well_formed (FunctionTerm f args) err =
  if negb (is_function f (Z.of_nat (length args)))
  then Ok (false, set_err err "bad function/arity")
  else args_are_well_formed args err.
Proof.
  simpl. destruct (negb (is_function f (Z.of_nat (length args)))); [reflexivity|].
  revert err. induction args as [|a l IH]; intros err; [reflexivity|].
  simpl. destruct a as [u|]; [|reflexivity]. simpl.
  destruct (Term_is_well_formed u err) as [[[|] e]|]; simpl; auto.
Qed.

Lemma args_are_well_formed_true (P : Term -> Prop) (args : list TermPtr) :
  Forall (from_option
            (fun u => forall err err', Term_is_well_formed u err = Ok (true, err') ->
                                       err' = err /\ P u) True) args ->
  forall err err',
    args_are_well_formed args err = Ok (true, err') ->
    err' = err /\ Forall (fun a => exists u, a = Some u /\ P u) args.
Proof.
  induction 1 as [|a l Ha _ IH]; intros err err' H; simpl in H.
  - injection H as <-. split; [reflexivity | constructor].
  - apply bindR_Ok in H as ([b e] & Hb & H). simpl in H.
    destruct b; simpl in H; [|discriminate].
    destruct a as [u|]; simpl in *; [|discriminate].
    destruct (Ha _ _ Hb) as (-> & Hu). destruct (IH _ _ H) as (-> & Hl).
    split; [reflexivity|]. constructor; eauto.
Qed.

Lemma Term_is_well_formed_true (t : Term) (err err' : option string) :
  Term_is_well_formed t err = Ok (true, err') ->
  err' = err
  /\ Term_plain t = true
  /\ forall x, occurs_in_term_at x t = true -> is_variable x = true.
Proof.
  revert err err'.
  induction t as [var|c|f args IH|args IH] using Term_nested_ind; intros err err' H.
  - simpl in H. destruct (is_variable var) eqn:E; simpl in H; [|discriminate].
    injection H as <-. repeat split. intros x Hx. simpl in Hx.
    apply String.eqb_eq in Hx. now subst x.
  - simpl in H. destruct (is_constant c); simpl in H; [|discriminate].
    injection H as <-. repeat split. discriminate.
  - rewrite Term_is_well_formed_function in H.
    destruct (negb (is_function f (Z.of_nat (length args)))); [discriminate|].
    destruct (args_are_well_formed_true _ args IH err err' H) as (-> & Hargs).
    split; [reflexivity|]. split.
    + simpl. clear IH H. induction Hargs as [|a l (u & -> & Hu & _) _ IHl];
        [reflexivity|]. simpl. now rewrite Hu, IHl.
    + intros x Hx. rewrite (proj1 (occurs_in_term_at_args x f args)) in Hx.
      clear IH H. induction Hargs as [|a l (u & -> & _ & Hu) _ IHl]; [discriminate|].
      simpl in Hx. apply orb_true_iff in Hx as [Hx|Hx]; auto.
  - discriminate.
Qed.

(** X23: a term that [Term::is_well_formed] accepts is plain (no tuple, no
    null pointer, so it renders), all its variables have the lexical form
    [v<digits>], and [*err] is left untouched. *)
Theorem well_formed_term_is_plain (t : Term) (err err' : option string) :
  Term_is_well_formed t err = Ok (true, err') ->
  err' = err
  /\ Term_plain t = true
  /\ (forall x, occurs_in_term_at x t = true -> is_variable x = true)
  /\ exists s, Term_to_string t = Ok s.
Proof.
  intros H. destruct (Term_is_well_formed_true t err err' H) as (He & Hp & Hv).
  repeat split; try assumption.
  apply Term_no_null_renders, Term_plain_no_null, Hp.
Qed.

Lemma well_formed_term_is_plain_witness :
  Term_plain (FunctionTerm "+" [Demo.v1; Demo.one]) = true
  /\ exists s, Term_to_string (FunctionTerm "+" [Demo.v1; Demo.one]) = Ok s.
Proof.
  destruct (well_formed_term_is_plain (FunctionTerm "+" [Demo.v1; Demo.one])
              (Some "") (Some "") eq_refl) as (_ & Hp & _ & Hs).
  split; assumption.
Defined.

Lemma well_formed_termptr (p : TermPtr) (err err' : option string) :
  TermPtr_is_well_formed p err = Ok (true, err') ->
  err' = err /\ forall x, occurs_in_term x p = true -> is_variable x = true.
Proof.
  destruct p as [t|]; simpl; [|discriminate]. intros H.
  destruct (Term_is_well_formed_true t err err' H) as (He & _ & Hv). auto.
Qed.

Lemma well_formed_args (args : list TermPtr) (err err' : option string) :
  args_are_well_formed args err = Ok (true, err') ->
  err' = err /\ forall x, existsb (occurs_in_term x) args = true -> is_variable x = true.
Proof.
  revert err. induction args as [|a l IH]; intros err H; simpl in H.
  - injection H as <-. split; [reflexivity | discriminate].
  - apply bindR_Ok in H as ([b e] & Hb & H). simpl in H.
    destruct b; simpl in H; [|discriminate].
    destruct (well_formed_termptr a err e Hb) as (-> & Ha).
    destruct (IH _ H) as (-> & Hl). split; [reflexivity|].
    intros x Hx. simpl in Hx. apply orb_true_iff in Hx as [Hx|Hx]; auto.
Qed.

Lemma Formula_is_well_formed_unfold (phi : Formula) (err : option string) :
  Formula_is_well_formed phi err =
  let deref (p : FormulaPtr) (err : option string) :=
    match p with
    | Some psi => Formula_is_well_formed psi err
    | None => Fail Undefined
    end in
  let both (l r : FormulaPtr) :=
    let* a := deref l err in
    if fst a then deref r (snd a) else Ok (false, snd a) in
  match phi with
  | EqualityFormula l r =>
      let* a := TermPtr_is_well_formed l err in
      if fst a then TermPtr_is_well_formed r (snd a) else Ok (false, snd a)
  | RelationFormula R args =>
      if negb (is_relation R (Z.of_nat (length args)))
      then Ok (false, set_err err "bad relation/arity")
      else args_are_well_formed args err
  | NotFormula inner => deref inner err
  | OrFormula l r | AndFormula l r | ImpliesFormula l r => both l r
  | ForallFormula v _ inner =>
      if negb (is_variable v) then Ok (false, set_err err "bad forall var")
      else deref inner err
  | ExistsFormula v _ inner =>
      if negb (is_variable v) then Ok (false, set_err err "bad exists var")
      else deref inner err
  end.
Proof. destruct phi; reflexivity. Qed.

(** X24: in a formula that [Formula::is_well_formed] accepts, every free
    variable has the lexical form [v<digits>], and [*err] is left
    untouched. *)
Theorem well_formed_formula_has_lexical_variables (phi : Formula) (err err' : option string) :
  Formula_is_well_formed phi err = Ok (true, err') ->
  err' = err /\ forall x, is_free_in_at x phi = true -> is_variable x = true.
Proof.
  assert (Hptr : forall (p : FormulaPtr),
             from_option (fun psi => forall err err',
                 Formula_is_well_formed psi err = Ok (true, err') ->
                 err' = err /\ forall x, is_free_in_at x psi = true -> is_variable x = true)
               True p ->
             forall err err',
               match p with
               | Some psi => Formula_is_well_formed psi err
               | None => Fail Undefined
               end = Ok (true, err') ->
               err' = err /\ forall x, is_free_in x p = true -> is_variable x = true).
  { intros [psi|] Hp e e' H; simpl in *; [auto | discriminate]. }
  assert (Hbin : forall (l r : FormulaPtr),
             from_option (fun psi => forall err err',
                 Formula_is_well_formed psi err = Ok (true, err') ->
                 err' = err /\ forall x, is_free_in_at x psi = true -> is_variable x = true)
               True l ->
             from_option (fun psi => forall err err',
                 Formula_is_well_formed psi err = Ok (true, err') ->
                 err' = err /\ forall x, is_free_in_at x psi = true -> is_variable x = true)
               True r ->
             forall err err',
               (let* a := match l with
                          | Some psi => Formula_is_well_formed psi err
                          | None => Fail Undefined
                          end in
                if fst a
                then match r with
                     | Some psi => Formula_is_well_formed psi (snd a)
                     | None => Fail Undefined
                     end
                else Ok (false, snd a)) = Ok (true, err') ->
               err' = err
               /\ forall x, is_free_in x l || is_free_in x r = true -> is_variable x = true).
  { intros l r IHl IHr e e' H.
    apply bindR_Ok in H as ([b e1] & Hl & H). simpl in H.
    destruct b; [|discriminate].
    destruct (Hptr l IHl _ _ Hl) as (-> & Hvl). destruct (Hptr r IHr _ _ H) as (-> & Hvr).
    split; [reflexivity|]. intros x Hx. apply orb_true_iff in Hx as [Hx|Hx]; auto. }
  revert err err'.
  induction phi as [l0 r0|R args|inner IH|l0 r0 IHl IHr|l0 r0 IHl IHr|l0 r0 IHl IHr
                   |w domain inner IH|w domain inner IH] using Formula_nested_ind;
    intros err err' H; rewrite Formula_is_well_formed_unfold in H; cbv zeta in H.
  - apply bindR_Ok in H as ([b e1] & Hl & H). simpl in H. destruct b; [|discriminate].
    destruct (well_formed_termptr _ _ _ Hl) as (-> & Hvl).
    destruct (well_formed_termptr _ _ _ H) as (-> & Hvr).
    split; [reflexivity|]. intros x Hx. rewrite is_free_in_at_unfold in Hx.
    apply orb_true_iff in Hx as [Hx|Hx]; auto.
  - destruct (negb (is_relation R (Z.of_nat (length args)))); [discriminate|].
    exact (well_formed_args _ _ _ H).
  - exact (Hptr inner IH _ _ H).
  - exact (Hbin l0 r0 IHl IHr _ _ H).
  - exact (Hbin l0 r0 IHl IHr _ _ H).
  - exact (Hbin l0 r0 IHl IHr _ _ H).
  - destruct (is_variable w); simpl in H; [|discriminate].
    destruct (Hptr inner IH _ _ H) as (-> & Hv). split; [reflexivity|].
    intros x Hx. rewrite is_free_in_at_unfold in Hx.
    destruct (String.eqb w x); [discriminate | auto].
  - destruct (is_variable w); simpl in H; [|discriminate].
    destruct (Hptr inner IH _ _ H) as (-> & Hv). split; [reflexivity|].
    intros x Hx. rewrite is_free_in_at_unfold in Hx.
    destruct (String.eqb w x); [discriminate | auto].
Qed.

Lemma well_formed_formula_has_lexical_variables_witness :
  Formula_is_well_formed
    (ExistsFormula "v2" Demo.natural_numbers
       (make_eq (make_function "+" [Demo.v1; Demo.one])
                (make_function "*" [Demo.v1; make_variable "v2"])))
    (Some "") = Ok (true, Some "")
  /\ is_variable "v1" = true.
Proof.
  split; [reflexivity|].
  destruct (well_formed_formula_has_lexical_variables
              (ExistsFormula "v2" Demo.natural_numbers
                 (make_eq (make_function "+" [Demo.v1; Demo.one])
                          (make_function "*" [Demo.v1; make_variable "v2"])))
              (Some "") (Some "") eq_refl) as (_ & Hv).
  apply Hv. reflexivity.
Defined.

(** ** Completed proofs and the active target *)

Lemma perform_on_completed (c : call) (p : Proof) :
  targets p = [] ->
  targets (snd (perform c p)) = []
  /\ (is_tactic c = true -> snd (perform c p) = p /\ is_Ok (fst (perform c p)) = false).
Proof.
  intros Hempty. destruct c; cbn [is_tactic]; [| |cbn [perform]..].
  - split; [exact Hempty | discriminate].
  - rewrite get_active_target_effect. split; [exact Hempty | discriminate].
  - split; [|discriminate].
    rewrite add_line_to_proof_unfold. cbv zeta. rewrite Hempty.
    match goal with |- context [match ?c with Ok _ => _ | Fail _ => _ end] =>
      destruct c as [[]|f] end; simpl; assumption.
  - unfold instantiate_forall, bindM, this, liftM. rewrite Hempty. simpl.
    split; [exact Hempty | auto].
  - unfold instantiate_implication, bindM, this, liftM. rewrite Hempty. simpl.
    split; [exact Hempty | auto].
  - unfold instantiate_induction, bindM. rewrite get_active_target_unfold, Hempty. simpl.
    split; [exact Hempty | auto].
  - unfold rewrite_target_using_equality, bindM, this, liftM. rewrite Hempty. simpl.
    split; [exact Hempty | auto].
Qed.

Lemma session_on_completed (cs : list call) (p : Proof) :
  targets p = [] -> targets (session cs p) = [].
Proof.
  revert p. induction cs as [|c rest IH]; intros p Hempty; simpl; [exact Hempty|].
  pose proof (proj1 (perform_on_completed c p Hempty)) as Hc.
  destruct (perform c p) as [[u|[e|]] p']; simpl in Hc; auto.
Qed.

(** X25: a completed proof stays completed.  Once the target vector is
    empty every goal tactic fails and leaves the proof as it is, lines can
    still be added, and whatever calls follow [is_valid] keeps answering
    [true]. *)
Theorem completed_proof_stays_completed (p : Proof) (c : call) (cs : list call) :
  is_valid p = true ->
  is_valid (session cs p) = true
  /\ (is_tactic c = true -> snd (perform c p) = p /\ is_Ok (fst (perform c p)) = false).
Proof.
  unfold is_valid. intros H. apply Nat.eqb_eq in H. apply length_zero_iff_nil in H.
  split.
  - rewrite (session_on_completed cs p H). reflexivity.
  - apply (perform_on_completed c p H).
Qed.

Lemma completed_proof_stays_completed_witness :
  let p := snd (add_line_to_proof Demo.Qx "ASSUMPTION" [] (Proof_new [Demo.Qx] Demo.Qx)) in
  is_valid (session [call_instantiate_induction;
                     call_add_line_to_proof Demo.Qx "ASSUMPTION" []] p) = true.
Proof.
  apply (completed_proof_stays_completed
           (snd (add_line_to_proof Demo.Qx "ASSUMPTION" [] (Proof_new [Demo.Qx] Demo.Qx)))
           call_instantiate_induction
           [call_instantiate_induction; call_add_line_to_proof Demo.Qx "ASSUMPTION" []]).
  reflexivity.
Defined.

(** X26: in a session started on a fresh proof the active target is always
    the first target: [get_active_target] throws [std::logic_error] exactly
    when the proof is complete, and otherwise returns [targets[0]] without
    changing the object. *)
Theorem active_target_of_a_fresh_session (cs : list call) (given : list FormulaPtr)
  (target : FormulaPtr) :
  let p := session cs (Proof_new given target) in
  get_active_target p =
  (match targets p with
   | [] => throw (logic_error "Active goal index out of range")
   | first :: _ => Ok first
   end, p).
Proof.
  cbv zeta. rewrite get_active_target_unfold, fresh_session_active_index.
  destruct (targets (session cs (Proof_new given target))); reflexivity.
Qed.

(** ** Rewriting with an equality *)

Lemma substitute_term_in_term_at_no_null (u : Term) (pattern replacement : TermPtr) :
  TermPtr_no_null pattern = true ->
  TermPtr_no_null replacement = true ->
  Term_no_null u = true ->
  exists res, substitute_term_in_term_at u pattern replacement = Ok res
              /\ TermPtr_no_null res = true.
Proof.
  intros Hpat Hrep.
  destruct (TermPtr_no_null_renders _ Hpat) as [sp Hsp].
  assert (Hargs : forall args,
             Forall (from_option (fun u => Term_no_null u = true ->
                       exists res, substitute_term_in_term_at u pattern replacement = Ok res
                                   /\ TermPtr_no_null res = true) True) args ->
             forallb TermPtr_no_null args = true ->
             exists rs,
               mapR (fun arg => substitute_term_in_term arg pattern replacement) args = Ok rs
               /\ forallb TermPtr_no_null rs = true).
  { intros args IH Hnn. apply forallb_true_Forall in Hnn.
    induction IH as [|a l Ha _ IHl]; [exists []; split; reflexivity|].
    inversion Hnn as [|? ? Hna Hnl]; subst.
    destruct (IHl Hnl) as (rs & Hrs & Hprs).
    destruct a as [a|]; simpl in *; [|discriminate].
    destruct (Ha Hna) as (r & Hr & Hpr).
    exists (r :: rs). rewrite Hr, Hrs. simpl. rewrite Hpr, Hprs. split; reflexivity. }
  induction u as [x|c|f args IH|args IH] using Term_nested_ind; intros Hu;
    rewrite substitute_term_in_term_at_unfold;
    destruct (Term_no_null_renders _ Hu) as [su ->]; rewrite Hsp, same_text_Ok;
    cbn [bindR]; destruct (String.eqb su sp); eauto.
  - destruct (Hargs args IH Hu) as (rs & -> & Hrs). simpl. eauto.
  - destruct (Hargs args IH Hu) as (rs & -> & Hrs). simpl. eauto.
Qed.

Lemma substitute_term_in_term_no_null (u pattern replacement : TermPtr) :
  TermPtr_no_null pattern = true ->
  TermPtr_no_null replacement = true ->
  TermPtr_no_null u = true ->
  exists res, substitute_term_in_term u pattern replacement = Ok res
              /\ TermPtr_no_null res = true.
Proof.
  destruct u as [u|]; simpl; [apply substitute_term_in_term_at_no_null | discriminate].
Qed.

Lemma substitute_term_in_formula_at_unfold (phi : Formula) (pattern replacement : TermPtr) :
  substitute_term_in_formula_at phi pattern replacement =
  match phi with
  | EqualityFormula l r =>
      let* new_l := substitute_term_in_term l pattern replacement in
      let* new_r := substitute_term_in_term r pattern replacement in
      Ok (make_eq new_l new_r)
  | RelationFormula R args =>
      let* new_args :=
        mapR (fun arg => substitute_term_in_term arg pattern replacement) args in
      Ok (make_rel R new_args)
  | NotFormula inner =>
      let* new_inner := substitute_term_in_formula inner pattern replacement in
      Ok (make_not new_inner)
  | OrFormula l r =>
      let* new_l := substitute_term_in_formula l pattern replacement in
      let* new_r := substitute_term_in_formula r pattern replacement in
      Ok (make_or new_l new_r)
  | AndFormula l r =>
      let* new_l := substitute_term_in_formula l pattern replacement in
      let* new_r := substitute_term_in_formula r pattern replacement in
      Ok (make_and new_l new_r)
  | ImpliesFormula l r =>
      let* new_l := substitute_term_in_formula l pattern replacement in
      let* new_r := substitute_term_in_formula r pattern replacement in
      Ok (make_implies new_l new_r)
  | ForallFormula v domain inner =>
      let* new_inner := substitute_term_in_formula inner pattern replacement in
      Ok (make_forall v domain new_inner)
  | ExistsFormula v domain inner =>
      let* new_inner := substitute_term_in_formula inner pattern replacement in
      Ok (make_exists v domain new_inner)
  end.
Proof. destruct phi; reflexivity. Qed.

Lemma Formula_no_null_unfold (phi : Formula) :
  Formula_no_null phi =
  match phi with
  | EqualityFormula l r => TermPtr_no_null l && TermPtr_no_null r
  | RelationFormula _ args => forallb TermPtr_no_null args
  | NotFormula inner => FormulaPtr_no_null inner
  | OrFormula l r | AndFormula l r | ImpliesFormula l r =>
      FormulaPtr_no_null l && FormulaPtr_no_null r
  | ForallFormula _ domain inner | ExistsFormula _ domain inner =>
      TermPtr_no_null domain && FormulaPtr_no_null inner
  end.
Proof. destruct phi; reflexivity. Qed.

Lemma substitute_term_in_formula_no_null (phi : FormulaPtr) (pattern replacement : TermPtr) :
  TermPtr_no_null pattern = true ->
  TermPtr_no_null replacement = true ->
  FormulaPtr_no_null phi = true ->
  exists res, substitute_term_in_formula phi pattern replacement = Ok res
              /\ FormulaPtr_no_null res = true.
Proof.
  intros Hpat Hrep.
  assert (Hptr : forall (p : FormulaPtr),
             from_option (fun psi => Formula_no_null psi = true ->
                 exists res, substitute_term_in_formula_at psi pattern replacement = Ok res
                             /\ FormulaPtr_no_null res = true) True p ->
             FormulaPtr_no_null p = true ->
             exists res, substitute_term_in_formula p pattern replacement = Ok res
                         /\ FormulaPtr_no_null res = true).
  { intros [psi|] Hp Hnn; simpl in *; [auto | discriminate]. }
  destruct phi as [phi|]; [|discriminate]. simpl.
  induction phi as [l0 r0|R args|inner IH|l0 r0 IHl IHr|l0 r0 IHl IHr|l0 r0 IHl IHr
                   |w domain inner IH|w domain inner IH] using Formula_nested_ind;
    intros Hnn; rewrite Formula_no_null_unfold in Hnn;
    rewrite substitute_term_in_formula_at_unfold.
  - apply andb_prop in Hnn as [Hl Hr].
    destruct (substitute_term_in_term_no_null l0 _ _ Hpat Hrep Hl) as (l' & -> & Hl').
    destruct (substitute_term_in_term_no_null r0 _ _ Hpat Hrep Hr) as (r' & -> & Hr').
    simpl. eexists. split; [reflexivity|].
    change (TermPtr_no_null l' && TermPtr_no_null r' = true). now rewrite Hl', Hr'.
  - assert (H : exists rs,
               mapR (fun arg => substitute_term_in_term arg pattern replacement) args = Ok rs
               /\ forallb TermPtr_no_null rs = true).
    { apply forallb_true_Forall in Hnn.
      induction Hnn as [|a l Ha _ (rs & Hrs & Hprs)]; [exists []; split; reflexivity|].
      destruct (substitute_term_in_term_no_null a _ _ Hpat Hrep Ha) as (r & Hr & Hpr).
      exists (r :: rs). simpl. rewrite Hr, Hrs. simpl. rewrite Hpr, Hprs.
      split; reflexivity. }
    destruct H as (rs & -> & Hrs). simpl. eexists. split; [reflexivity|]. exact Hrs.
  - destruct (Hptr inner IH Hnn) as (i' & -> & Hi').
    simpl. eexists. split; [reflexivity|]. exact Hi'.
  - apply andb_prop in Hnn as [Hl Hr].
    destruct (Hptr l0 IHl Hl) as (l' & -> & Hl'). destruct (Hptr r0 IHr Hr) as (r' & -> & Hr').
    simpl. eexists. split; [reflexivity|].
    change (FormulaPtr_no_null l' && FormulaPtr_no_null r' = true). now rewrite Hl', Hr'.
  - apply andb_prop in Hnn as [Hl Hr].
    destruct (Hptr l0 IHl Hl) as (l' & -> & Hl'). destruct (Hptr r0 IHr Hr) as (r' & -> & Hr').
    simpl. eexists. split; [reflexivity|].
    change (FormulaPtr_no_null l' && FormulaPtr_no_null r' = true). now rewrite Hl', Hr'.
  - apply andb_prop in Hnn as [Hl Hr].
    destruct (Hptr l0 IHl Hl) as (l' & -> & Hl'). destruct (Hptr r0 IHr Hr) as (r' & -> & Hr').
    simpl. eexists. split; [reflexivity|].
    change (FormulaPtr_no_null l' && FormulaPtr_no_null r' = true). now rewrite Hl', Hr'.
  - apply andb_prop in Hnn as [Hd Hi].
    destruct (Hptr inner IH Hi) as (i' & -> & Hi').
    simpl. eexists. split; [reflexivity|].
    change (TermPtr_no_null domain && FormulaPtr_no_null i' = true). now rewrite Hd, Hi'.
  - apply andb_prop in Hnn as [Hd Hi].
    destruct (Hptr inner IH Hi) as (i' & -> & Hi').
    simpl. eexists. split; [reflexivity|].
    change (TermPtr_no_null domain && FormulaPtr_no_null i' = true). now rewrite Hd, Hi'.
Qed.

(** X27: rewriting the active target with a proved equality.  When line
    [i] of the log is a null-free equality [l = r] and the active target is
    null-free, [rewrite_target_using_equality(i)] returns normally: it puts
    the rewritten target, again null-free, in place of the active one,
    pushes the old target vector on the history and changes nothing else. *)
Theorem rewrite_target_using_equality_spec (p : Proof) (i : Z) (line : ProofLine)
  (l r : TermPtr) (goal : FormulaPtr) :
  lines p !! Z.to_nat i = Some line ->
  (0 <= i)%Z ->
  statement line = make_eq l r ->
  TermPtr_no_null l = true ->
  TermPtr_no_null r = true ->
  targets p !! active_target_idx p = Some goal ->
  FormulaPtr_no_null goal = true ->
  exists new_goal,
    substitute_term_in_formula goal l r = Ok new_goal
    /\ FormulaPtr_no_null new_goal = true
    /\ rewrite_target_using_equality i p =
       (Ok tt,
        mkProof (lines p) (assumptions p)
          (<[active_target_idx p := new_goal]> (targets p))
          (active_target_idx p) (target_history p ++ [targets p]) (rules p)).
Proof.
  intros Hline Hpos Hstmt Hl Hr Hgoal Hnn.
  destruct (substitute_term_in_formula_no_null goal l r Hl Hr Hnn) as (ng & Hng & Hnng).
  exists ng. repeat (split; [assumption|]).
  unfold rewrite_target_using_equality, bindM, this, liftM, update, retM, push_back, vec_at.
  cbv zeta.
  assert (Hlen : (length (targets p) =? 0)%nat = false).
  { apply lookup_lt_Some in Hgoal. apply Nat.eqb_neq. lia. }
  assert (Hidx : (i <? 0)%Z || (i >=? Z.of_nat (length (lines p)))%Z = false).
  { apply lookup_lt_Some in Hline. apply orb_false_intro.
    - apply Z.ltb_ge. lia.
    - rewrite Z.geb_leb. apply Z.leb_gt. lia. }
  rewrite Hlen, Hidx, Hline. simpl. rewrite Hstmt. simpl.
  rewrite Hgoal. simpl. rewrite Hng. reflexivity.
Qed.

Lemma rewrite_target_using_equality_spec_witness :
  let p := snd (add_line_to_proof Demo.x_eq_2 "ASSUMPTION" []
                  (Proof_new [Demo.x_eq_2] (make_rel "P" [Demo.x]))) in
  exists new_goal,
    substitute_term_in_formula (make_rel "P" [Demo.x]) Demo.x Demo.two = Ok new_goal
    /\ FormulaPtr_no_null new_goal = true
    /\ rewrite_target_using_equality 0 p =
       (Ok tt,
        mkProof (lines p) (assumptions p)
          (<[active_target_idx p := new_goal]> (targets p))
          (active_target_idx p) (target_history p ++ [targets p]) (rules p)).
Proof.
  apply (rewrite_target_using_equality_spec
           (snd (add_line_to_proof Demo.x_eq_2 "ASSUMPTION" []
                   (Proof_new [Demo.x_eq_2] (make_rel "P" [Demo.x]))))
           0 (mkProofLine Demo.x_eq_2 "ASSUMPTION" []) Demo.x Demo.two
           (make_rel "P" [Demo.x])); reflexivity.
Defined.
